(** * Pointer input of the aminal terminal emulator: [gui/mouse.go], [gui/scrollbar.go]

    A shallow embedding of the mouse dispatcher, the left-click counter, the
    xterm mouse-protocol encoder and the scrollbar controller, with the
    properties stated about them.

    Conventions.
    - Go [int] is a 64-bit two's-complement integer: a [Z] kept in range by
      [wrap64]; [uint16(n)] is [n mod 2^16]; [rune] is [int32].
    - [float32] and [float64] are IEEE 754 binary32 and binary64 with
      round-to-nearest-even: module [Float] below.
    - A call to a collaborator outside these files (terminal, buffer, window)
      is recorded as an [Effect] in a trace; what a collaborator answers is
      read from an [Env] record.
    - [panic] is the outcome [Panicked]. *)

From Stdlib Require Import ZArith QArith Qround Qabs Qpower Qreduction.
From Stdlib Require Import Lia Lqa List Bool String Ascii.
From Stdlib Require Import SpecFloat.
Import ListNotations.

Local Open Scope Z_scope.

(** ** Machine integers *)

Module GoInt.

Definition min_int : Z := - 2 ^ 63.
Definition max_int : Z := 2 ^ 63 - 1.

(** Two's-complement reduction to 64 bits: the value of every [int]
    operation. *)
Definition wrap64 (z : Z) : Z := (z + 2 ^ 63) mod 2 ^ 64 - 2 ^ 63.

(** [int32(z)], the conversion to [rune]. *)
Definition wrap32 (z : Z) : Z := (z + 2 ^ 31) mod 2 ^ 32 - 2 ^ 31.

Definition in_int (z : Z) : Prop := min_int <= z <= max_int.

Definition add (a b : Z) : Z := wrap64 (a + b).
Definition sub (a b : Z) : Z := wrap64 (a - b).

(** [uint16(z)] and [byte(z)] of an integer. *)
Definition uint16 (z : Z) : Z := z mod 2 ^ 16.
Definition uint8 (z : Z) : Z := z mod 2 ^ 8.

End GoInt.

(** ** IEEE 754 binary floating point

  A float is a NaN, a signed infinity, a signed zero or a non-zero rational
  (the exact value it denotes).  Every operation computes the exact result
  and rounds it to the format with [round]: to nearest, ties to even, with
  gradual underflow and overflow to infinity. *)

Module Float.

Local Open Scope Q_scope.

Inductive float : Type :=
| FNaN
| FInf (neg : bool)
| FZero (neg : bool)
| FNum (v : Q).

Record format : Type := { prec : Z; emax : Z }.

Definition binary32 : format := {| prec := 24; emax := 128 |}.
Definition binary64 : format := {| prec := 53; emax := 1024 |}.

Definition pow2 (e : Z) : Q := (2 # 1) ^ e.

(** [floor (log2 x)] of a positive rational. *)
Definition ilog2 (x : Q) : Z :=
  let k := (Z.log2 (Qnum x) - Z.log2 (Zpos (Qden x)))%Z in
  if Qle_bool (pow2 k) x then k else (k - 1)%Z.

(** Nearest integer, ties to even. *)
Definition rne (q : Q) : Z :=
  let f := Qfloor q in
  match Qcompare (q - inject_Z f) (1 # 2) with
  | Lt => f
  | Gt => (f + 1)%Z
  | Eq => if Z.even f then f else (f + 1)%Z
  end.

(** Exponent of the last place of a positive [x]: [prec] significant bits,
    never below the subnormal exponent [3 - emax - prec]. *)
Definition qexp (fmt : format) (x : Q) : Z :=
  Z.max (ilog2 x + 1 - prec fmt) (3 - emax fmt - prec fmt).

(** The rounded magnitude of a positive [x], before the overflow test. *)
Definition rpos (fmt : format) (x : Q) : Q :=
  inject_Z (rne (x / pow2 (qexp fmt x))) * pow2 (qexp fmt x).

Definition round (fmt : format) (x : Q) : float :=
  match Qcompare x 0 with
  | Eq => FZero false
  | Gt =>
      let r := rpos fmt x in
      if Qeq_bool r 0 then FZero false
      else if Qle_bool (pow2 (emax fmt)) r then FInf false
      else FNum (Qred r)
  | Lt =>
      let r := rpos fmt (- x) in
      if Qeq_bool r 0 then FZero true
      else if Qle_bool (pow2 (emax fmt)) r then FInf true
      else FNum (Qred (- r))
  end.

Definition is_neg (x : float) : bool :=
  match x with
  | FNaN => false
  | FInf s | FZero s => s
  | FNum v => match Qcompare v 0 with Lt => true | _ => false end
  end.

Definition opp (x : float) : float :=
  match x with
  | FNaN => FNaN
  | FInf s => FInf (negb s)
  | FZero s => FZero (negb s)
  | FNum v => FNum (Qred (- v))
  end.

Definition add (fmt : format) (x y : float) : float :=
  match x, y with
  | FNaN, _ | _, FNaN => FNaN
  | FInf s, FInf t => if Bool.eqb s t then FInf s else FNaN
  | FInf s, _ | _, FInf s => FInf s
  | FZero s, FZero t => FZero (s && t)
  | FZero _, FNum v | FNum v, FZero _ => round fmt v
  | FNum v, FNum w => round fmt (v + w)
  end.

Definition sub (fmt : format) (x y : float) : float := add fmt x (opp y).

Definition mul (fmt : format) (x y : float) : float :=
  match x, y with
  | FNaN, _ | _, FNaN => FNaN
  | FInf _, FZero _ | FZero _, FInf _ => FNaN
  | FInf _, _ | _, FInf _ => FInf (xorb (is_neg x) (is_neg y))
  | FZero _, _ | _, FZero _ => FZero (xorb (is_neg x) (is_neg y))
  | FNum v, FNum w => round fmt (v * w)
  end.

Definition div (fmt : format) (x y : float) : float :=
  match x, y with
  | FNaN, _ | _, FNaN => FNaN
  | FInf _, FInf _ | FZero _, FZero _ => FNaN
  | FInf _, _ | _, FZero _ => FInf (xorb (is_neg x) (is_neg y))
  | FZero _, _ | _, FInf _ => FZero (xorb (is_neg x) (is_neg y))
  | FNum v, FNum w => round fmt (v / w)
  end.

(** The rational a float denotes (zero for the values that denote none). *)
Definition val (x : float) : Q :=
  match x with FNum v => v | _ => 0 end.

(** Go's [x < y] and [x <= y]: false as soon as an operand is a NaN, the
    two zeros equal. *)
Definition flt (x y : float) : bool :=
  match x, y with
  | FNaN, _ | _, FNaN => false
  | FInf s, FInf t => s && negb t
  | FInf s, _ => s
  | _, FInf t => negb t
  | _, _ => negb (Qle_bool (val y) (val x))
  end.

Definition fle (x y : float) : bool :=
  match x, y with
  | FNaN, _ | _, FNaN => false
  | FInf s, FInf t => s || negb t
  | FInf s, _ => s
  | _, FInf t => negb t
  | _, _ => Qle_bool (val x) (val y)
  end.

Definition fgt (x y : float) : bool := flt y x.
Definition fge (x y : float) : bool := fle y x.

(** [float32(n)], [float64(n)] of an integer. *)
Definition of_int (fmt : format) (n : Z) : float := round fmt (inject_Z n).

(** [float32(x)] of a [float64] and [float64(x)] of a [float32]. *)
Definition convert (fmt : format) (x : float) : float :=
  match x with
  | FNum v => round fmt v
  | _ => x
  end.

(** What [int(x)] yields when [x] is a NaN, an infinity or out of the range
    of [int].  Go leaves it to the implementation; this is the value of
    amd64 ([CVTTSS2SQ]). *)
Definition int_indefinite : Z := GoInt.min_int.

(** [int(x)]: truncation toward zero. *)
Definition to_int (x : float) : Z :=
  match x with
  | FZero _ => 0%Z
  | FNum v =>
      let t := Z.quot (Qnum v) (Zpos (Qden v)) in
      if ((GoInt.min_int <=? t) && (t <=? GoInt.max_int))%Z then t
      else int_indefinite
  | _ => int_indefinite
  end.

(** The conversion of a float to an integer type of at most 32 bits, which
    goes through [int32]: truncation toward zero, and the indefinite value
    -2^31 out of range. *)
Definition to_int32 (x : float) : Z :=
  match x with
  | FZero _ => 0%Z
  | FNum v =>
      let t := Z.quot (Qnum v) (Zpos (Qden v)) in
      if ((- 2 ^ 31 <=? t) && (t <? 2 ^ 31))%Z then t
      else (- 2 ^ 31)%Z
  | _ => (- 2 ^ 31)%Z
  end.

(** [math.Floor(x)]. *)
Definition floor (fmt : format) (x : float) : float :=
  match x with
  | FNum v =>
      let f := Qfloor v in
      if (f =? 0)%Z then FZero false else round fmt (inject_Z f)
  | _ => x
  end.

(** The float denoted by a value of the Standard Library's [spec_float],
    to compare [round] and the operations above with [SpecFloat]'s. *)
Definition of_spec (x : spec_float) : float :=
  match x with
  | S754_zero s => FZero s
  | S754_infinity s => FInf s
  | S754_nan => FNaN
  | S754_finite s m e =>
      FNum (Qred (inject_Z (if s then Zneg m else Zpos m) * pow2 e))
  end.

Definition f32 (n : Z) : float := of_int binary32 n.
Definition f64 (n : Z) : float := of_int binary64 n.

(** *** Order of the values

    The rational key of a float orders the values that are not NaN: an
    infinity sits at [2 ^ emax], beyond every finite value of the format. *)
Definition top_of (fmt : format) : Q := pow2 (emax fmt).

Definition key (fmt : format) (x : float) : Q :=
  match x with
  | FNaN => 0
  | FInf s => if s then - top_of fmt else top_of fmt
  | FZero _ => 0
  | FNum v => v
  end.

(** A value of the format: no NaN, and a number within its range. *)
Definition wf (fmt : format) (x : float) : Prop :=
  match x with
  | FNaN => False
  | FNum v => - top_of fmt < v /\ v < top_of fmt
  | _ => True
  end.

Definition clamp (fmt : format) (r : Q) : Q :=
  if Qle_bool (top_of fmt) r then top_of fmt else r.

(** The key of [round fmt q]. *)
Definition rk (fmt : format) (q : Q) : Q :=
  match Qcompare q 0 with
  | Eq => 0
  | Gt => clamp fmt (rpos fmt q)
  | Lt => - clamp fmt (rpos fmt (- q))
  end.

Definition finite (x : float) : bool :=
  match x with FZero _ | FNum _ => true | _ => false end.

(** The [spec_float] nearest to [n * 2 ^ e] in binary32 and in binary64. *)
Definition sf32 (n e : Z) : spec_float := binary_normalize 24 128 n e false.
Definition sf64 (n e : Z) : spec_float := binary_normalize 53 1024 n e false.

End Float.

(** ** GLFW input values and the calls made to collaborators *)

Module Glfw.

(** [glfw.MouseButton]: [MouseButton1] .. [MouseButton8] are 0 .. 7;
    [MouseButtonLeft], [MouseButtonRight] and [MouseButtonMiddle] are other
    names of the first three. *)
Inductive MouseButton : Type :=
| MouseButton1 | MouseButton2 | MouseButton3 | MouseButton4
| MouseButton5 | MouseButton6 | MouseButton7 | MouseButton8.

Definition MouseButtonLeft : MouseButton := MouseButton1.
Definition MouseButtonRight : MouseButton := MouseButton2.
Definition MouseButtonMiddle : MouseButton := MouseButton3.

Definition button_code (b : MouseButton) : Z :=
  match b with
  | MouseButton1 => 0 | MouseButton2 => 1 | MouseButton3 => 2
  | MouseButton4 => 3 | MouseButton5 => 4 | MouseButton6 => 5
  | MouseButton7 => 6 | MouseButton8 => 7
  end.

Definition button_eqb (a b : MouseButton) : bool :=
  button_code a =? button_code b.

Inductive Action : Type := Release | Press | Repeat.

Definition action_eqb (a b : Action) : bool :=
  match a, b with
  | Release, Release | Press, Press | Repeat, Repeat => true
  | _, _ => false
  end.

(** [glfw.ModifierKey] is a bit set. *)
Definition ModShift : Z := 1.
Definition ModControl : Z := 2.
Definition ModAlt : Z := 4.
Definition ModSuper : Z := 8.

End Glfw.

Module Trace.

Inductive Handler : Type := HViewport | HScrollbar.

Inductive SelectionMode : Type :=
| SelectionChar | SelectionWord | SelectionLine.

(** An argument of a call to the logger: an [int], a [float32] or a
    string, given by its bytes. *)
Inductive LogArg : Type :=
| LogInt (n : Z)
| LogFloat (x : Float.float)
| LogText (bytes : list Z).

(** One constructor per call that leaves these files.  [CallMove] and
    [CallButton] record which handler the dispatcher invoked;
    [CreateStandardCursor] is the call to GLFW, for the hand or for the
    arrow; [Debugf] and [Infof] are the calls to the logger. *)
Inductive Effect : Type :=
| ScreenScrollUp (lines : Z)
| ScreenScrollDown (lines : Z)
| ScrollPageUp
| ScrollPageDown
| StartSelection (x y : Z) (mode : SelectionMode)
| ExtendSelection (x y : Z) (complete : bool)
| ClearSelection
| SetClipboardString (text : string)
| LaunchTarget (url : string)
| Paste (text : string)
| Write (data : list Z)
| SetOverlay (shown : bool)
| SetCursor (hand : bool)
| CreateStandardCursor (hand : bool)
| Debugf (format : string) (args : list LogArg)
| Infof (format : string) (args : list LogArg)
| CallMove (h : Handler)
| CallButton (h : Handler) (button : Glfw.MouseButton) (action : Glfw.Action).

Inductive Outcome : Type :=
| Returned
| Panicked (message : string).

(** The payloads of the [terminal.Write] calls of a trace, in order. *)
Fixpoint writes (t : list Effect) : list (list Z) :=
  match t with
  | [] => []
  | Write d :: t' => d :: writes t'
  | _ :: t' => writes t'
  end.

End Trace.

(** ** [gui/scrollbar.go] *)

Module Scrollbar.

Import Float Trace.

Inductive scrollbarPart : Type :=
| UpperArrow | UpperSpace | Thumb | BottomSpace | BottomArrow.

Record ScreenRectangle : Type := {
  left : float; top : float; right : float; bottom : float
}.

Definition width (sr : ScreenRectangle) : float :=
  sub binary32 (right sr) (left sr).

Definition height (sr : ScreenRectangle) : float :=
  sub binary32 (bottom sr) (top sr).

Definition isInside (sr : ScreenRectangle) (x y : float) : bool :=
  fge x (left sr) && flt x (right sr) && fge y (top sr) && flt y (bottom sr).

(** The fields of [scrollbar] that are not OpenGL handles. *)
Record scrollbar : Type := {
  position : ScreenRectangle;
  positionUpperArrow : ScreenRectangle;
  positionBottomArrow : ScreenRectangle;
  positionThumb : ScreenRectangle;
  scrollPosition : Z;
  maxScrollPosition : Z;
  thumbIsDragging : bool;
  startedDraggingAtPosition : Z;
  startedDraggingAtThumbTop : float;
  offsetInThumbY : float;
  scrollPositionDelta : Z
}.

Definition fzero : float := FZero false.

(** The top of the thumb that [recalcElementPositions] computes. *)
Definition thumbTopOf (pos : ScreenRectangle) (scrollPos maxPos : Z) : float :=
  let arrowHeight := width pos in
  let thumbHeight := width pos in
  if maxPos =? 0 then arrowHeight
  else
    add binary32 arrowHeight
      (div binary32
         (mul binary32 (f32 scrollPos)
            (sub binary32 (sub binary32 (height pos) thumbHeight)
               (mul binary32 arrowHeight (f32 2))))
         (f32 maxPos)).

Definition recalcElementPositions (sb : scrollbar) : scrollbar :=
  let arrowHeight := width (position sb) in
  let upper := {| left := fzero; top := fzero;
                  right := width (position sb); bottom := arrowHeight |} in
  let lower := {| left := left upper;
                  top := sub binary32 (height (position sb)) arrowHeight;
                  right := right upper;
                  bottom := height (position sb) |} in
  let thumbHeight := width (position sb) in
  let thumbTop :=
    thumbTopOf (position sb) (scrollPosition sb) (maxScrollPosition sb) in
  let thumb := {| left := fzero; top := thumbTop;
                  right := width (position sb);
                  bottom := add binary32 thumbTop thumbHeight |} in
  {| position := position sb;
     positionUpperArrow := upper;
     positionBottomArrow := lower;
     positionThumb := thumb;
     scrollPosition := scrollPosition sb;
     maxScrollPosition := maxScrollPosition sb;
     thumbIsDragging := thumbIsDragging sb;
     startedDraggingAtPosition := startedDraggingAtPosition sb;
     startedDraggingAtThumbTop := startedDraggingAtThumbTop sb;
     offsetInThumbY := offsetInThumbY sb;
     scrollPositionDelta := scrollPositionDelta sb |}.

Definition zeroRectangle : ScreenRectangle :=
  {| left := fzero; top := fzero; right := fzero; bottom := fzero |}.

(** The scrollbar that [newScrollbar] builds once the program is created:
    every rectangle empty, position 0 of 0, no drag. *)
Definition createdScrollbar : scrollbar :=
  recalcElementPositions
    {| position := zeroRectangle;
       positionUpperArrow := zeroRectangle;
       positionBottomArrow := zeroRectangle;
       positionThumb := zeroRectangle;
       scrollPosition := 0;
       maxScrollPosition := 0;
       thumbIsDragging := false;
       startedDraggingAtPosition := 0;
       startedDraggingAtThumbTop := fzero;
       offsetInThumbY := fzero;
       scrollPositionDelta := 0 |}.

(** [newScrollbar]: [program] is what [createScrollbarProgram] returns, the
    name of the program or an error, which is returned with no scrollbar. *)
Definition newScrollbar (program : Z + string) : scrollbar + string :=
  match program with
  | inl _ => inl createdScrollbar
  | inr err => inr err
  end.

Definition set_position (sb : scrollbar) (r : ScreenRectangle) : scrollbar :=
  {| position := r;
     positionUpperArrow := positionUpperArrow sb;
     positionBottomArrow := positionBottomArrow sb;
     positionThumb := positionThumb sb;
     scrollPosition := scrollPosition sb;
     maxScrollPosition := maxScrollPosition sb;
     thumbIsDragging := thumbIsDragging sb;
     startedDraggingAtPosition := startedDraggingAtPosition sb;
     startedDraggingAtThumbTop := startedDraggingAtThumbTop sb;
     offsetInThumbY := offsetInThumbY sb;
     scrollPositionDelta := scrollPositionDelta sb |}.

Definition getDefaultScrollbarWidth : Z := 20.

(** [resize]: [guiWidth], [guiHeight] and [dpiScale] are the fields of [GUI]
    it reads. *)
Definition resize (sb : scrollbar) (guiWidth guiHeight : Z) (dpiScale : float)
  : scrollbar :=
  recalcElementPositions
    (set_position sb
       {| left := sub binary32 (f32 guiWidth)
                    (mul binary32 (f32 getDefaultScrollbarWidth) dpiScale);
          top := f32 1;
          right := f32 guiWidth;
          bottom := f32 (GoInt.sub guiHeight 1) |}).

Definition set_scroll (sb : scrollbar) (max pos : Z) : scrollbar :=
  {| position := position sb;
     positionUpperArrow := positionUpperArrow sb;
     positionBottomArrow := positionBottomArrow sb;
     positionThumb := positionThumb sb;
     scrollPosition := pos;
     maxScrollPosition := max;
     thumbIsDragging := thumbIsDragging sb;
     startedDraggingAtPosition := startedDraggingAtPosition sb;
     startedDraggingAtThumbTop := startedDraggingAtThumbTop sb;
     offsetInThumbY := offsetInThumbY sb;
     scrollPositionDelta := scrollPositionDelta sb |}.

Definition setPosition (sb : scrollbar) (max position : Z) : scrollbar :=
  let max := if max <=? 0 then position else max in
  let position := if position >? max then max else position in
  recalcElementPositions (set_scroll sb max position).

(** The point in the coordinates of the control, as [mouseHitTest] converts
    it: the subtraction is done in [float64], the result narrowed. *)
Definition localX (sb : scrollbar) (px : float) : float :=
  convert binary32 (sub binary64 px (convert binary64 (left (position sb)))).

Definition localY (sb : scrollbar) (py : float) : float :=
  convert binary32 (sub binary64 py (convert binary64 (top (position sb)))).

(** The two rectangles [mouseHitTest] builds between the arrows and the
    thumb. *)
Definition upperSpaceOf (sb : scrollbar) : ScreenRectangle :=
  {| left := left (positionThumb sb);
     top := bottom (positionUpperArrow sb);
     right := right (positionThumb sb);
     bottom := top (positionThumb sb) |}.

Definition bottomSpaceOf (sb : scrollbar) : ScreenRectangle :=
  {| left := left (positionThumb sb);
     top := bottom (positionThumb sb);
     right := right (positionThumb sb);
     bottom := top (positionBottomArrow sb) |}.

Definition mouseHitTest (sb : scrollbar) (px py : float) : scrollbarPart :=
  let mouseX := localX sb px in
  let mouseY := localY sb py in
  let result := Thumb in
  if isInside (positionUpperArrow sb) mouseX mouseY then UpperArrow
  else if isInside (positionBottomArrow sb) mouseX mouseY then BottomArrow
  else
    let result :=
      if isInside (upperSpaceOf sb) mouseX mouseY then UpperSpace else result in
    let result :=
      if isInside (bottomSpaceOf sb) mouseX mouseY then BottomSpace else result in
    result.

Definition isMouseInside (sb : scrollbar) (px py : float) : bool :=
  isInside (position sb) (convert binary32 px) (convert binary32 py).

Definition set_drag (sb : scrollbar) (dragging : bool) (atPos : Z)
  (atThumbTop offset : float) (delta : Z) : scrollbar :=
  {| position := position sb;
     positionUpperArrow := positionUpperArrow sb;
     positionBottomArrow := positionBottomArrow sb;
     positionThumb := positionThumb sb;
     scrollPosition := scrollPosition sb;
     maxScrollPosition := maxScrollPosition sb;
     thumbIsDragging := dragging;
     startedDraggingAtPosition := atPos;
     startedDraggingAtThumbTop := atThumbTop;
     offsetInThumbY := offset;
     scrollPositionDelta := delta |}.

Definition set_dragging (sb : scrollbar) (dragging : bool) : scrollbar :=
  set_drag sb dragging (startedDraggingAtPosition sb)
    (startedDraggingAtThumbTop sb) (offsetInThumbY sb) (scrollPositionDelta sb).

Definition set_delta (sb : scrollbar) (delta : Z) : scrollbar :=
  set_drag sb (thumbIsDragging sb) (startedDraggingAtPosition sb)
    (startedDraggingAtThumbTop sb) (offsetInThumbY sb) delta.

(** [mouseButtonCallback] of the scrollbar: the new state and the calls made
    to the terminal. *)
Definition mouseButtonCallback (sb : scrollbar) (button : Glfw.MouseButton)
  (action : Glfw.Action) (mod_ : Z) (mouseX mouseY : float)
  : scrollbar * list Effect :=
  if Glfw.button_eqb button Glfw.MouseButtonLeft then
    match action with
    | Glfw.Press =>
        match mouseHitTest sb mouseX mouseY with
        | UpperArrow => (sb, [ScreenScrollUp 1])
        | UpperSpace => (sb, [ScrollPageUp])
        | Thumb =>
            (set_drag sb true (scrollPosition sb) (top (positionThumb sb))
               (sub binary32
                  (sub binary32 (convert binary32 mouseY) (top (position sb)))
                  (top (positionThumb sb)))
               0,
             [])
        | BottomSpace => (sb, [ScrollPageDown])
        | BottomArrow => (sb, [ScreenScrollDown 1])
        end
    | Glfw.Release =>
        if thumbIsDragging sb then (set_dragging sb false, []) else (sb, [])
    | Glfw.Repeat => (sb, [])
    end
  else (sb, []).

(** The bounds of the thumb top and the thumb top under the pointer, as
    [mouseMoveCallback] computes them. *)
Definition minThumbTop (sb : scrollbar) : float :=
  bottom (positionUpperArrow sb).

Definition maxThumbTop (sb : scrollbar) : float :=
  sub binary32 (top (positionBottomArrow sb)) (height (positionThumb sb)).

Definition newThumbTop (sb : scrollbar) (py : float) : float :=
  sub binary32 (localY sb py) (offsetInThumbY sb).

Definition newPositionDelta (sb : scrollbar) (py : float) : Z :=
  to_int
    (div binary32
       (mul binary32 (f32 (maxScrollPosition sb))
          (sub binary32 (sub binary32 (newThumbTop sb py) (minThumbTop sb))
             (startedDraggingAtThumbTop sb)))
       (sub binary32 (maxThumbTop sb) (minThumbTop sb))).

(** [mouseMoveCallback] of the scrollbar: the new state and the calls made
    to the logger and to the terminal. *)
Definition mouseMoveCallback (sb : scrollbar) (px py : float)
  : scrollbar * list Effect :=
  if thumbIsDragging sb then
    let delta := newPositionDelta sb py in
    let '(sb1, t) :=
      if delta >? scrollPositionDelta sb then
        let scrollLines := GoInt.sub delta (scrollPositionDelta sb) in
        (set_delta sb delta,
         [Debugf
            "old position: %d, new position delta: %d, scroll down %d lines"
            [LogInt (scrollPosition sb); LogInt delta; LogInt scrollLines];
          ScreenScrollDown (GoInt.uint16 scrollLines)])
      else if delta <? scrollPositionDelta sb then
        let scrollLines := GoInt.sub (scrollPositionDelta sb) delta in
        (set_delta sb delta,
         [Debugf
            "old position: %d, new position delta: %d, scroll up %d lines"
            [LogInt (scrollPosition sb); LogInt delta; LogInt scrollLines];
          ScreenScrollUp (GoInt.uint16 scrollLines)])
      else (sb, []) in
    let sb2 := recalcElementPositions sb1 in
    (sb2,
     t ++ [Debugf "new thumbTop: %f, fact thumbTop: %f, position: %d"
             [LogFloat (newThumbTop sb py);
              LogFloat (top (positionThumb sb2));
              LogInt (scrollPosition sb2)]])
  else (sb, []).

(** What [recalcElementPositions] leaves for the thumb to travel: the
    height less the thumb and the two arrows. *)
Definition usableTrack (pos : ScreenRectangle) : float :=
  sub binary32 (sub binary32 (height pos) (width pos))
    (mul binary32 (width pos) (f32 2)).

(** That length is a finite number and [0 <= usableTrack pos] holds. *)
Definition roomForThumb (pos : ScreenRectangle) : bool :=
  finite (usableTrack pos) && fle fzero (usableTrack pos).

End Scrollbar.

(** ** Text formatting: [fmt.Sprintf] with the verb [%c] *)

Module Utf8.

Definition RuneError : Z := 65533.
Definition MaxRune : Z := 1114111.

(** [utf8.AppendRune]: the UTF-8 encoding of a rune; a surrogate or a value
    out of range is encoded as [RuneError]. *)
Definition encodeRune (r : Z) : list Z :=
  if (0 <=? r) && (r <=? 127) then [r]
  else if (0 <=? r) && (r <=? 2047) then
    [Z.lor 192 (Z.shiftr r 6); Z.lor 128 (Z.land r 63)]
  else if (r <? 0) || (MaxRune <? r) || ((55296 <=? r) && (r <=? 57343)) then
    [239; 191; 189]
  else if r <=? 65535 then
    [Z.lor 224 (Z.shiftr r 12);
     Z.lor 128 (Z.land (Z.shiftr r 6) 63);
     Z.lor 128 (Z.land r 63)]
  else
    [Z.lor 240 (Z.shiftr r 18);
     Z.lor 128 (Z.land (Z.shiftr r 12) 63);
     Z.lor 128 (Z.land (Z.shiftr r 6) 63);
     Z.lor 128 (Z.land r 63)].

(** [[]byte(fmt.Sprintf("\x1b[M%c%c%c", b, x, y))]. *)
Definition mousePacket (b x y : Z) : list Z :=
  [27; 91; 77] ++ encodeRune b ++ encodeRune x ++ encodeRune y.

End Utf8.

(** ** [gui/mouse.go] *)

Module Mouse.

Import Float Trace.

(** [terminal.MouseMode]; [MouseModeOther] stands for a value that is none
    of the named ones. *)
Inductive MouseMode : Type :=
| MouseModeNone
| MouseModeX10
| MouseModeVT200
| MouseModeVT200Highlight
| MouseModeButtonEvent
| MouseModeAnyEvent
| MouseModeOther (code : Z).

(** What the collaborators answer during one callback: the terminal, its
    active buffer, the window, the configuration, the renderer and the
    clock.  Times are in nanoseconds since the zero [time.Time]; [timeSince]
    is the clock read by [time.Since], [timeStored] the clock read by the
    deferred assignment.  The area of the renderer is in [int]s, the size of
    a cell and the scale in [float32]. *)
Record Env : Type := {
  getMouseMode : MouseMode;
  copyAndPasteWithMouse : bool;
  getSelectedText : string;
  getURLAtPosition : Z -> Z -> string;
  getHintAtPosition : Z -> Z -> bool;
  getClipboardString : option string;
  getCursorPos : float * float;
  timeSince : Z;
  timeStored : Z;
  scale : float;
  areaX : Z;
  areaY : Z;
  areaWidth : Z;
  areaHeight : Z;
  cellWidth : float;
  cellHeight : float
}.

(** The fields of [GUI] that the functions of [mouse.go] read or write. *)
Record GUI : Type := {
  overlay : bool;
  mouseDown : bool;
  leftClickCount : Z;
  prevLeftClickX : Z;
  prevLeftClickY : Z;
  leftClickTime : Z;
  mouseMovedAfterSelectionStarted : bool;
  catchedMouseHandler : option Handler;
  mouseCatchedOnButton : Glfw.MouseButton;
  vScrollbar : option Scrollbar.scrollbar;
  handCursor : bool;
  arrowCursor : bool
}.

Definition set_overlay (g : GUI) (b : bool) : GUI :=
  {| overlay := b; mouseDown := mouseDown g;
     leftClickCount := leftClickCount g;
     prevLeftClickX := prevLeftClickX g; prevLeftClickY := prevLeftClickY g;
     leftClickTime := leftClickTime g;
     mouseMovedAfterSelectionStarted := mouseMovedAfterSelectionStarted g;
     catchedMouseHandler := catchedMouseHandler g;
     mouseCatchedOnButton := mouseCatchedOnButton g;
     vScrollbar := vScrollbar g;
     handCursor := handCursor g; arrowCursor := arrowCursor g |}.

Definition set_mouseDown (g : GUI) (b : bool) : GUI :=
  {| overlay := overlay g; mouseDown := b;
     leftClickCount := leftClickCount g;
     prevLeftClickX := prevLeftClickX g; prevLeftClickY := prevLeftClickY g;
     leftClickTime := leftClickTime g;
     mouseMovedAfterSelectionStarted := mouseMovedAfterSelectionStarted g;
     catchedMouseHandler := catchedMouseHandler g;
     mouseCatchedOnButton := mouseCatchedOnButton g;
     vScrollbar := vScrollbar g;
     handCursor := handCursor g; arrowCursor := arrowCursor g |}.

Definition set_click (g : GUI) (count x y time : Z) : GUI :=
  {| overlay := overlay g; mouseDown := mouseDown g;
     leftClickCount := count;
     prevLeftClickX := x; prevLeftClickY := y;
     leftClickTime := time;
     mouseMovedAfterSelectionStarted := mouseMovedAfterSelectionStarted g;
     catchedMouseHandler := catchedMouseHandler g;
     mouseCatchedOnButton := mouseCatchedOnButton g;
     vScrollbar := vScrollbar g;
     handCursor := handCursor g; arrowCursor := arrowCursor g |}.

Definition set_moved (g : GUI) (b : bool) : GUI :=
  {| overlay := overlay g; mouseDown := mouseDown g;
     leftClickCount := leftClickCount g;
     prevLeftClickX := prevLeftClickX g; prevLeftClickY := prevLeftClickY g;
     leftClickTime := leftClickTime g;
     mouseMovedAfterSelectionStarted := b;
     catchedMouseHandler := catchedMouseHandler g;
     mouseCatchedOnButton := mouseCatchedOnButton g;
     vScrollbar := vScrollbar g;
     handCursor := handCursor g; arrowCursor := arrowCursor g |}.

(** [catchMouse]. *)
Definition catchMouse (g : GUI) (newHandler : option Handler)
  (button : Glfw.MouseButton) : GUI :=
  {| overlay := overlay g; mouseDown := mouseDown g;
     leftClickCount := leftClickCount g;
     prevLeftClickX := prevLeftClickX g; prevLeftClickY := prevLeftClickY g;
     leftClickTime := leftClickTime g;
     mouseMovedAfterSelectionStarted := mouseMovedAfterSelectionStarted g;
     catchedMouseHandler := newHandler;
     mouseCatchedOnButton := button;
     vScrollbar := vScrollbar g;
     handCursor := handCursor g; arrowCursor := arrowCursor g |}.

Definition set_vScrollbar (g : GUI) (sb : Scrollbar.scrollbar) : GUI :=
  {| overlay := overlay g; mouseDown := mouseDown g;
     leftClickCount := leftClickCount g;
     prevLeftClickX := prevLeftClickX g; prevLeftClickY := prevLeftClickY g;
     leftClickTime := leftClickTime g;
     mouseMovedAfterSelectionStarted := mouseMovedAfterSelectionStarted g;
     catchedMouseHandler := catchedMouseHandler g;
     mouseCatchedOnButton := mouseCatchedOnButton g;
     vScrollbar := Some sb;
     handCursor := handCursor g; arrowCursor := arrowCursor g |}.

Definition set_handCursor (g : GUI) (b : bool) : GUI :=
  {| overlay := overlay g; mouseDown := mouseDown g;
     leftClickCount := leftClickCount g;
     prevLeftClickX := prevLeftClickX g; prevLeftClickY := prevLeftClickY g;
     leftClickTime := leftClickTime g;
     mouseMovedAfterSelectionStarted := mouseMovedAfterSelectionStarted g;
     catchedMouseHandler := catchedMouseHandler g;
     mouseCatchedOnButton := mouseCatchedOnButton g;
     vScrollbar := vScrollbar g;
     handCursor := b; arrowCursor := arrowCursor g |}.

Definition set_arrowCursor (g : GUI) (b : bool) : GUI :=
  {| overlay := overlay g; mouseDown := mouseDown g;
     leftClickCount := leftClickCount g;
     prevLeftClickX := prevLeftClickX g; prevLeftClickY := prevLeftClickY g;
     leftClickTime := leftClickTime g;
     mouseMovedAfterSelectionStarted := mouseMovedAfterSelectionStarted g;
     catchedMouseHandler := catchedMouseHandler g;
     mouseCatchedOnButton := mouseCatchedOnButton g;
     vScrollbar := vScrollbar g;
     handCursor := handCursor g; arrowCursor := b |}.

(** [getHandCursor] and [getArrowCursor]: the cursor is created the first
    time it is asked for and kept in the [GUI]. *)
Definition getHandCursor (g : GUI) : GUI * list Effect :=
  if handCursor g then (g, [])
  else (set_handCursor g true, [CreateStandardCursor true]).

Definition getArrowCursor (g : GUI) : GUI * list Effect :=
  if arrowCursor g then (g, [])
  else (set_arrowCursor g true, [CreateStandardCursor false]).

(** [scaleMouseCoordinates]. *)
Definition scaleMouseCoordinates (env : Env) (px py : float) : float * float :=
  let scale := convert binary64 (scale env) in
  (div binary64 px scale, div binary64 py scale).

(** [isMouseInside] of the viewport. *)
Definition isMouseInside (env : Env) (px py : float) : bool :=
  fge px (f64 (areaX env))
  && flt px (f64 (GoInt.add (areaX env) (areaWidth env)))
  && fge py (f64 (areaY env))
  && flt py (f64 (GoInt.add (areaY env) (areaHeight env))).

(** [convertMouseCoordinates]: the cell under a pixel.  [uint16] of a float
    goes through [int32]. *)
Definition convertMouseCoordinates (env : Env) (px py : float) : Z * Z :=
  (GoInt.uint16
     (to_int32 (floor binary64
        (div binary64 (sub binary64 px (f64 (areaX env)))
           (convert binary64 (cellWidth env))))),
   GoInt.uint16
     (to_int32 (floor binary64
        (div binary64 (sub binary64 py (f64 (areaY env)))
           (convert binary64 (cellHeight env)))))).

(** [time.Since(t)] read at [now]: the difference, saturated to the range
    of [time.Duration]. *)
Definition since (now t : Z) : Z :=
  Z.max GoInt.min_int (Z.min GoInt.max_int (now - t)).

Definition halfSecond : Z := 500 * 1000000.

(** [updateLeftClickCount]: the count returned and the new state.  The
    clock is read twice, by [time.Since] and by the deferred assignment. *)
Definition updateLeftClickCount (g : GUI) (env : Env) (x y : Z) : Z * GUI :=
  let count :=
    if (prevLeftClickX g =? x) && (prevLeftClickY g =? y)
       && (since (timeSince env) (leftClickTime g) <? halfSecond)
    then
      let c := GoInt.add (leftClickCount g) 1 in
      if c >? 3 then 3 else c
    else 1 in
  (count, set_click g count x y (timeStored env)).

(** [mouseMoveCallback] of the viewport. *)
Definition mouseMoveCallback (g : GUI) (env : Env) (px py : float)
  : GUI * list Effect :=
  let '(x, y) := convertMouseCoordinates env px py in
  let '(g1, t1) :=
    if mouseDown g then (g, [ExtendSelection x y false])
    else
      let hint := getHintAtPosition env x y in
      (set_overlay g hint, [SetOverlay hint]) in
  let hand := negb (String.eqb (getURLAtPosition env x y) EmptyString) in
  let '(g2, t2) := if hand then getHandCursor g1 else getArrowCursor g1 in
  (g2, t1 ++ t2 ++ [SetCursor hand]).

(** The first part of [mouseButtonCallback]: clicks handled locally, at
    the cell [(x, y)]. *)
Definition handleLocally (g : GUI) (env : Env) (button : Glfw.MouseButton)
  (action : Glfw.Action) (x y : Z) : GUI * list Effect :=
  match button with
  | Glfw.MouseButton1 =>
      match action with
      | Glfw.Press =>
          let g1 := set_mouseDown g true in
          let '(clickCount, g2) := updateLeftClickCount g1 env x y in
          let t :=
            if clickCount =? 1 then [StartSelection x y SelectionChar]
            else if clickCount =? 2 then [StartSelection x y SelectionWord]
            else if clickCount =? 3 then [StartSelection x y SelectionLine]
            else [] in
          (set_moved g2 false, t)
      | Glfw.Release =>
          let g1 := set_mouseDown g false in
          let g2 :=
            if negb (x =? prevLeftClickX g1) || negb (y =? prevLeftClickY g1)
            then set_moved g1 true else g1 in
          let t1 :=
            if negb (leftClickCount g2 =? 1)
               || mouseMovedAfterSelectionStarted g2
            then [ExtendSelection x y true] else [] in
          let copied :=
            copyAndPasteWithMouse env
            && negb (String.eqb (getSelectedText env) EmptyString) in
          let t2 :=
            if copied then [SetClipboardString (getSelectedText env)]
            else if negb (String.eqb (getURLAtPosition env x y) EmptyString)
            then [LaunchTarget (getURLAtPosition env x y)]
            else [] in
          (g2, t1 ++ t2)
      | Glfw.Repeat => (g, [])
      end
  | Glfw.MouseButton2 =>
      match action with
      | Glfw.Press =>
          if copyAndPasteWithMouse env then
            match getClipboardString env with
            | Some str => (g, [ClearSelection; Paste str])
            | None => (g, [])
            end
          else (g, [])
      | _ => (g, [])
      end
  | _ => (g, [])
  end.

(** The modifier bits of the normal tracking mode. *)
Definition modifierBits (mod_ : Z) : Z :=
  (if Z.land mod_ Glfw.ModShift >? 0 then 4 else 0)
  + (if Z.land mod_ Glfw.ModSuper >? 0 then 8 else 0)
  + (if Z.land mod_ Glfw.ModControl >? 0 then 16 else 0).

(** The byte [b] of the normal tracking mode after the three [b |= ...]. *)
Definition withModifiers (b mod_ : Z) : Z :=
  let b := if Z.land mod_ Glfw.ModShift >? 0 then Z.lor b 4 else b in
  let b := if Z.land mod_ Glfw.ModSuper >? 0 then Z.lor b 8 else b in
  let b := if Z.land mod_ Glfw.ModControl >? 0 then Z.lor b 16 else b in
  b.

(** The second part of [mouseButtonCallback]: the report sent to the program
    in the terminal, for the one-indexed cell [(tx, ty)]. *)
Definition reportMouse (env : Env) (button : Glfw.MouseButton)
  (action : Glfw.Action) (mod_ : Z) (tx ty : Z) : list Effect * Outcome :=
  match getMouseMode env with
  | MouseModeNone => ([], Returned)
  | MouseModeX10 =>
      match action with
      | Glfw.Press =>
          let b := GoInt.wrap32 (Glfw.button_code button) in
          ([Write (Utf8.mousePacket (GoInt.wrap32 (b + 32))
                     (GoInt.wrap32 (tx + 32)) (GoInt.wrap32 (ty + 32)))],
           Returned)
      | _ => ([], Returned)
      end
  | MouseModeVT200 =>
      let send (b : Z) :=
        let packet :=
          Utf8.mousePacket (GoInt.uint8 (withModifiers b mod_ + 32))
            (GoInt.wrap32 (tx + 32)) (GoInt.wrap32 (ty + 32)) in
        ([Infof "Sending mouse packet: '%v'" [LogText packet]; Write packet],
         Returned) in
      match action with
      | Glfw.Press =>
          match button with
          | Glfw.MouseButton1 => send 0
          | Glfw.MouseButton2 => send 1
          | Glfw.MouseButton3 => send 2
          | _ => ([], Returned)
          end
      | Glfw.Release => send 3
      | Glfw.Repeat => ([], Returned)
      end
  | MouseModeVT200Highlight =>
      ([], Panicked "VT200 mouse highlight mode not supported")
  | MouseModeButtonEvent =>
      ([], Panicked "Mouse button event mode not supported")
  | MouseModeAnyEvent =>
      ([], Panicked "Mouse any event mode not supported")
  | MouseModeOther _ => ([], Panicked "Unsupported mouse mode")
  end.

(** [mouseButtonCallback] of the viewport. *)
Definition mouseButtonCallback (g : GUI) (env : Env)
  (button : Glfw.MouseButton) (action : Glfw.Action) (mod_ : Z)
  (mouseX mouseY : float) : GUI * list Effect * Outcome :=
  if overlay g then
    if Glfw.button_eqb button Glfw.MouseButtonRight
       && Glfw.action_eqb action Glfw.Release
    then (set_overlay g false, [SetOverlay false], Returned)
    else (g, [], Returned)
  else
    let '(x, y) := convertMouseCoordinates env mouseX mouseY in
    let tx := GoInt.add x 1 in
    let ty := GoInt.add y 1 in
    let '(g1, t1) := handleLocally g env button action x y in
    let '(t2, out) := reportMouse env button action mod_ tx ty in
    (g1, t1 ++ t2, out).

(** A call of [handler.mouseMoveCallback] and of
    [handler.mouseButtonCallback] through the interface [mouseEventsHandler].
    The scrollbar handler is [gui.vScrollbar]. *)
Definition nilDereference : Outcome :=
  Panicked "invalid memory address or nil pointer dereference".

Definition callMove (g : GUI) (env : Env) (h : Handler) (px py : float)
  : GUI * list Effect * Outcome :=
  match h with
  | HViewport =>
      let '(g1, t) := mouseMoveCallback g env px py in
      (g1, CallMove HViewport :: t, Returned)
  | HScrollbar =>
      match vScrollbar g with
      | Some sb =>
          let '(sb1, t) := Scrollbar.mouseMoveCallback sb px py in
          (set_vScrollbar g sb1, CallMove HScrollbar :: t, Returned)
      | None => (g, [CallMove HScrollbar], nilDereference)
      end
  end.

Definition callButton (g : GUI) (env : Env) (h : Handler)
  (button : Glfw.MouseButton) (action : Glfw.Action) (mod_ : Z)
  (mouseX mouseY : float) : GUI * list Effect * Outcome :=
  match h with
  | HViewport =>
      let '(g1, t, out) :=
        mouseButtonCallback g env button action mod_ mouseX mouseY in
      (g1, CallButton HViewport button action :: t, out)
  | HScrollbar =>
      match vScrollbar g with
      | Some sb =>
          let '(sb1, t) :=
            Scrollbar.mouseButtonCallback sb button action mod_ mouseX mouseY in
          (set_vScrollbar g sb1, CallButton HScrollbar button action :: t,
           Returned)
      | None => (g, [CallButton HScrollbar button action], nilDereference)
      end
  end.

Definition scrollbarIsInside (g : GUI) (px py : float) : bool :=
  match vScrollbar g with
  | Some sb => Scrollbar.isMouseInside sb px py
  | None => false
  end.

(** [globalMouseMoveCallback]. *)
Definition globalMouseMoveCallback (g : GUI) (env : Env) (px py : float)
  : GUI * list Effect * Outcome :=
  let '(px, py) := scaleMouseCoordinates env px py in
  match catchedMouseHandler g with
  | Some h => callMove g env h px py
  | None =>
      if isMouseInside env px py then callMove g env HViewport px py
      else if scrollbarIsInside g px py then callMove g env HScrollbar px py
      else (g, [], Returned)
  end.

(** [globalMouseButtonCallback].  A panic of the handler leaves before the
    capture is released. *)
Definition globalMouseButtonCallback (g : GUI) (env : Env)
  (button : Glfw.MouseButton) (action : Glfw.Action) (mod_ : Z)
  : GUI * list Effect * Outcome :=
  let '(mouseX, mouseY) :=
    scaleMouseCoordinates env (fst (getCursorPos env)) (snd (getCursorPos env)) in
  match catchedMouseHandler g with
  | Some h =>
      let '(g1, t, out) := callButton g env h button action mod_ mouseX mouseY in
      match out with
      | Panicked _ => (g1, t, out)
      | Returned =>
          if Glfw.action_eqb action Glfw.Release
             && Glfw.button_eqb button (mouseCatchedOnButton g1)
          then (catchMouse g1 None Glfw.MouseButton1, t, Returned)
          else (g1, t, Returned)
      end
  | None =>
      if isMouseInside env mouseX mouseY then
        let g1 :=
          if Glfw.action_eqb action Glfw.Press
          then catchMouse g (Some HViewport) button else g in
        callButton g1 env HViewport button action mod_ mouseX mouseY
      else if scrollbarIsInside g mouseX mouseY then
        let g1 :=
          if Glfw.action_eqb action Glfw.Press
          then catchMouse g (Some HScrollbar) button else g in
        callButton g1 env HScrollbar button action mod_ mouseX mouseY
      else (g, [], Returned)
  end.

(** The events the window delivers, each with what the collaborators answer
    while it is handled. *)
Inductive Event : Type :=
| EvMove (px py : float)
| EvButton (button : Glfw.MouseButton) (action : Glfw.Action) (mod_ : Z).

Definition dispatch (g : GUI) (ev : Env * Event) : GUI * list Effect * Outcome :=
  match snd ev with
  | EvMove px py => globalMouseMoveCallback g (fst ev) px py
  | EvButton button action mod_ =>
      globalMouseButtonCallback g (fst ev) button action mod_
  end.

(** Events handled one after the other, up to the first panic. *)
Fixpoint run (g : GUI) (evs : list (Env * Event))
  : GUI * list Effect * Outcome :=
  match evs with
  | [] => (g, [], Returned)
  | ev :: rest =>
      let '(g1, t1, out) := dispatch g ev in
      match out with
      | Panicked _ => (g1, t1, out)
      | Returned =>
          let '(g2, t2, out2) := run g1 rest in
          (g2, t1 ++ t2, out2)
      end
  end.

(** The counts returned for a sequence of left presses, each with its cell
    and the clock readings during it. *)
Fixpoint clickCounts (g : GUI) (presses : list (Env * (Z * Z))) : list Z :=
  match presses with
  | [] => []
  | (env, (x, y)) :: rest =>
      let '(count, g1) := updateLeftClickCount g env x y in
      count :: clickCounts g1 rest
  end.

(** Observations on a trace and on a sequence of events. *)
Definition handler_eqb (a b : Handler) : bool :=
  match a, b with
  | HViewport, HViewport | HScrollbar, HScrollbar => true
  | _, _ => false
  end.

Definition isCallOf (h : Handler) (e : Effect) : bool :=
  match e with
  | CallMove h' | CallButton h' _ _ => handler_eqb h h'
  | _ => false
  end.


Definition isMove (ev : Env * Event) : bool :=
  match snd ev with
  | EvMove _ _ => true
  | EvButton _ _ _ => false
  end.

Definition isReleaseOf (button : Glfw.MouseButton) (ev : Env * Event) : bool :=
  match snd ev with
  | EvMove _ _ => false
  | EvButton b action _ =>
      Glfw.action_eqb action Glfw.Release && Glfw.button_eqb b button
  end.

(** The button stays held during [evs]: none of them is its release. *)
Definition heldThrough (button : Glfw.MouseButton) (evs : list (Env * Event))
  : bool :=
  forallb (fun ev => negb (isReleaseOf button ev)) evs.


(** The cursor position a button event is handled at. *)
Definition cursorOf (env : Env) : float * float :=
  scaleMouseCoordinates env (fst (getCursorPos env)) (snd (getCursorPos env)).

(** The modes whose report is not implemented. *)
Definition unsupported (m : MouseMode) : bool :=
  match m with
  | MouseModeVT200Highlight | MouseModeButtonEvent | MouseModeAnyEvent
  | MouseModeOther _ => true
  | _ => false
  end.

End Mouse.

(** ** Sample inputs *)

Module Samples.

Import Float Trace Mouse.

(** A window of 800 by 600 pixels with cells of 8 by 16 pixels, an empty
    clipboard, no selection, no link and no hint, at the time [t]. *)
Definition sampleEnvAt (mode : MouseMode) (cursor : float * float) (t : Z)
  : Env :=
  {| getMouseMode := mode;
     copyAndPasteWithMouse := false;
     getSelectedText := EmptyString;
     getURLAtPosition := fun _ _ => EmptyString;
     getHintAtPosition := fun _ _ => false;
     getClipboardString := None;
     getCursorPos := cursor;
     timeSince := t;
     timeStored := t + 1000;
     scale := f32 1;
     areaX := 0;
     areaY := 0;
     areaWidth := 780;
     areaHeight := 600;
     cellWidth := f32 8;
     cellHeight := f32 16 |}.

Definition sampleEnv (mode : MouseMode) (cursor : float * float) : Env :=
  sampleEnvAt mode cursor 1000000000000.

(** Four left presses at the cell (3, 7), 100 ms apart, and a fifth at the
    cell (4, 7). *)
Definition samplePresses : list (Env * (Z * Z)) :=
  [ (sampleEnv MouseModeNone (f64 4, f64 5), (3, 7));
    (sampleEnvAt MouseModeNone (f64 4, f64 5) 1000100000000, (3, 7));
    (sampleEnvAt MouseModeNone (f64 4, f64 5) 1000200000000, (3, 7));
    (sampleEnvAt MouseModeNone (f64 4, f64 5) 1000300000000, (3, 7));
    (sampleEnvAt MouseModeNone (f64 4, f64 5) 1000400000000, (4, 7)) ].

(** The scrollbar of that window after [resize] at a DPI scale of 1: the
    strip from x = 780 to 800 and from y = 1 to 599. *)
Definition sampleScrollbar : Scrollbar.scrollbar :=
  Scrollbar.resize Scrollbar.createdScrollbar 800 600 (f32 1).

(** The [GUI] as it is created: no overlay, no click yet, nothing captured. *)
Definition sampleGUI : GUI :=
  {| overlay := false;
     mouseDown := false;
     leftClickCount := 0;
     prevLeftClickX := 0;
     prevLeftClickY := 0;
     leftClickTime := 0;
     mouseMovedAfterSelectionStarted := false;
     catchedMouseHandler := None;
     mouseCatchedOnButton := Glfw.MouseButton1;
     vScrollbar := Some sampleScrollbar;
     handCursor := false;
     arrowCursor := false |}.


(** The sample scrollbar over a scrollback of a million lines, after a left
    press on its thumb at (790, 26). *)
Definition draggedScrollbar : Scrollbar.scrollbar :=
  fst (Scrollbar.mouseButtonCallback
         (Scrollbar.setPosition sampleScrollbar 1000000 0)
         Glfw.MouseButtonLeft Glfw.Press 0 (f64 790) (f64 26)).

(** The scrollbar of a window 32 pixels high: 30 pixels for two arrows of
    20. *)
Definition shortScrollbar : Scrollbar.scrollbar :=
  Scrollbar.resize Scrollbar.createdScrollbar 800 32 (f32 1).

(** The scrollbar of a window 50 pixels high: 48 pixels for two arrows and
    a thumb of 20 each. *)
Definition lowScrollbar : Scrollbar.scrollbar :=
  Scrollbar.resize Scrollbar.createdScrollbar 800 50 (f32 1).

End Samples.

(** ** Sequences of events on the scrollbar, and the wheel *)

Module ScrollbarRuns.

Import Float Trace Scrollbar.

(** A pointer event as the scrollbar receives it. *)
Inductive SbEvent : Type :=
| SbMove (px py : float)
| SbButton (button : Glfw.MouseButton) (action : Glfw.Action) (mod_ : Z)
    (mouseX mouseY : float).

Definition sbStep (sb : scrollbar) (ev : SbEvent) : scrollbar * list Effect :=
  match ev with
  | SbMove px py => mouseMoveCallback sb px py
  | SbButton button action mod_ mouseX mouseY =>
      mouseButtonCallback sb button action mod_ mouseX mouseY
  end.

(** The callbacks of the scrollbar called for one event after the other. *)
Fixpoint sbRun (sb : scrollbar) (evs : list SbEvent) : scrollbar * list Effect :=
  match evs with
  | [] => (sb, [])
  | ev :: rest =>
      let '(sb1, t1) := sbStep sb ev in
      let '(sb2, t2) := sbRun sb1 rest in
      (sb2, t1 ++ t2)
  end.

(** The lines a trace scrolls down, less the lines it scrolls up. *)
Fixpoint netScroll (t : list Effect) : Z :=
  match t with
  | [] => 0
  | ScreenScrollDown n :: t' => n + netScroll t'
  | ScreenScrollUp n :: t' => netScroll t' - n
  | _ :: t' => netScroll t'
  end.

(** Every move of [evs] asks for fewer than 65536 lines at once. *)
Fixpoint smallSteps (sb : scrollbar) (evs : list SbEvent) : bool :=
  match evs with
  | [] => true
  | ev :: rest =>
      match ev with
      | SbMove _ py =>
          (negb (thumbIsDragging sb)
           || (Z.abs (newPositionDelta sb py - scrollPositionDelta sb) <? 65536))
      | SbButton _ _ _ _ _ => true
      end
      && smallSteps (fst (sbStep sb ev)) rest
  end.

Definition isLeftRelease (ev : SbEvent) : bool :=
  match ev with
  | SbButton button Glfw.Release _ _ _ =>
      Glfw.button_eqb button Glfw.MouseButtonLeft
  | _ => false
  end.

Definition isLeftPress (ev : SbEvent) : bool :=
  match ev with
  | SbButton button Glfw.Press _ _ _ =>
      Glfw.button_eqb button Glfw.MouseButtonLeft
  | _ => false
  end.

Definition isScrollCommand (e : Effect) : bool :=
  match e with
  | ScreenScrollUp _ | ScreenScrollDown _ | ScrollPageUp | ScrollPageDown => true
  | _ => false
  end.


(** [glfwScrollCallback] of [mouse.go]: the mouse wheel. *)
Definition glfwScrollCallback (xoff yoff : float) : list Effect :=
  if fgt yoff (FZero false) then [ScreenScrollUp 1] else [ScreenScrollDown 1].

End ScrollbarRuns.

(** ** Observations on the dispatcher and on the local handling *)

Module DispatchRuns.

Import Float Trace Mouse.

(** The pointer position an event is routed by: the scaled coordinates of a
    move, the scaled cursor position for a button. *)
Definition pointerOf (ev : Env * Event) : float * float :=
  match snd ev with
  | EvMove px py => scaleMouseCoordinates (fst ev) px py
  | EvButton _ _ _ => cursorOf (fst ev)
  end.

Definition isCall (e : Effect) : bool :=
  isCallOf HViewport e || isCallOf HScrollbar e.

Definition isPress (ev : Env * Event) : bool :=
  match snd ev with
  | EvButton _ Glfw.Press _ => true
  | _ => false
  end.

Definition isClipboardCopy (e : Effect) : bool :=
  match e with SetClipboardString _ => true | _ => false end.

Definition isLaunch (e : Effect) : bool :=
  match e with LaunchTarget _ => true | _ => false end.

Definition isPaste (e : Effect) : bool :=
  match e with Paste _ => true | _ => false end.

(** The granularity of the selection a click count starts. *)
Definition selectionOf (clickCount : Z) : SelectionMode :=
  if clickCount =? 1 then SelectionChar
  else if clickCount =? 2 then SelectionWord
  else SelectionLine.

(** The shape of a mouse report: ESC [ M, one byte for the button and the
    modifiers, two characters for the cell. *)
Definition isPacket (d : list Z) : Prop :=
  exists c x y,
    d = [27; 91; 77; c] ++ Utf8.encodeRune x ++ Utf8.encodeRune y
    /\ 32 <= c <= 63 /\ 33 <= x <= 65568 /\ 33 <= y <= 65568.

End DispatchRuns.

(** ** More sample inputs *)

Module MoreSamples.

Import Float Trace Mouse Samples.

(** The sample window with a hint under every cell, a selected text, a link
    under every cell and copy and paste by mouse enabled. *)
Definition busyEnv (mode : MouseMode) (cursor : float * float) : Env :=
  {| getMouseMode := mode;
     copyAndPasteWithMouse := true;
     getSelectedText := "ls -l";
     getURLAtPosition := fun _ _ => "https://example.org"%string;
     getHintAtPosition := fun _ _ => true;
     getClipboardString := Some "pwd"%string;
     getCursorPos := cursor;
     timeSince := 1000000000000;
     timeStored := 1000000001000;
     scale := f32 1;
     areaX := 0;
     areaY := 0;
     areaWidth := 780;
     areaHeight := 600;
     cellWidth := f32 8;
     cellHeight := f32 16 |}.

End MoreSamples.

(** ** Release of the OpenGL objects: [Free] of [scrollbar.go] and [miniMap.go] *)

Module GlObjects.

(** The calls to OpenGL that release an object, with the name released. *)
Inductive GlCall : Type :=
| DeleteProgram (name : Z)
| DeleteBuffers (name : Z)
| DeleteVertexArrays (name : Z).

(** The OpenGL names a scrollbar holds, 0 for none. *)
Record scrollbarObjects : Type := {
  sbProgram : Z; sbVbo : Z; sbVao : Z
}.

(** [Free] of the scrollbar.  The vertex array is released with
    [gl.DeleteBuffers], as the source has it. *)
Definition scrollbarFree (o : scrollbarObjects) : scrollbarObjects * list GlCall :=
  let '(program, t1) :=
    if negb (sbProgram o =? 0) then (0, [DeleteProgram (sbProgram o)])
    else (sbProgram o, []) in
  let '(vbo, t2) :=
    if negb (sbVbo o =? 0) then (0, [DeleteBuffers (sbVbo o)])
    else (sbVbo o, []) in
  let '(vao, t3) :=
    if negb (sbVao o =? 0) then (0, [DeleteBuffers (sbVao o)])
    else (sbVao o, []) in
  ({| sbProgram := program; sbVbo := vbo; sbVao := vao |}, t1 ++ t2 ++ t3).

(** The OpenGL names a minimap holds. *)
Record miniMapObjects : Type := {
  mmProgram : Z; mmVbo : Z; mmVao : Z; mmIbo : Z
}.

(** [Free] of the minimap. *)
Definition miniMapFree (o : miniMapObjects) : miniMapObjects * list GlCall :=
  let '(program, t1) :=
    if negb (mmProgram o =? 0) then (0, [DeleteProgram (mmProgram o)])
    else (mmProgram o, []) in
  let '(vbo, t2) :=
    if negb (mmVbo o =? 0) then (0, [DeleteBuffers (mmVbo o)])
    else (mmVbo o, []) in
  let '(vao, t3) :=
    if negb (mmVao o =? 0) then (0, [DeleteVertexArrays (mmVao o)])
    else (mmVao o, []) in
  let '(ibo, t4) :=
    if negb (mmIbo o =? 0) then (0, [DeleteBuffers (mmIbo o)])
    else (mmIbo o, []) in
  ({| mmProgram := program; mmVbo := vbo; mmVao := vao; mmIbo := ibo |},
   t1 ++ t2 ++ t3 ++ t4).

(** The name a call releases. *)
Definition released (c : GlCall) : Z :=
  match c with
  | DeleteProgram n | DeleteBuffers n | DeleteVertexArrays n => n
  end.

(** Whether a name denotes an object. *)
Definition nonzero (n : Z) : bool := negb (n =? 0).

End GlObjects.

(** ** [gui/miniMap.go] *)

Module MiniMap.

Import Float.

(** [config.Colour], three [float32]. *)
Record Colour : Type := { red : float; green : float; blue : float }.

(** What the methods of a [buffer.Cell] answer: [Rune], [Fg], [Bg] and the
    [Dim] and [Bold] of [Attr]. *)
Record Cell : Type := {
  cellRune : Z;
  cellFg : Colour;
  cellBg : Colour;
  cellDim : bool;
  cellBold : bool
}.

(** The fields of [miniMap] that are not OpenGL names; [fontMapSet] tells
    whether [fontMap] is not nil. *)
Record miniMap : Type := {
  fontMapSet : bool;
  left : float;
  top : float;
  width : float;
  height : float;
  cellWidth : float;
  lineHeight : float
}.

(** The calls made to a font: the bold font or the default one. *)
Inductive FontCall : Type :=
| SetColor (boldFont : bool) (r g b alpha : float)
| PrintScaled (boldFont : bool) (scale x y : float) (text : list Z).

(** [drawCellText].  It takes a font from the font map and reads the
    colour: each is dereferenced, and a nil one gives [None]. *)
Definition drawCellText (m : miniMap) (text : list Z) (scale : float)
  (col row : Z) (alpha : float) (color : option Colour) (bold : bool)
  : option (list FontCall) :=
  if negb (fontMapSet m) then None else
  match color with
  | None => None
  | Some c =>
      let x := add binary32 (left m) (mul binary32 (cellWidth m) (f32 col)) in
      let y := add binary32 (top m)
                 (mul binary32 (mul binary32 (lineHeight m) scale) (f32 row)) in
      Some [SetColor bold (red c) (green c) (blue c) alpha;
            PrintScaled bold scale x y text]
  end.

(** [drawCellBg]: its body is empty. *)
Definition drawCellBg (m : miniMap) (cell : option Cell) (col row : Z)
  (color : Colour) : list FontCall := [].

(** The calls [renderText] makes to the two methods above. *)
Inductive Call : Type :=
| CallDrawCellBg (cell : option Cell) (col row : Z) (color : Colour)
| CallDrawCellText (text : list Z) (scale : float) (col row : Z)
    (alpha : float) (color : option Colour) (bold : bool).

(** What [renderText] reads from the buffer, the configuration and the
    GUI. *)
Record View : Type := {
  getLines : list (list Cell);
  viewWidth : Z;
  inSelection : Z -> Z -> bool;
  selectionColour : Colour;
  defaultCell : option Cell
}.

(** The variables of [renderText] that live through one line. *)
Record RowState : Type := {
  builder : list Z;
  colToDraw : Z;
  dim : bool;
  bold : bool;
  colourFg : option Colour;
  alpha : float;
  calls : list Call
}.

Definition scale03 : float := round binary32 (3 # 10).
Definition half : float := round binary32 (1 # 2).
Definition one : float := f32 1.

Definition alphaOf (dim : bool) : float := if dim then half else one.

Section RenderText.

(** [config.ColoursEqual], on a pointer that may be nil and a pointer to a
    local. *)
Variable ColoursEqual : option Colour -> Colour -> bool.

Variable view : View.

(** The part of the body of the inner loop that concerns the background, at
    the column [col] where [cell] is [cells[col]] if there is one. *)
Definition backgroundCalls (row col : Z) (cell : option Cell) : list Call :=
  let colourBg :=
    if inSelection view (GoInt.uint16 col) (GoInt.uint16 row)
    then Some (selectionColour view) else None in
  match colourBg, cell with
  | None, None => []
  | Some bg, None => [CallDrawCellBg (defaultCell view) col row bg]
  | Some bg, Some c => [CallDrawCellBg (Some c) col row bg]
  | None, Some c => [CallDrawCellBg (Some c) col row (cellBg c)]
  end.

(** The call that draws the text gathered so far. *)
Definition flush (row : Z) (st : RowState) : Call :=
  CallDrawCellText (builder st) scale03 (colToDraw st) row
    (alphaOf (dim st)) (colourFg st) (bold st).

(** The part of the body that concerns the text. *)
Definition textStep (row col : Z) (c : Cell) (st : RowState) : RowState :=
  let changed :=
    negb (Bool.eqb (cellDim c) (dim st))
    || negb (Bool.eqb (cellBold c) (bold st))
    || negb (ColoursEqual (colourFg st) (cellFg c)) in
  let st1 :=
    if (0 <? Z.of_nat (List.length (builder st))) && changed then
      {| builder := []; colToDraw := col; dim := dim st; bold := bold st;
         colourFg := colourFg st; alpha := alphaOf (dim st);
         calls := calls st ++ [flush row st] |}
    else st in
  let r := if cellRune c =? 0 then 32 else cellRune c in
  {| builder := builder st1 ++ Utf8.encodeRune r;
     colToDraw := colToDraw st1;
     dim := cellDim c;
     bold := cellBold c;
     colourFg := Some (cellFg c);
     alpha := alpha st1;
     calls := calls st1 |}.

Definition addCalls (st : RowState) (cs : list Call) : RowState :=
  {| builder := builder st; colToDraw := colToDraw st; dim := dim st;
     bold := bold st; colourFg := colourFg st; alpha := alpha st;
     calls := calls st ++ cs |}.

(** The inner loop from the column [col] on, for [n] more columns; [rest]
    is [cells[col:]]. *)
Fixpoint columns (n : nat) (row col : Z) (rest : list Cell) (st : RowState)
  : RowState :=
  match n with
  | O => st
  | S n' =>
      let st1 := addCalls st (backgroundCalls row col (List.hd_error rest)) in
      let st2 :=
        match rest with
        | c :: _ => textStep row col c st1
        | [] => st1
        end in
      columns n' row (col + 1) (List.tl rest) st2
  end.

(** The body of the outer loop: the calls made for the line [cells] at the
    index [row]. *)
Definition renderRow (row : Z) (cells : list Cell) : list Call :=
  let st0 :=
    {| builder := []; colToDraw := 0; dim := false; bold := false;
       colourFg := match cells with c :: _ => Some (cellFg c) | [] => None end;
       alpha := one; calls := [] |} in
  let st := columns (Z.to_nat (viewWidth view)) row 0 cells st0 in
  if 0 <? Z.of_nat (List.length (builder st))
  then calls st ++ [flush row st] else calls st.

Fixpoint renderRows (row : Z) (lines : list (list Cell)) : list Call :=
  match lines with
  | [] => []
  | cells :: rest => renderRow row cells ++ renderRows (row + 1) rest
  end.

(** [renderText]. *)
Definition renderText (m : miniMap) : list Call :=
  if negb (fontMapSet m) then []
  else renderRows 0 (getLines view).

End RenderText.

(** The calls to the fonts that a call of [renderText] makes; [None] when
    one of them dereferences a nil colour. *)
Fixpoint perform (m : miniMap) (cs : list Call) : option (list FontCall) :=
  match cs with
  | [] => Some []
  | CallDrawCellBg cell col row color :: rest =>
      match perform m rest with
      | Some t => Some (drawCellBg m cell col row color ++ t)
      | None => None
      end
  | CallDrawCellText text scale col row alpha color bold :: rest =>
      match drawCellText m text scale col row alpha color bold with
      | Some t1 =>
          match perform m rest with
          | Some t2 => Some (t1 ++ t2)
          | None => None
          end
      | None => None
      end
  end.

End MiniMap.

(** ** Observations on the calls of the minimap *)

Module MiniMapRuns.

Import Float MiniMap.

Definition isText (c : Call) : bool :=
  match c with
  | CallDrawCellText _ _ _ _ _ _ _ => true
  | CallDrawCellBg _ _ _ _ => false
  end.

(** The calls to [drawCellText] among the calls made. *)
Definition textCalls (cs : list Call) : list Call := filter isText cs.

Definition textOf (c : Call) : list Z :=
  match c with
  | CallDrawCellText text _ _ _ _ _ _ => text
  | CallDrawCellBg _ _ _ _ => []
  end.

Definition rowOf (c : Call) : Z :=
  match c with
  | CallDrawCellText _ _ _ row _ _ _ => row
  | CallDrawCellBg _ _ row _ => row
  end.

Definition onRow (row : Z) (c : Call) : bool := rowOf c =? row.

(** The bytes that stand for a cell in the text drawn: its rune, a space for
    the rune 0. *)
Definition shown (c : Cell) : list Z :=
  Utf8.encodeRune (if cellRune c =? 0 then 32 else cellRune c).

(** The style of a run of cells is that of its last cell. *)
Definition styleOf (run : list Cell) : bool * bool * option Colour :=
  fold_left (fun _ c => (cellDim c, cellBold c, Some (cellFg c)))
    run (false, false, None).

(** One call that draws a run of cells from the column [col] on. *)
Definition drawRun (row col : Z) (run : list Cell) : Call :=
  let '(d, b, fg) := styleOf run in
  CallDrawCellText (flat_map shown run) scale03 col row (alphaOf d) fg b.

(** Consecutive runs, each drawn at the column after the one before. *)
Fixpoint drawRuns (row col : Z) (rs : list (list Cell)) : list Call :=
  match rs with
  | [] => []
  | run :: rest =>
      drawRun row col run
      :: drawRuns row (col + Z.of_nat (List.length run)) rest
  end.

Section Runs.

Variable ColoursEqual : option Colour -> Colour -> bool.

(** Whether the cell [c] continues the run that ends with [prev]. *)
Definition sameStyle (prev c : Cell) : bool :=
  Bool.eqb (cellDim c) (cellDim prev)
  && Bool.eqb (cellBold c) (cellBold prev)
  && ColoursEqual (Some (cellFg prev)) (cellFg c).

(** The longest runs of cells in which each cell continues the one before;
    [cur] is the run under way and [last] its last cell. *)
Fixpoint runsFrom (cur : list Cell) (last : Cell) (rest : list Cell)
  : list (list Cell) :=
  match rest with
  | [] => [cur]
  | c :: rest' =>
      if sameStyle last c then runsFrom (cur ++ [c]) c rest'
      else cur :: runsFrom [c] c rest'
  end.

Definition runs (cells : list Cell) : list (list Cell) :=
  match cells with
  | [] => []
  | c :: rest => runsFrom [c] c rest
  end.

(** The runs of the first [n] cells of every line, from the line [row]
    on. *)
Fixpoint drawLines (n : nat) (row : Z) (lines : list (list Cell))
  : list Call :=
  match lines with
  | [] => []
  | cells :: rest =>
      drawRuns row 0 (runs (firstn n cells)) ++ drawLines n (row + 1) rest
  end.

End Runs.

(** A run that ends with a cell whose [Dim] and [Bold] every cell of it
    has. *)
Definition styled (run : list Cell) : Prop :=
  exists init l, run = init ++ [l]
    /\ Forall (fun c => cellDim c = cellDim l /\ cellBold c = cellBold l) init.

(** A call that draws such a run, in the style of its last cell. *)
Definition drawsStyled (call : Call) : Prop :=
  exists init l col row,
    call = CallDrawCellText (flat_map shown (init ++ [l])) scale03 col row
             (alphaOf (cellDim l)) (Some (cellFg l)) (cellBold l)
    /\ Forall (fun c => cellDim c = cellDim l /\ cellBold c = cellBold l) init.

(** A call that draws, on the line [row], a run of consecutive cells of
    [cells] at the column where the run starts: the cells [init] and then
    [l], which all have the [Dim] and the [Bold] of [l], in the style of
    [l]. *)
Definition drawsRunOf (cells : list Cell) (row : Z) (call : Call) : Prop :=
  exists before init l after,
    cells = before ++ (init ++ [l]) ++ after
    /\ call = CallDrawCellText (flat_map shown (init ++ [l])) scale03
               (Z.of_nat (List.length before)) row
               (if cellDim l then half else one)
               (Some (cellFg l)) (cellBold l)
    /\ Forall (fun c => cellDim c = cellDim l /\ cellBold c = cellBold l) init
    /\ (0 < List.length (textOf call))%nat.

(** Whether every cell of [cells] continues every other. *)
Definition oneStyle (ColoursEqual : option Colour -> Colour -> bool)
  (cells : list Cell) : bool :=
  forallb (fun a => forallb (sameStyle ColoursEqual a) cells) cells.

(** A view with the lines [lines] and the width [w]. *)
Definition viewOf (lines : list (list Cell)) (w : Z)
  (sel : Z -> Z -> bool) (selColour : Colour) (dflt : option Cell) : View :=
  {| getLines := lines; viewWidth := w; inSelection := sel;
     selectionColour := selColour; defaultCell := dflt |}.

End MiniMapRuns.

(** ** Sample lines for the minimap *)

Module MiniMapSamples.

Import Float MiniMap MiniMapRuns.

Definition white : Colour := {| red := f32 1; green := f32 1; blue := f32 1 |}.
Definition black : Colour :=
  {| red := FZero false; green := FZero false; blue := FZero false |}.

(** An answer of [config.ColoursEqual]: the two colours have equal
    components; false for a nil pointer. *)
Definition sameColour (a : option Colour) (b : Colour) : bool :=
  match a with
  | Some x =>
      fle (red x) (red b) && fle (red b) (red x)
      && fle (green x) (green b) && fle (green b) (green x)
      && fle (blue x) (blue b) && fle (blue b) (blue x)
  | None => false
  end.

Definition plainCell (r : Z) : Cell :=
  {| cellRune := r; cellFg := white; cellBg := black;
     cellDim := false; cellBold := false |}.

Definition dimCell (r : Z) : Cell :=
  {| cellRune := r; cellFg := white; cellBg := black;
     cellDim := true; cellBold := false |}.

(** One line, [ls], in a view of 80 columns with nothing selected. *)
Definition plainView : View :=
  viewOf [[plainCell 108; plainCell 115]] 80 (fun _ _ => false) black None.

End MiniMapSamples.

(** ** Moves of the pointer over the viewport *)

Module PointerRuns.

Import Float Trace Mouse Samples DispatchRuns.

(** The cell under the pointer of an event. *)
Definition cellOf (ev : Env * Event) : Z * Z :=
  convertMouseCoordinates (fst ev) (fst (pointerOf ev)) (snd (pointerOf ev)).

(** Whether there is a link at that cell. *)
Definition overLink (ev : Env * Event) : bool :=
  negb (String.eqb
          (getURLAtPosition (fst ev) (fst (cellOf ev)) (snd (cellOf ev)))
          EmptyString).

(** What a move does while a button is down on the viewport, once the
    cursor it sets exists. *)
Definition dragMove (ev : Env * Event) : list Effect :=
  [CallMove HViewport;
   ExtendSelection (fst (cellOf ev)) (snd (cellOf ev)) false;
   SetCursor (overLink ev)].

(** The same for a sequence of moves, when the hand cursor exists or not
    ([hc]) and the arrow cursor exists or not ([ac]) at its start: the
    cursor a move sets is created first if it does not exist yet. *)
Fixpoint dragEffects (hc ac : bool) (evs : list (Env * Event))
  : list Effect :=
  match evs with
  | [] => []
  | ev :: rest =>
      let hand := overLink ev in
      [CallMove HViewport;
       ExtendSelection (fst (cellOf ev)) (snd (cellOf ev)) false]
      ++ (if hand
          then (if hc then [] else [CreateStandardCursor true])
          else (if ac then [] else [CreateStandardCursor false]))
      ++ [SetCursor hand]
      ++ dragEffects (hc || hand) (ac || negb hand) rest
  end.

(** The [GUI] with the two cursors created or not. *)
Definition set_cursors (g : GUI) (hc ac : bool) : GUI :=
  set_arrowCursor (set_handCursor g hc) ac.

Definition isSelectionStart (e : Effect) : bool :=
  match e with StartSelection _ _ _ => true | _ => false end.

(** The sample [GUI] after a left press at the pixel (100, 100). *)
Definition pressedGUI : GUI :=
  fst (fst (dispatch sampleGUI
              (sampleEnv MouseModeNone (f64 100, f64 100),
               EvButton Glfw.MouseButtonLeft Glfw.Press 0))).

(** A move inside the viewport, to the pixel (204, 40), and a move to the
    left of the window, to the pixel (-4, 40). *)
Definition sampleMoves : list (Env * Event) :=
  [ (sampleEnv MouseModeNone (f64 204, f64 40), EvMove (f64 204) (f64 40));
    (sampleEnv MouseModeNone (f64 (-4), f64 40), EvMove (f64 (-4)) (f64 40)) ].

End PointerRuns.

(** ** Reading a mouse report back *)

Module Decoding.

(** The rune at the head of a UTF-8 text, told by its first byte, and the
    rest of the text. *)
Definition decodeRune (bs : list Z) : option (Z * list Z) :=
  match bs with
  | [] => None
  | b0 :: rest =>
      if b0 <? 128 then Some (b0, rest)
      else if b0 <? 192 then None
      else if b0 <? 224 then
        match rest with
        | b1 :: rest => Some ((b0 - 192) * 64 + (b1 - 128), rest)
        | _ => None
        end
      else if b0 <? 240 then
        match rest with
        | b1 :: b2 :: rest =>
            Some ((b0 - 224) * 4096 + (b1 - 128) * 64 + (b2 - 128), rest)
        | _ => None
        end
      else
        match rest with
        | b1 :: b2 :: b3 :: rest =>
            Some ((b0 - 240) * 262144 + (b1 - 128) * 4096
                  + (b2 - 128) * 64 + (b3 - 128), rest)
        | _ => None
        end
  end.

(** The three characters after ESC [ M of a mouse report, if it is
    one. *)
Definition decodePacket (d : list Z) : option (Z * Z * Z) :=
  match d with
  | 27 :: 91 :: 77 :: rest =>
      match decodeRune rest with
      | Some (c, rest1) =>
          match decodeRune rest1 with
          | Some (x, rest2) =>
              match decodeRune rest2 with
              | Some (y, []) => Some (c, x, y)
              | _ => None
              end
          | None => None
          end
      | None => None
      end
  | _ => None
  end.

(** Whether the report [d] tells the zero-indexed cell [(cx, cy)]: its last
    two characters are the coordinates plus 33, its first is between 32 and
    63. *)
Definition tellsCell (cx cy : Z) (d : list Z) : bool :=
  match decodePacket d with
  | Some (c, x, y) =>
      (32 <=? c) && (c <=? 63) && (x =? cx + 33) && (y =? cy + 33)
  | None => false
  end.

(** Runes that UTF-8 encodes as themselves: all but the surrogates and the
    values out of range. *)
Definition encodable (r : Z) : Prop :=
  0 <= r < 55296 \/ 57343 < r <= Utf8.MaxRune.

End Decoding.

(** ** A sample minimap *)

Module MiniMapGeometry.

Import Float MiniMap.

(** A minimap 80 pixels wide at the right of a window of 800 pixels, with
    a font of 8 by 16 pixels. *)
Definition sampleMiniMap : miniMap :=
  {| fontMapSet := true;
     left := f32 720;
     top := f32 1;
     width := f32 80;
     height := f32 599;
     cellWidth := f32 8;
     lineHeight := f32 16 |}.

End MiniMapGeometry.

(** ** The drag of the thumb in the words of the specification *)

Module DragSpec.

Import Float Trace Scrollbar Samples.

(** The arrows are squares whose side is the width of the control, the
    thumb is as high as the control is wide, and the track ends at the
    height of the control. *)
Definition arrowHeight (sb : scrollbar) : float := width (position sb).
Definition thumbHeight (sb : scrollbar) : float := width (position sb).
Definition trackBottom (sb : scrollbar) : float := height (position sb).

(** delta = max * (newThumbTop - minThumbTop - startThumbTop)
            / (maxThumbTop - minThumbTop),
    with minThumbTop = arrowHeight and
    maxThumbTop = trackBottom - arrowHeight - thumbHeight, in [float32] and
    truncated to an integer. *)
Definition specMinThumbTop (sb : scrollbar) : float := arrowHeight sb.

Definition specMaxThumbTop (sb : scrollbar) : float :=
  sub binary32 (sub binary32 (trackBottom sb) (arrowHeight sb))
    (thumbHeight sb).

Definition specDelta (sb : scrollbar) (py : float) : Z :=
  to_int
    (div binary32
       (mul binary32 (f32 (maxScrollPosition sb))
          (sub binary32
             (sub binary32 (newThumbTop sb py) (specMinThumbTop sb))
             (startedDraggingAtThumbTop sb)))
       (sub binary32 (specMaxThumbTop sb) (specMinThumbTop sb))).

(** The scrollbar of a window of 800 by 552 pixels at the position 965 of
    1000, after a left press on its thumb at (790, 505). *)
Definition lowDraggedScrollbar : scrollbar :=
  fst (mouseButtonCallback
         (setPosition (resize createdScrollbar 800 552 (f32 1)) 1000 965)
         Glfw.MouseButtonLeft Glfw.Press 0 (f64 790) (f64 505)).

End DragSpec.

(** ** What the scrollbar receives while it has the capture *)

Module CaptureRuns.

Import Float Trace Mouse ScrollbarRuns DispatchRuns.




End CaptureRuns.

(** * Properties *)

(** ** Machine integers and text *)

Module BaseFacts.

Lemma uint16_range (z : Z) : 0 <= GoInt.uint16 z < 65536.
Proof. unfold GoInt.uint16. apply Z.mod_pos_bound. reflexivity. Qed.

Lemma wrap32_small (z : Z) : - 2 ^ 31 <= z < 2 ^ 31 -> GoInt.wrap32 z = z.
Proof.
  intros H. unfold GoInt.wrap32.
  rewrite Z.mod_small by lia. lia.
Qed.

Lemma wrap64_small (z : Z) : - 2 ^ 63 <= z < 2 ^ 63 -> GoInt.wrap64 z = z.
Proof.
  intros H. unfold GoInt.wrap64.
  rewrite Z.mod_small by lia. lia.
Qed.

Lemma encodeRune_ascii (r : Z) : 0 <= r <= 127 -> Utf8.encodeRune r = [r].
Proof.
  intros [H0 H1]. unfold Utf8.encodeRune.
  apply Z.leb_le in H0. apply Z.leb_le in H1.
  rewrite H0, H1. reflexivity.
Qed.

Lemma writes_app (t u : list Trace.Effect) :
  Trace.writes (t ++ u) = Trace.writes t ++ Trace.writes u.
Proof.
  induction t as [| e t IH]; simpl; [reflexivity |].
  destruct e; simpl; rewrite ?IH; reflexivity.
Qed.

End BaseFacts.

(** ** The mouse reports of [mouseButtonCallback] *)

Module ReportFacts.

Import Float Trace Mouse Samples BaseFacts.

Lemma handleLocally_writes g env button action x y :
  writes (snd (handleLocally g env button action x y)) = [].
Proof.
  unfold handleLocally.
  destruct button, action; try reflexivity.
  - cbn [snd]. rewrite writes_app.
    repeat (match goal with |- context [if ?b then _ else _] =>
              destruct b end); reflexivity.
  - destruct (updateLeftClickCount (set_mouseDown g true) env x y) as [c g2].
    cbn [snd].
    repeat (match goal with |- context [if ?b then _ else _] =>
              destruct b end); reflexivity.
  - destruct (copyAndPasteWithMouse env); [| reflexivity].
    destruct (getClipboardString env); reflexivity.
Qed.

Lemma convert_range env mx my cx cy :
  convertMouseCoordinates env mx my = (cx, cy) ->
  0 <= cx < 65536 /\ 0 <= cy < 65536.
Proof.
  unfold convertMouseCoordinates. intros H. inversion H; subst.
  split; apply uint16_range.
Qed.

(** With no overlay, the calls to [terminal.Write] are those of the
    report. *)
Lemma callback_writes g env button action mod_ mx my cx cy :
  overlay g = false ->
  convertMouseCoordinates env mx my = (cx, cy) ->
  writes (snd (fst (mouseButtonCallback g env button action mod_ mx my)))
  = writes (fst (reportMouse env button action mod_ (cx + 1) (cy + 1)))
  /\ snd (mouseButtonCallback g env button action mod_ mx my)
     = snd (reportMouse env button action mod_ (cx + 1) (cy + 1)).
Proof.
  intros Hov Hc. destruct (convert_range _ _ _ _ _ Hc) as [Hx Hy].
  unfold mouseButtonCallback. rewrite Hov, Hc.
  unfold GoInt.add. rewrite !wrap64_small by lia.
  pose proof (handleLocally_writes g env button action cx cy) as Hl.
  destruct (handleLocally g env button action cx cy) as [g1 t1].
  destruct (reportMouse env button action mod_ (cx + 1) (cy + 1)) as [t2 out].
  simpl in *. rewrite writes_app, Hl. split; reflexivity.
Qed.

Lemma overlay_swallows g env button action mod_ mx my :
  overlay g = true ->
  writes (snd (fst (mouseButtonCallback g env button action mod_ mx my))) = []
  /\ snd (mouseButtonCallback g env button action mod_ mx my) = Returned.
Proof.
  intros Hov. unfold mouseButtonCallback. rewrite Hov.
  destruct (_ && _); split; reflexivity.
Qed.

Lemma withModifiers_release mod_ :
  withModifiers 3 mod_ = 3 + modifierBits mod_
  /\ 0 <= modifierBits mod_ <= 28.
Proof.
  unfold withModifiers, modifierBits.
  destruct (Z.land mod_ Glfw.ModShift >? 0),
    (Z.land mod_ Glfw.ModSuper >? 0),
    (Z.land mod_ Glfw.ModControl >? 0); split; (reflexivity || lia).
Qed.

Lemma button_code_range b : 0 <= Glfw.button_code b <= 7.
Proof. destruct b; simpl; lia. Qed.

(** C3, as amended.  In X10 mode and with no overlay shown, a press of any
    button at the zero-indexed cell (cx, cy) makes exactly one write: ESC [ M
    followed by the characters button+32, cx+1+32 and cy+1+32 in UTF-8.  When
    cx and cy are at most 94 these are three single bytes, six bytes in all,
    and a left press at cell (0,0) writes 1B 5B 4D 20 21 21.  A release in
    X10 mode writes nothing, with or without an overlay. *)
Theorem x10_press_report g env button mod_ mx my cx cy :
  getMouseMode env = MouseModeX10 ->
  overlay g = false ->
  convertMouseCoordinates env mx my = (cx, cy) ->
  let pressed :=
    writes (snd (fst (mouseButtonCallback g env button Glfw.Press mod_ mx my))) in
  pressed = [ [27; 91; 77] ++ Utf8.encodeRune (Glfw.button_code button + 32)
                ++ Utf8.encodeRune (cx + 1 + 32)
                ++ Utf8.encodeRune (cy + 1 + 32) ]
  /\ (cx <= 94 -> cy <= 94 ->
      pressed = [ [27; 91; 77; Glfw.button_code button + 32;
                   cx + 1 + 32; cy + 1 + 32] ])
  /\ (button = Glfw.MouseButtonLeft -> cx = 0 -> cy = 0 ->
      pressed = [ [27; 91; 77; 32; 33; 33] ])
  /\ (forall g', writes (snd (fst (mouseButtonCallback g' env button
                                     Glfw.Release mod_ mx my))) = []).
Proof.
  intros Hmode Hov Hc pressed.
  destruct (convert_range _ _ _ _ _ Hc) as [Hx Hy].
  pose proof (button_code_range button) as Hb.
  assert (Hp : pressed =
    [ [27; 91; 77] ++ Utf8.encodeRune (Glfw.button_code button + 32)
        ++ Utf8.encodeRune (cx + 1 + 32) ++ Utf8.encodeRune (cy + 1 + 32) ]).
  { unfold pressed.
    destruct (callback_writes g env button Glfw.Press mod_ mx my cx cy Hov Hc)
      as [-> _].
    unfold reportMouse. rewrite Hmode. simpl writes.
    unfold Utf8.mousePacket.
    rewrite (wrap32_small (Glfw.button_code button)) by lia.
    rewrite !wrap32_small by lia. reflexivity. }
  split; [exact Hp |]. split; [| split].
  - intros Hcx Hcy. rewrite Hp.
    rewrite !encodeRune_ascii by lia. reflexivity.
  - intros -> -> ->. rewrite Hp. reflexivity.
  - intros g'. destruct (overlay g') eqn:Hov'.
    + apply overlay_swallows. exact Hov'.
    + destruct (callback_writes g' env button Glfw.Release mod_ mx my cx cy
                  Hov' Hc) as [-> _].
      unfold reportMouse. rewrite Hmode. reflexivity.
Qed.

Lemma x10_press_report_witness :
  writes (snd (fst (mouseButtonCallback sampleGUI
                      (sampleEnv MouseModeX10 (f64 4, f64 5))
                      Glfw.MouseButtonLeft Glfw.Press 0 (f64 4) (f64 5))))
  = [ [27; 91; 77; 32; 33; 33] ].
Proof.
  refine (proj1 (proj2 (proj2
    (x10_press_report sampleGUI (sampleEnv MouseModeX10 (f64 4, f64 5))
       Glfw.MouseButtonLeft 0 (f64 4) (f64 5) 0 0 _ _ _))) _ _ _);
    reflexivity.
Defined.

(** C3 as stated fails on a wide terminal: a left press in column 95 (zero
    indexed) writes seven bytes, the character 128 taking two. *)
Lemma x10_press_column_95_counterexample :
  writes (snd (fst (mouseButtonCallback sampleGUI
                      (sampleEnv MouseModeX10 (f64 764, f64 5))
                      Glfw.MouseButtonLeft Glfw.Press 0 (f64 764) (f64 5))))
  = [ [27; 91; 77; 32; 194; 128; 33] ]
  /\ convertMouseCoordinates (sampleEnv MouseModeX10 (f64 764, f64 5))
       (f64 764) (f64 5) = (95, 0)
  /\ [27; 91; 77; 32; 194; 128; 33] <> [27; 91; 77; 0 + 32; 95 + 1 + 32; 0 + 1 + 32].
Proof.
  split; [vm_compute; reflexivity |].
  split; [vm_compute; reflexivity | discriminate].
Qed.

(** C4, as amended.  In normal (VT200) mode and with no overlay shown, the
    release of any button writes ESC [ M, the single byte Cb + 32 with
    Cb = 3 + modifier bits (Shift 4, Super 8, Control 16), and the cell as in
    X10 mode: the characters cx+1+32 and cy+1+32.  The button released has
    no part in it. *)
Theorem vt200_release_report g env button mod_ mx my cx cy :
  getMouseMode env = MouseModeVT200 ->
  overlay g = false ->
  convertMouseCoordinates env mx my = (cx, cy) ->
  writes (snd (fst (mouseButtonCallback g env button Glfw.Release mod_ mx my)))
  = [ [27; 91; 77; 3 + modifierBits mod_ + 32]
        ++ Utf8.encodeRune (cx + 1 + 32) ++ Utf8.encodeRune (cy + 1 + 32) ].
Proof.
  intros Hmode Hov Hc.
  destruct (convert_range _ _ _ _ _ Hc) as [Hx Hy].
  destruct (withModifiers_release mod_) as [Hw Hm].
  destruct (callback_writes g env button Glfw.Release mod_ mx my cx cy Hov Hc)
    as [-> _].
  unfold reportMouse. rewrite Hmode. simpl writes.
  unfold Utf8.mousePacket. rewrite Hw.
  unfold GoInt.uint8. rewrite Z.mod_small by lia.
  rewrite !wrap32_small by lia.
  rewrite (encodeRune_ascii (3 + modifierBits mod_ + 32)) by lia.
  reflexivity.
Qed.

Lemma vt200_release_report_witness :
  writes (snd (fst (mouseButtonCallback sampleGUI
                      (sampleEnv MouseModeVT200 (f64 4, f64 5))
                      Glfw.MouseButtonRight Glfw.Release Glfw.ModControl
                      (f64 4) (f64 5))))
  = [ [27; 91; 77; 51; 33; 33] ].
Proof.
  refine (vt200_release_report sampleGUI
            (sampleEnv MouseModeVT200 (f64 4, f64 5))
            Glfw.MouseButtonRight Glfw.ModControl (f64 4) (f64 5) 0 0 _ _ _);
    reflexivity.
Defined.

(** C4 as stated fails while an overlay is shown: the release is swallowed
    and nothing is written. *)
Lemma vt200_release_overlay_counterexample :
  getMouseMode (sampleEnv MouseModeVT200 (f64 4, f64 5)) = MouseModeVT200
  /\ mouseButtonCallback (set_overlay sampleGUI true)
       (sampleEnv MouseModeVT200 (f64 4, f64 5))
       Glfw.MouseButtonLeft Glfw.Release 0 (f64 4) (f64 5)
     = (set_overlay sampleGUI true, [], Returned).
Proof. split; reflexivity. Qed.

(** C5, as amended.  With no overlay shown, in the modes Highlight,
    ButtonEvent and AnyEvent and for any unrecognised mode, every button
    event (press, release or repeat, of any button) ends in a panic and makes
    no call to [terminal.Write]: the calls made before the panic are those of
    the local handling (selection, clipboard, paste).  In mode None the
    handler returns normally. *)
Theorem unsupported_mode_panics g env button action mod_ mx my :
  overlay g = false ->
  let result := mouseButtonCallback g env button action mod_ mx my in
  (unsupported (getMouseMode env) = true ->
   (exists message, snd result = Panicked message)
   /\ writes (snd (fst result)) = []
   /\ snd (fst result)
      = snd (handleLocally g env button action
               (fst (convertMouseCoordinates env mx my))
               (snd (convertMouseCoordinates env mx my))))
  /\ (getMouseMode env = MouseModeNone ->
      snd result = Returned /\ writes (snd (fst result)) = []).
Proof.
  intros Hov result.
  destruct (convertMouseCoordinates env mx my) as [cx cy] eqn:Hc.
  destruct (callback_writes g env button action mod_ mx my cx cy Hov Hc)
    as [Hw Ho].
  fold result in Hw, Ho. rewrite Hw, Ho.
  assert (Ht : unsupported (getMouseMode env) = true ->
               snd (fst result) = snd (handleLocally g env button action cx cy)).
  { intros Hun. unfold result, mouseButtonCallback. rewrite Hov, Hc.
    destruct (handleLocally g env button action cx cy) as [g1 t1].
    unfold reportMouse.
    destruct (getMouseMode env); try discriminate; cbn [fst snd];
      apply app_nil_r. }
  unfold reportMouse. cbn [fst snd]. split.
  - intros Hun. rewrite (Ht Hun).
    destruct (getMouseMode env); try discriminate;
      (split; [eexists; reflexivity | split; reflexivity]).
  - intros ->. split; reflexivity.
Qed.

Lemma unsupported_mode_panics_witness :
  (exists message,
     snd (mouseButtonCallback sampleGUI
            (sampleEnv MouseModeAnyEvent (f64 4, f64 5))
            Glfw.MouseButtonLeft Glfw.Press 0 (f64 4) (f64 5))
     = Panicked message)
  /\ writes (snd (fst (mouseButtonCallback sampleGUI
                         (sampleEnv MouseModeAnyEvent (f64 4, f64 5))
                         Glfw.MouseButtonLeft Glfw.Press 0 (f64 4) (f64 5))))
     = [].
Proof.
  pose proof (proj1
    (unsupported_mode_panics sampleGUI
       (sampleEnv MouseModeAnyEvent (f64 4, f64 5))
       Glfw.MouseButtonLeft Glfw.Press 0 (f64 4) (f64 5) eq_refl) eq_refl)
    as (Hp & Hw & _).
  split; [exact Hp | exact Hw].
Defined.

(** C5 as stated fails while an overlay is shown: in Highlight mode the
    press returns normally, with no panic.  It fails for a move as well: the
    move callback never reads the mode. *)
Lemma unsupported_mode_overlay_counterexample :
  unsupported (getMouseMode (sampleEnv MouseModeVT200Highlight (f64 4, f64 5)))
  = true
  /\ snd (mouseButtonCallback (set_overlay sampleGUI true)
            (sampleEnv MouseModeVT200Highlight (f64 4, f64 5))
            Glfw.MouseButtonLeft Glfw.Press 0 (f64 4) (f64 5))
     = Returned
  /\ snd (globalMouseMoveCallback sampleGUI
            (sampleEnv MouseModeVT200Highlight (f64 4, f64 5)) (f64 4) (f64 5))
     = Returned.
Proof. repeat split; vm_compute; reflexivity. Qed.

(** C10.  In normal (VT200) mode the press of a button other than left,
    middle and right (buttons 4 to 8) does nothing: the handler returns
    normally, with the state unchanged and no call made, so nothing is
    written and no panic is raised. *)
Theorem vt200_extra_button_press_ignored g env button mod_ mx my :
  getMouseMode env = MouseModeVT200 ->
  button <> Glfw.MouseButtonLeft ->
  button <> Glfw.MouseButtonMiddle ->
  button <> Glfw.MouseButtonRight ->
  mouseButtonCallback g env button Glfw.Press mod_ mx my = (g, [], Returned).
Proof.
  intros Hmode Hl Hm Hr. unfold mouseButtonCallback.
  destruct (overlay g).
  - destruct button; try reflexivity; contradiction.
  - destruct (convertMouseCoordinates env mx my) as [cx cy].
    unfold reportMouse. rewrite Hmode.
    destruct button; try reflexivity; contradiction.
Qed.

Lemma vt200_extra_button_press_ignored_witness :
  mouseButtonCallback sampleGUI (sampleEnv MouseModeVT200 (f64 4, f64 5))
    Glfw.MouseButton4 Glfw.Press 0 (f64 4) (f64 5)
  = (sampleGUI, [], Returned).
Proof.
  apply (vt200_extra_button_press_ignored sampleGUI
           (sampleEnv MouseModeVT200 (f64 4, f64 5)) Glfw.MouseButton4 0
           (f64 4) (f64 5)); [reflexivity | discriminate ..].
Defined.

End ReportFacts.

(** ** The left-click counter *)

Module ClickFacts.

Import Float Trace Mouse Samples BaseFacts.

Lemma since_lt now t :
  (since now t <? halfSecond) = (now - t <? halfSecond).
Proof.
  unfold since, halfSecond, GoInt.min_int, GoInt.max_int.
  destruct (now - t <? 500 * 1000000) eqn:H.
  - apply Z.ltb_lt in H. apply Z.ltb_lt. lia.
  - apply Z.ltb_ge in H. apply Z.ltb_ge. lia.
Qed.

(** One call, in the two cases of the condition. *)
Lemma click_fresh g env x y :
  x <> prevLeftClickX g \/ y <> prevLeftClickY g
  \/ halfSecond <= timeSince env - leftClickTime g ->
  updateLeftClickCount g env x y = (1, set_click g 1 x y (timeStored env)).
Proof.
  intros H. unfold updateLeftClickCount. rewrite since_lt.
  destruct (prevLeftClickX g =? x) eqn:Hx; [| reflexivity].
  destruct (prevLeftClickY g =? y) eqn:Hy; [| reflexivity].
  destruct (timeSince env - leftClickTime g <? halfSecond) eqn:Ht;
    [| reflexivity].
  apply Z.eqb_eq in Hx. apply Z.eqb_eq in Hy. apply Z.ltb_lt in Ht. lia.
Qed.

Lemma click_repeated g env x y :
  GoInt.min_int <= leftClickCount g < GoInt.max_int ->
  x = prevLeftClickX g -> y = prevLeftClickY g ->
  timeSince env - leftClickTime g < halfSecond ->
  updateLeftClickCount g env x y
  = (Z.min (leftClickCount g + 1) 3,
     set_click g (Z.min (leftClickCount g + 1) 3) x y (timeStored env)).
Proof.
  intros Hc -> -> Ht. unfold updateLeftClickCount. rewrite since_lt.
  rewrite !Z.eqb_refl. apply Z.ltb_lt in Ht. rewrite Ht. simpl.
  unfold GoInt.min_int, GoInt.max_int in Hc.
  unfold GoInt.add. rewrite wrap64_small by lia.
  rewrite Z.gtb_ltb.
  destruct (3 <? leftClickCount g + 1) eqn:Hgt.
  - apply Z.ltb_lt in Hgt. rewrite Z.min_r by lia. reflexivity.
  - apply Z.ltb_ge in Hgt. rewrite Z.min_l by lia. reflexivity.
Qed.

Lemma clickCounts_cons g env x y rest :
  clickCounts g ((env, (x, y)) :: rest)
  = fst (updateLeftClickCount g env x y)
    :: clickCounts (snd (updateLeftClickCount g env x y)) rest.
Proof.
  cbn [clickCounts]. destruct (updateLeftClickCount g env x y). reflexivity.
Qed.

(** C7.  The counter returns 1 for a click whose cell differs from the
    previous click's or that comes at least 500 ms after it (so for the
    first click, the stored time being the zero time then), and otherwise
    min(previous count + 1, 3); every call stores the cell, the time and
    the count.  Hence three presses at one cell, each less than 500 ms after
    the one before, count 1, 2, 3, a fourth counts 3, and a press at another
    cell counts 1 whatever the time.  The stored count is any [int] but the
    largest, where the increment would wrap. *)
Theorem left_click_count g env x y :
  GoInt.min_int <= leftClickCount g < GoInt.max_int ->
  let result := updateLeftClickCount g env x y in
  (x <> prevLeftClickX g \/ y <> prevLeftClickY g
   \/ halfSecond <= timeSince env - leftClickTime g ->
   fst result = 1)
  /\ (leftClickTime g = 0 -> halfSecond <= timeSince env -> fst result = 1)
  /\ (x = prevLeftClickX g -> y = prevLeftClickY g ->
      timeSince env - leftClickTime g < halfSecond ->
      fst result = Z.min (leftClickCount g + 1) 3)
  /\ (prevLeftClickX (snd result) = x
      /\ prevLeftClickY (snd result) = y
      /\ leftClickTime (snd result) = timeStored env
      /\ leftClickCount (snd result) = fst result)
  /\ (forall e2 e3 e4 e5 x' y',
        x <> prevLeftClickX g \/ y <> prevLeftClickY g
        \/ halfSecond <= timeSince env - leftClickTime g ->
        timeSince e2 - timeStored env < halfSecond ->
        timeSince e3 - timeStored e2 < halfSecond ->
        timeSince e4 - timeStored e3 < halfSecond ->
        x' <> x \/ y' <> y ->
        clickCounts g [(env, (x, y)); (e2, (x, y)); (e3, (x, y));
                       (e4, (x, y)); (e5, (x', y'))]
        = [1; 2; 3; 3; 1]).
Proof.
  intros Hc result.
  assert (Hcases :
    (x <> prevLeftClickX g \/ y <> prevLeftClickY g
     \/ halfSecond <= timeSince env - leftClickTime g)
    \/ (x = prevLeftClickX g /\ y = prevLeftClickY g
        /\ timeSince env - leftClickTime g < halfSecond)) by lia.
  split; [| split; [| split; [| split]]].
  - intros H. unfold result. rewrite (click_fresh g env x y H). reflexivity.
  - intros Hz Ht. unfold result. rewrite click_fresh; [reflexivity | lia].
  - intros Hx Hy Ht. unfold result.
    rewrite (click_repeated g env x y Hc Hx Hy Ht). reflexivity.
  - unfold result. destruct Hcases as [H | (Hx & Hy & Ht)].
    + rewrite (click_fresh g env x y H). simpl. repeat split.
    + rewrite (click_repeated g env x y Hc Hx Hy Ht). simpl.
      repeat split; lia.
  - intros e2 e3 e4 e5 x' y' H1 H2 H3 H4 H5.
    unfold GoInt.min_int, GoInt.max_int in Hc.
    rewrite clickCounts_cons, (click_fresh g env x y H1). cbn [fst snd].
    rewrite clickCounts_cons, click_repeated
      by (unfold GoInt.min_int, GoInt.max_int; simpl; lia). cbn [fst snd].
    rewrite clickCounts_cons, click_repeated
      by (unfold GoInt.min_int, GoInt.max_int; simpl; lia). cbn [fst snd].
    rewrite clickCounts_cons, click_repeated
      by (unfold GoInt.min_int, GoInt.max_int; simpl; lia). cbn [fst snd].
    rewrite clickCounts_cons, click_fresh by (simpl; lia).
    reflexivity.
Qed.

Lemma left_click_count_witness :
  clickCounts sampleGUI samplePresses = [1; 2; 3; 3; 1].
Proof.
  refine (proj2 (proj2 (proj2 (proj2
    (left_click_count sampleGUI (sampleEnv MouseModeNone (f64 4, f64 5)) 3 7 _))))
    _ _ _ _ 4 7 _ _ _ _ _); simpl;
    unfold halfSecond, GoInt.min_int, GoInt.max_int; lia.
Defined.

End ClickFacts.

(** ** Pointer capture *)

Module DispatchFacts.

Import Float Trace Mouse Samples ScrollbarRuns DispatchRuns CaptureRuns
  BaseFacts.















End DispatchFacts.

(** ** Rounding is monotone *)

Module FloatFacts.

Import Float.

Local Open Scope Q_scope.

(** *** Powers of two, the binary logarithm and the nearest integer *)

Lemma pow2_pos e : 0 < pow2 e.
Proof. apply Qpower_0_lt. reflexivity. Qed.

Lemma pow2_le a b : (a <= b)%Z -> pow2 a <= pow2 b.
Proof.
  intros H. unfold pow2. apply Qpower_le_compat_l; [exact H | discriminate].
Qed.

Lemma pow2_lt a b : (a < b)%Z -> pow2 a < pow2 b.
Proof.
  intros H. unfold pow2. apply Qpower_lt_compat_l; [exact H | reflexivity].
Qed.

Lemma pow2_plus a b : pow2 (a + b) == pow2 a * pow2 b.
Proof. unfold pow2. apply Qpower_plus. discriminate. Qed.

Lemma pow2_Z e : (0 <= e)%Z -> pow2 e == inject_Z (2 ^ e).
Proof. intros H. unfold pow2. symmetry. apply (Zpower_Qpower 2 e H). Qed.

Lemma pow2_succ e : pow2 (e + 1) == 2 * pow2 e.
Proof. rewrite pow2_plus. change (pow2 1) with (2 # 1). ring. Qed.


Lemma pow2_opp_mul e : pow2 (- e) * pow2 e == 1.
Proof.
  rewrite <- pow2_plus. replace (- e + e)%Z with 0%Z by lia. reflexivity.
Qed.

Lemma pow2_sub a b : pow2 (a - b) * pow2 b == pow2 a.
Proof.
  rewrite <- pow2_plus. replace (a - b + b)%Z with a by lia. reflexivity.
Qed.

Lemma log2_bounds_Q (n : Z) :
  (0 < n)%Z ->
  pow2 (Z.log2 n) <= inject_Z n /\ inject_Z n < 2 * pow2 (Z.log2 n).
Proof.
  intros H. destruct (Z.log2_spec n H) as [H1 H2].
  pose proof (Z.log2_nonneg n) as Hn.
  split.
  - rewrite pow2_Z by exact Hn. rewrite <- Zle_Qle. exact H1.
  - rewrite <- pow2_succ. rewrite pow2_Z by lia. rewrite <- Zlt_Qlt.
    exact H2.
Qed.

Lemma Q_as_fraction (x : Q) :
  x * inject_Z (Zpos (Qden x)) == inject_Z (Qnum x).
Proof.
  destruct x as [n d]. unfold Qeq, Qmult, inject_Z. simpl. lia.
Qed.

Lemma Qnum_pos (x : Q) : 0 < x -> (0 < Qnum x)%Z.
Proof. destruct x as [n d]. unfold Qlt. simpl. lia. Qed.

Lemma ilog2_spec x :
  0 < x -> pow2 (ilog2 x) <= x /\ x < pow2 (ilog2 x + 1).
Proof.
  intros Hx. unfold ilog2.
  set (ln := Z.log2 (Qnum x)). set (ld := Z.log2 (Zpos (Qden x))).
  destruct (log2_bounds_Q (Qnum x) (Qnum_pos x Hx)) as [Hn1 Hn2].
  destruct (log2_bounds_Q (Zpos (Qden x))) as [Hd1 Hd2]; [reflexivity |].
  fold ln in Hn1, Hn2. fold ld in Hd1, Hd2.
  pose proof (Q_as_fraction x) as Hf.
  pose proof (pow2_pos ln) as Pn. pose proof (pow2_pos ld) as Pd.
  pose proof (pow2_sub ln ld) as Hk.
  pose proof (pow2_pos (ln - ld)) as Pk.
  set (D := inject_Z (Zpos (Qden x))) in *.
  set (N := inject_Z (Qnum x)) in *.
  assert (HD : 0 < D) by lra.
  (* x < 2 * pow2 (ln - ld) *)
  assert (Hup : x < 2 * pow2 (ln - ld)).
  { apply Qnot_le_lt. intros Hc.
    assert (2 * pow2 (ln - ld) * D <= x * D)
      by (apply Qmult_le_compat_r; lra).
    assert (pow2 (ln - ld) * pow2 ld <= pow2 (ln - ld) * D)
      by (apply Qmult_le_l; lra).
    lra. }
  assert (Hlow : pow2 (ln - ld - 1) <= x).
  { pose proof (pow2_succ (ln - ld - 1)) as Hs.
    replace (ln - ld - 1 + 1)%Z with (ln - ld)%Z in Hs by lia.
    pose proof (pow2_pos (ln - ld - 1)) as Pk1.
    apply Qnot_lt_le. intros Hc.
    assert (x * D < pow2 (ln - ld - 1) * D)
      by (apply Qmult_lt_compat_r; lra).
    assert (pow2 (ln - ld - 1) * D < pow2 (ln - ld - 1) * (2 * pow2 ld))
      by (apply Qmult_lt_l; lra).
    assert (Hk' : 2 * pow2 (ln - ld - 1) * pow2 ld == pow2 ln)
      by (rewrite <- Hs; exact Hk).
    lra. }
  destruct (Qle_bool (pow2 (ln - ld)) x) eqn:Hb.
  - apply Qle_bool_iff in Hb. split; [exact Hb |].
    rewrite pow2_succ. exact Hup.
  - assert (x < pow2 (ln - ld)).
    { apply Qnot_le_lt. intros Hc. apply Qle_bool_iff in Hc. congruence. }
    split; [exact Hlow |].
    replace (ln - ld - 1 + 1)%Z with (ln - ld)%Z by lia. assumption.
Qed.

Lemma ilog2_unique x k :
  pow2 k <= x -> x < pow2 (k + 1) -> ilog2 x = k.
Proof.
  intros H1 H2.
  assert (Hx : 0 < x) by (pose proof (pow2_pos k); lra).
  destruct (ilog2_spec x Hx) as [H3 H4].
  assert (ilog2 x < k + 1)%Z.
  { apply (Qpower_lt_compat_l_inv (2 # 1)); [| reflexivity].
    fold (pow2 (ilog2 x)) (pow2 (k + 1)). lra. }
  assert (k < ilog2 x + 1)%Z.
  { apply (Qpower_lt_compat_l_inv (2 # 1)); [| reflexivity].
    fold (pow2 k) (pow2 (ilog2 x + 1)). lra. }
  lia.
Qed.

Lemma ilog2_mono x y : 0 < x -> x <= y -> (ilog2 x <= ilog2 y)%Z.
Proof.
  intros Hx Hxy.
  destruct (ilog2_spec x Hx) as [H1 _].
  destruct (ilog2_spec y) as [_ H2]; [lra |].
  assert (ilog2 x < ilog2 y + 1)%Z; [| lia].
  apply (Qpower_lt_compat_l_inv (2 # 1)); [| reflexivity].
  fold (pow2 (ilog2 x)) (pow2 (ilog2 y + 1)). lra.
Qed.

Lemma rne_bounds q : (Qfloor q <= rne q <= Qfloor q + 1)%Z.
Proof.
  unfold rne.
  destruct (Qcompare (q - inject_Z (Qfloor q)) (1 # 2));
    try destruct (Z.even (Qfloor q)); lia.
Qed.

Lemma rne_Z n : rne (inject_Z n) = n.
Proof.
  unfold rne. rewrite Qfloor_Z.
  destruct (Qcompare_spec (inject_Z n - inject_Z n) (1 # 2)) as [H | H | H].
  - exfalso. lra.
  - reflexivity.
  - exfalso. lra.
Qed.

Lemma rne_mono q1 q2 : q1 <= q2 -> (rne q1 <= rne q2)%Z.
Proof.
  intros H. pose proof (Qfloor_resp_le q1 q2 H) as Hf.
  pose proof (rne_bounds q1) as B1. pose proof (rne_bounds q2) as B2.
  destruct (Z.eq_dec (Qfloor q1) (Qfloor q2)) as [He | Hne]; [| lia].
  unfold rne in *. rewrite <- He in *.
  destruct (Qcompare_spec (q1 - inject_Z (Qfloor q1)) (1 # 2)) as [H1 | H1 | H1];
    destruct (Qcompare_spec (q2 - inject_Z (Qfloor q1)) (1 # 2)) as [H2 | H2 | H2];
    try destruct (Z.even (Qfloor q1)); try lia; exfalso; lra.
Qed.

Lemma rne_nonneg q : 0 <= q -> (0 <= rne q)%Z.
Proof.
  intros H. rewrite <- (rne_Z 0). apply rne_mono. exact H.
Qed.

(** *** The rounded magnitude of a positive rational is monotone *)

Section Rounding.

Variable fmt : format.
Hypothesis Hprec : (0 < prec fmt)%Z.

Lemma qexp_mono x y : 0 < x -> x <= y -> (qexp fmt x <= qexp fmt y)%Z.
Proof.
  intros Hx Hxy. unfold qexp. pose proof (ilog2_mono x y Hx Hxy). lia.
Qed.

Lemma scaled_mul x e : x / pow2 e * pow2 e == x.
Proof. pose proof (pow2_pos e). field. lra. Qed.

Lemma div_pow2_le x y e : x <= y -> x / pow2 e <= y / pow2 e.
Proof.
  intros H. pose proof (pow2_pos e) as P.
  unfold Qdiv. apply Qmult_le_compat_r; [exact H |].
  apply Qlt_le_weak. apply Qinv_lt_0_compat. exact P.
Qed.

Lemma pow2_div a b : pow2 a / pow2 b == pow2 (a - b).
Proof.
  pose proof (pow2_pos b). pose proof (pow2_sub a b). field_simplify_eq; lra.
Qed.

Lemma rpos_nonneg x : 0 < x -> 0 <= rpos fmt x.
Proof.
  intros Hx. unfold rpos. pose proof (pow2_pos (qexp fmt x)) as P.
  assert (0 <= x / pow2 (qexp fmt x)).
  { apply Qle_shift_div_l; lra. }
  pose proof (rne_nonneg _ H) as Hn.
  apply Qmult_le_0_compat; [| lra].
  rewrite Zle_Qle in Hn. exact Hn.
Qed.

Lemma rpos_lower x :
  0 < x -> qexp fmt x = (ilog2 x + 1 - prec fmt)%Z ->
  pow2 (ilog2 x) <= rpos fmt x.
Proof.
  intros Hx He. destruct (ilog2_spec x Hx) as [H1 _].
  unfold rpos. set (e := qexp fmt x) in *.
  pose proof (pow2_pos e) as P.
  assert (Hq : inject_Z (2 ^ (prec fmt - 1)) <= x / pow2 e).
  { rewrite <- pow2_Z by lia.
    replace (prec fmt - 1)%Z with (ilog2 x - e)%Z by lia.
    rewrite <- pow2_div. apply div_pow2_le. exact H1. }
  apply rne_mono in Hq. rewrite rne_Z in Hq.
  rewrite Zle_Qle in Hq. rewrite <- pow2_Z in Hq by lia.
  rewrite <- (pow2_sub (ilog2 x) e).
  replace (ilog2 x - e)%Z with (prec fmt - 1)%Z by lia.
  apply Qmult_le_compat_r; lra.
Qed.

Lemma rne_half_down q : q <= 1 # 2 -> (rne q <= 0)%Z.
Proof.
  intros H. apply rne_mono in H.
  assert (rne (1 # 2) = 0%Z) by reflexivity. lia.
Qed.

Lemma rpos_upper x : 0 < x -> rpos fmt x <= pow2 (ilog2 x + 1).
Proof.
  intros Hx. destruct (ilog2_spec x Hx) as [_ H2].
  unfold rpos. set (e := qexp fmt x).
  pose proof (pow2_pos e) as P.
  assert (Hd : x / pow2 e <= pow2 (ilog2 x + 1 - e)).
  { rewrite <- pow2_div. apply div_pow2_le. lra. }
  destruct (Z_lt_le_dec (ilog2 x + 1 - e) 0) as [Hneg | Hpos].
  - assert (pow2 (ilog2 x + 1 - e) <= pow2 (-1)) by (apply pow2_le; lia).
    change (pow2 (-1)) with (1 # 2) in H.
    assert (Hr : (rne (x / pow2 e) <= 0)%Z) by (apply rne_half_down; lra).
    rewrite Zle_Qle in Hr. change (inject_Z 0) with 0 in Hr.
    pose proof (pow2_pos (ilog2 x + 1)).
    assert (inject_Z (rne (x / pow2 e)) * pow2 e <= 0 * pow2 e)
      by (apply Qmult_le_compat_r; lra).
    lra.
  - assert (Hd' : x / pow2 e <= inject_Z (2 ^ (ilog2 x + 1 - e)))
      by (rewrite <- pow2_Z by exact Hpos; exact Hd).
    apply rne_mono in Hd'. rewrite rne_Z in Hd'. rewrite Zle_Qle in Hd'.
    rewrite <- (pow2_sub (ilog2 x + 1) e).
    rewrite (pow2_Z (ilog2 x + 1 - e)) by exact Hpos.
    apply Qmult_le_compat_r; lra.
Qed.

Lemma rpos_mono x y : 0 < x -> x <= y -> rpos fmt x <= rpos fmt y.
Proof.
  intros Hx Hxy. assert (Hy : 0 < y) by lra.
  pose proof (qexp_mono x y Hx Hxy) as He.
  destruct (Z.eq_dec (qexp fmt x) (qexp fmt y)) as [Heq | Hne].
  - unfold rpos. rewrite Heq. set (e := qexp fmt y).
    pose proof (pow2_pos e) as P.
    assert (Hr : (rne (x / pow2 e) <= rne (y / pow2 e))%Z)
      by (apply rne_mono, div_pow2_le; exact Hxy).
    rewrite Zle_Qle in Hr. apply Qmult_le_compat_r; lra.
  - assert (Hn : qexp fmt y = (ilog2 y + 1 - prec fmt)%Z)
      by (unfold qexp in *; lia).
    assert (Hl : (ilog2 x + 1 <= ilog2 y)%Z) by (unfold qexp in *; lia).
    pose proof (rpos_upper x Hx). pose proof (rpos_lower y Hy Hn).
    pose proof (pow2_le _ _ Hl). lra.
Qed.

End Rounding.

(** *** The key of a rounded rational, and the order it gives *)

Section Keys.

Variable fmt : format.
Hypothesis Hprec : (0 < prec fmt)%Z.

Lemma top_pos : 0 < top_of fmt.
Proof. apply pow2_pos. Qed.

Lemma clamp_cases r :
  (top_of fmt <= r /\ clamp fmt r = top_of fmt)
  \/ (r < top_of fmt /\ clamp fmt r = r).
Proof.
  unfold clamp. destruct (Qle_bool (top_of fmt) r) eqn:H.
  - left. split; [apply Qle_bool_iff; exact H | reflexivity].
  - right. split; [| reflexivity].
    apply Qnot_le_lt. intros Hc. apply Qle_bool_iff in Hc. congruence.
Qed.

Lemma clamp_mono r1 r2 : r1 <= r2 -> clamp fmt r1 <= clamp fmt r2.
Proof.
  intros H.
  destruct (clamp_cases r1) as [[H1 ->] | [H1 ->]];
    destruct (clamp_cases r2) as [[H2 ->] | [H2 ->]]; lra.
Qed.

Lemma clamp_bounds r : 0 <= r -> 0 <= clamp fmt r /\ clamp fmt r <= top_of fmt.
Proof.
  intros H. pose proof top_pos.
  destruct (clamp_cases r) as [[H1 ->] | [H1 ->]]; lra.
Qed.

Lemma clamp_rpos q :
  0 < q ->
  0 <= clamp fmt (rpos fmt q) /\ clamp fmt (rpos fmt q) <= top_of fmt.
Proof.
  intros H. apply clamp_bounds. apply rpos_nonneg; assumption.
Qed.

Lemma rk_bounds q : - top_of fmt <= rk fmt q /\ rk fmt q <= top_of fmt.
Proof.
  pose proof top_pos as HP. unfold rk.
  destruct (Qcompare_spec q 0) as [H | H | H].
  - lra.
  - assert (Hq : 0 < - q) by lra. pose proof (clamp_rpos _ Hq). lra.
  - pose proof (clamp_rpos _ H). lra.
Qed.

Lemma rk_nonneg q : 0 <= q -> 0 <= rk fmt q.
Proof.
  intros Hq. unfold rk.
  destruct (Qcompare_spec q 0) as [H | H | H]; try lra.
  pose proof (clamp_rpos _ H). lra.
Qed.

Lemma rk_mono q1 q2 : q1 <= q2 -> rk fmt q1 <= rk fmt q2.
Proof.
  intros H. unfold rk.
  destruct (Qcompare_spec q1 0) as [H1 | H1 | H1];
    destruct (Qcompare_spec q2 0) as [H2 | H2 | H2]; try lra.
  - pose proof (clamp_rpos _ H2). lra.
  - assert (Hq : 0 < - q1) by lra. pose proof (clamp_rpos _ Hq). lra.
  - assert (Hq1 : 0 < - q1) by lra. assert (Hq2 : 0 < - q2) by lra.
    assert (Hm : rpos fmt (- q2) <= rpos fmt (- q1))
      by (apply rpos_mono; [exact Hprec | lra | lra]).
    pose proof (clamp_mono _ _ Hm). lra.
  - assert (Hq : 0 < - q1) by lra. pose proof (clamp_rpos _ Hq).
    pose proof (clamp_rpos _ H2). lra.
  - apply clamp_mono. apply rpos_mono; [exact Hprec | lra | lra].
Qed.

Lemma rk_comp q1 q2 : q1 == q2 -> rk fmt q1 == rk fmt q2.
Proof.
  intros H. apply Qle_antisym; apply rk_mono; lra.
Qed.

Lemma rk_zero q : q == 0 -> rk fmt q == 0.
Proof.
  intros H. rewrite (rk_comp q 0 H). reflexivity.
Qed.

Lemma round_key q :
  key fmt (round fmt q) == rk fmt q /\ wf fmt (round fmt q).
Proof.
  pose proof top_pos as HP. unfold round, rk.
  destruct (Qcompare_spec q 0) as [H | H | H].
  - split; [reflexivity | exact I].
  - assert (0 <= rpos fmt (- q)) as Hr by (apply rpos_nonneg; lra).
    cbv zeta.
    destruct (Qeq_bool (rpos fmt (- q)) 0) eqn:Hz.
    + apply Qeq_bool_iff in Hz. split; [| exact I]. cbn [key wf].
      destruct (clamp_cases (rpos fmt (- q))) as [[H1 ->] | [H1 ->]]; lra.
    + fold (top_of fmt). unfold clamp.
      destruct (Qle_bool (top_of fmt) (rpos fmt (- q))) eqn:Ht.
      * split; [reflexivity | exact I].
      * assert (rpos fmt (- q) < top_of fmt).
        { apply Qnot_le_lt. intros Hc. apply Qle_bool_iff in Hc. congruence. }
        pose proof (Qred_correct (- rpos fmt (- q))) as Hre.
        cbn [key wf]. split; [| split]; lra.
  - pose proof (rpos_nonneg fmt q H) as Hr.
    cbv zeta.
    destruct (Qeq_bool (rpos fmt q) 0) eqn:Hz.
    + apply Qeq_bool_iff in Hz. split; [| exact I]. cbn [key wf].
      destruct (clamp_cases (rpos fmt q)) as [[H1 ->] | [H1 ->]]; lra.
    + fold (top_of fmt). unfold clamp.
      destruct (Qle_bool (top_of fmt) (rpos fmt q)) eqn:Ht.
      * split; [reflexivity | exact I].
      * assert (rpos fmt q < top_of fmt).
        { apply Qnot_le_lt. intros Hc. apply Qle_bool_iff in Hc. congruence. }
        pose proof (Qred_correct (rpos fmt q)) as Hre.
        cbn [key wf]. split; [| split]; lra.
Qed.

Lemma fle_of_key x y :
  wf fmt x -> wf fmt y -> key fmt x <= key fmt y -> fle x y = true.
Proof.
  pose proof top_pos as HP.
  destruct x as [| s | s | v], y as [| t | t | w]; simpl;
    try contradiction; intros Hx Hy Hk;
    try (destruct s); try (destruct t); try reflexivity;
    try (apply Qle_bool_iff; simpl; lra); exfalso; lra.
Qed.

End Keys.

(** *** The keys of a product, a quotient and a sum *)

Section Operations.

Variable fmt : format.
Hypothesis Hprec : (0 < prec fmt)%Z.

Lemma key_mul x c :
  finite x = true -> finite c = true ->
  key fmt (mul fmt x c) == rk fmt (key fmt x * key fmt c)
  /\ wf fmt (mul fmt x c).
Proof.
  destruct x as [| s | s | v], c as [| t | t | w]; try discriminate;
    intros _ _; cbn [mul key].
  - split; [| exact I]. symmetry. apply rk_zero; [exact Hprec | ring].
  - split; [| exact I]. symmetry. apply rk_zero; [exact Hprec | ring].
  - split; [| exact I]. symmetry. apply rk_zero; [exact Hprec | ring].
  - apply round_key.
Qed.

Lemma is_neg_pos v : 0 < v -> is_neg (FNum v) = false.
Proof.
  intros H. cbn [is_neg].
  destruct (Qcompare_spec v 0) as [H1 | H1 | H1]; try reflexivity.
  exfalso. lra.
Qed.

(** The key of a quotient by a positive number and of a sum with a finite
    number, as functions of the key of the other operand. *)
Lemma key_div y vd :
  wf fmt y -> 0 <= key fmt y -> 0 < vd ->
  key fmt (div fmt y (FNum vd))
  == (if Qle_bool (top_of fmt) (key fmt y) then top_of fmt
      else rk fmt (key fmt y / vd))
  /\ wf fmt (div fmt y (FNum vd)).
Proof.
  pose proof (top_pos fmt) as HP. intros Hwf Hk Hvd.
  destruct y as [| s | s | v]; cbn [wf key] in *; try contradiction.
  - destruct s; [exfalso; lra |].
    cbn [div]. rewrite (is_neg_pos vd Hvd). cbn [is_neg xorb key].
    assert (Qle_bool (top_of fmt) (top_of fmt) = true) as ->
      by (apply Qle_bool_iff; lra).
    split; [reflexivity | exact I].
  - cbn [div key].
    assert (Qle_bool (top_of fmt) 0 = false) as ->.
    { destruct (Qle_bool (top_of fmt) 0) eqn:Hb; [| reflexivity].
      apply Qle_bool_iff in Hb. exfalso. lra. }
    split; [| exact I]. symmetry. apply rk_zero; [exact Hprec |].
    field. lra.
  - cbn [div].
    assert (Qle_bool (top_of fmt) v = false) as ->.
    { destruct (Qle_bool (top_of fmt) v) eqn:Hb; [| reflexivity].
      apply Qle_bool_iff in Hb. exfalso. lra. }
    apply round_key.
Qed.

Lemma key_add a z :
  finite a = true -> wf fmt z -> 0 <= key fmt z ->
  key fmt (add fmt a z)
  == (if Qle_bool (top_of fmt) (key fmt z) then top_of fmt
      else rk fmt (key fmt a + key fmt z))
  /\ wf fmt (add fmt a z).
Proof.
  pose proof (top_pos fmt) as HP. intros Ha Hwf Hk.
  assert (Hzero : Qle_bool (top_of fmt) 0 = false).
  { destruct (Qle_bool (top_of fmt) 0) eqn:Hb; [| reflexivity].
    apply Qle_bool_iff in Hb. exfalso. lra. }
  destruct z as [| s | s | v]; cbn [wf key] in *; try contradiction.
  - destruct s; [exfalso; lra |].
    assert (Qle_bool (top_of fmt) (top_of fmt) = true) as ->
      by (apply Qle_bool_iff; lra).
    destruct a; try discriminate; cbn [add key]; split;
      (reflexivity || exact I).
  - rewrite Hzero.
    destruct a as [| t | t | w]; try discriminate; cbn [add key].
    + split; [| exact I]. symmetry. apply rk_zero; [exact Hprec | ring].
    + destruct (round_key fmt w) as [Hr Hw]. split; [| exact Hw].
      rewrite Hr. apply rk_comp; [exact Hprec | ring].
  - assert (Qle_bool (top_of fmt) v = false) as ->.
    { destruct (Qle_bool (top_of fmt) v) eqn:Hb; [| reflexivity].
      apply Qle_bool_iff in Hb. exfalso. lra. }
    destruct a as [| t | t | w]; try discriminate; cbn [add key].
    + destruct (round_key fmt v) as [Hr Hw]. split; [| exact Hw].
      rewrite Hr. apply rk_comp; [exact Hprec | ring].
    + apply round_key.
Qed.

(** Both functions of the key are monotone. *)
Lemma key_div_mono k1 k2 vd :
  0 < vd -> k1 <= k2 ->
  (if Qle_bool (top_of fmt) k1 then top_of fmt else rk fmt (k1 / vd))
  <= (if Qle_bool (top_of fmt) k2 then top_of fmt else rk fmt (k2 / vd)).
Proof.
  intros Hvd Hk.
  destruct (Qle_bool (top_of fmt) k2) eqn:H2.
  - destruct (Qle_bool (top_of fmt) k1); [lra |].
    apply rk_bounds.
  - destruct (Qle_bool (top_of fmt) k1) eqn:H1.
    + apply Qle_bool_iff in H1.
      assert (top_of fmt <= k2) as Hc by lra.
      apply Qle_bool_iff in Hc. congruence.
    + apply rk_mono; [exact Hprec |].
      unfold Qdiv. apply Qmult_le_compat_r; [exact Hk |].
      apply Qlt_le_weak, Qinv_lt_0_compat. exact Hvd.
Qed.

Lemma key_add_mono ka k1 k2 :
  k1 <= k2 ->
  (if Qle_bool (top_of fmt) k1 then top_of fmt else rk fmt (ka + k1))
  <= (if Qle_bool (top_of fmt) k2 then top_of fmt else rk fmt (ka + k2)).
Proof.
  intros Hk.
  destruct (Qle_bool (top_of fmt) k2) eqn:H2.
  - destruct (Qle_bool (top_of fmt) k1); [lra |].
    apply rk_bounds.
  - destruct (Qle_bool (top_of fmt) k1) eqn:H1.
    + apply Qle_bool_iff in H1.
      assert (top_of fmt <= k2) as Hc by lra.
      apply Qle_bool_iff in Hc. congruence.
    + apply rk_mono; [exact Hprec | lra].
Qed.

End Operations.

(** *** Rounded integers are finite *)

Section Integers.

Variable fmt : format.
Hypothesis Hprec : (0 < prec fmt)%Z.

Lemma clamp_le r : 0 <= r -> clamp fmt r <= r.
Proof.
  intros H. destruct (clamp_cases fmt r) as [[H1 ->] | [H1 ->]]; lra.
Qed.

Lemma rk_below q k :
  0 <= q -> q < pow2 k -> (k < emax fmt)%Z -> rk fmt q < top_of fmt.
Proof.
  intros Hq Hk He. pose proof (top_pos fmt) as HP. unfold rk.
  destruct (Qcompare_spec q 0) as [H | H | H]; try lra.
  pose proof (rpos_nonneg fmt q H) as Hn.
  pose proof (clamp_le _ Hn) as Hc.
  pose proof (rpos_upper fmt q H) as Hu.
  destruct (ilog2_spec q H) as [Hl _].
  assert (ilog2 q < k)%Z.
  { apply (Qpower_lt_compat_l_inv (2 # 1)); [| reflexivity].
    fold (pow2 (ilog2 q)) (pow2 k). lra. }
  assert (pow2 (ilog2 q + 1) <= pow2 k) by (apply pow2_le; lia).
  assert (pow2 k < top_of fmt) by (apply pow2_lt; exact He).
  lra.
Qed.

Lemma round_finite q k :
  0 <= q -> q < pow2 k -> (k < emax fmt)%Z -> finite (round fmt q) = true.
Proof.
  intros Hq Hk He. pose proof (top_pos fmt) as HP.
  pose proof (rk_below q k Hq Hk He) as Hb.
  pose proof (rk_nonneg fmt q Hq) as Hn.
  destruct (round_key fmt q) as [Hkey Hwf].
  destruct (round fmt q) as [| s | s | v]; cbn [key wf finite] in *;
    try reflexivity; try contradiction.
  destruct s; exfalso; lra.
Qed.

Lemma round_positive q :
  1 <= q -> (2 <= emax fmt)%Z -> 0 < rk fmt q.
Proof.
  intros Hq He. pose proof (top_pos fmt) as HP.
  assert (H : 0 < q) by lra. unfold rk.
  destruct (Qcompare_spec q 0) as [H1 | H1 | H1]; try lra.
  assert (Hl : (0 <= ilog2 q)%Z).
  { change 0%Z with (ilog2 1). apply ilog2_mono; lra. }
  assert (Hn : qexp fmt q = (ilog2 q + 1 - prec fmt)%Z)
    by (unfold qexp; lia).
  pose proof (rpos_lower fmt Hprec q H Hn) as Hlow.
  pose proof (pow2_pos (ilog2 q)).
  destruct (clamp_cases fmt (rpos fmt q)) as [[Hc ->] | [Hc ->]]; lra.
Qed.

End Integers.

(** [round] and the operations agree with the Standard Library's
    [SpecFloat] where they are compared: ties to even, an inexact quotient
    and sum, a negative operand, a subnormal product, an underflow to zero,
    an overflow, and binary64. *)
Lemma operations_match_SpecFloat :
  of_int binary32 16777217 = of_spec (sf32 16777217 0)
  /\ of_int binary32 16777219 = of_spec (sf32 16777219 0)
  /\ div binary32 (mul binary32 (of_spec (sf32 1000000 0)) (of_spec (sf32 54 0)))
       (of_spec (sf32 538 0))
     = of_spec (SFdiv 24 128
                  (SFmul 24 128 (sf32 1000000 0) (sf32 54 0)) (sf32 538 0))
  /\ add binary32 (div binary32 (of_spec (sf32 (-1) 0)) (of_spec (sf32 3 0)))
       (of_spec (sf32 1000 0))
     = of_spec (SFadd 24 128
                  (SFdiv 24 128 (sf32 (-1) 0) (sf32 3 0)) (sf32 1000 0))
  /\ sub binary32 (of_spec (sf32 1 (-30))) (of_spec (sf32 3 5))
     = of_spec (SFsub 24 128 (sf32 1 (-30)) (sf32 3 5))
  /\ mul binary32 (of_spec (sf32 3 (-140))) (of_spec (sf32 5 (-12)))
     = of_spec (SFmul 24 128 (sf32 3 (-140)) (sf32 5 (-12)))
  /\ mul binary32 (of_spec (sf32 3 (-100))) (of_spec (sf32 5 (-60)))
     = of_spec (SFmul 24 128 (sf32 3 (-100)) (sf32 5 (-60)))
  /\ mul binary32 (of_spec (sf32 3 100)) (of_spec (sf32 (-5) 30))
     = of_spec (SFmul 24 128 (sf32 3 100) (sf32 (-5) 30))
  /\ div binary64 (of_spec (sf64 764 0)) (of_spec (sf64 3 0))
     = of_spec (SFdiv 53 1024 (sf64 764 0) (sf64 3 0))
  /\ of_int binary64 9007199254740993 = of_spec (sf64 9007199254740993 0).
Proof. repeat split; vm_compute; reflexivity. Qed.

End FloatFacts.

(** ** The scrollbar *)

Module ScrollbarFacts.

Import Float Trace Scrollbar Samples DragSpec BaseFacts.

Lemma recalc_idempotent sb :
  recalcElementPositions (recalcElementPositions sb)
  = recalcElementPositions sb.
Proof. reflexivity. Qed.

(** C6, as amended.  [setPosition(max, position)] stores [position] as the
    maximum when [max <= 0] and [max] otherwise, and stores the smaller of
    [position] and that maximum as the position: the position is clamped
    from above only.  After every call scrollPosition <= maxScrollPosition,
    and 0 <= scrollPosition whenever position >= 0.  The zone rectangles are
    those recomputed from the new state. *)
Theorem setPosition_clamps sb max position :
  let sb1 := setPosition sb max position in
  maxScrollPosition sb1 = (if max <=? 0 then position else max)
  /\ scrollPosition sb1 = Z.min position (maxScrollPosition sb1)
  /\ scrollPosition sb1 <= maxScrollPosition sb1
  /\ (0 <= position <-> 0 <= scrollPosition sb1)
  /\ sb1 = recalcElementPositions
             (set_scroll sb (maxScrollPosition sb1) (scrollPosition sb1))
  /\ recalcElementPositions sb1 = sb1.
Proof.
  intros sb1. unfold sb1, setPosition.
  cbn [maxScrollPosition scrollPosition recalcElementPositions set_scroll].
  rewrite Z.gtb_ltb.
  destruct (max <=? 0) eqn:Hmax.
  - apply Z.leb_le in Hmax. rewrite Z.ltb_irrefl, Z.min_id.
    repeat split; try reflexivity; lia.
  - apply Z.leb_gt in Hmax.
    destruct (max <? position) eqn:Hp.
    + apply Z.ltb_lt in Hp. rewrite Z.min_r by lia.
      repeat split; try reflexivity; lia.
    + apply Z.ltb_ge in Hp. rewrite Z.min_l by lia.
      repeat split; try reflexivity; lia.
Qed.

(** C6 as stated fails for a negative position: nothing clamps it to 0. *)
Lemma setPosition_negative_counterexample :
  scrollPosition (setPosition sampleScrollbar 5 (-3)) = -3
  /\ maxScrollPosition (setPosition sampleScrollbar 5 (-3)) = 5
  /\ ~ (0 <= scrollPosition (setPosition sampleScrollbar 5 (-3))
        <= maxScrollPosition (setPosition sampleScrollbar 5 (-3))).
Proof.
  split; [reflexivity |]. split; [reflexivity |].
  cbn [setPosition scrollPosition maxScrollPosition recalcElementPositions
       set_scroll]. simpl. lia.
Qed.

(** C9, as amended.  The hit test converts the point to the coordinates of
    the control and returns the first zone that matches, in this order of
    precedence: the upper arrow, the bottom arrow, the rectangle between the
    thumb and the bottom arrow, the rectangle between the upper arrow and the
    thumb; a point in none of them is on the thumb. *)
Theorem mouseHitTest_zones sb px py :
  let x := convert binary32 (sub binary64 px (convert binary64 (left (position sb)))) in
  let y := convert binary32 (sub binary64 py (convert binary64 (top (position sb)))) in
  mouseHitTest sb px py
  = if isInside (positionUpperArrow sb) x y then UpperArrow
    else if isInside (positionBottomArrow sb) x y then BottomArrow
    else if isInside (bottomSpaceOf sb) x y then BottomSpace
    else if isInside (upperSpaceOf sb) x y then UpperSpace
    else Thumb.
Proof.
  intros x y. unfold mouseHitTest. fold (localX sb px) (localY sb py).
  unfold x, y. fold (localX sb px) (localY sb py).
  destruct (isInside (positionUpperArrow sb) _ _); [reflexivity |].
  destruct (isInside (positionBottomArrow sb) _ _); [reflexivity |].
  destruct (isInside (bottomSpaceOf sb) _ _); [reflexivity |].
  destruct (isInside (upperSpaceOf sb) _ _); reflexivity.
Qed.

(** C9 as stated fails where the arrows overlap: in a control 30 pixels
    high the point (5, 15) lies inside the bottom arrow rectangle and the
    hit test answers the upper arrow. *)
Lemma mouseHitTest_overlap_counterexample :
  isInside (positionBottomArrow shortScrollbar)
    (localX shortScrollbar (f64 785)) (localY shortScrollbar (f64 16)) = true
  /\ mouseHitTest shortScrollbar (f64 785) (f64 16) = UpperArrow
  /\ mouseHitTest shortScrollbar (f64 785) (f64 16) <> BottomArrow.
Proof.
  split; [vm_compute; reflexivity |].
  split; [vm_compute; reflexivity |].
  vm_compute. discriminate.
Qed.

(** The calls of a move during a drag: the count it logs and books is the
    difference between the target delta and the cumulative delta, the
    count it sends is that difference reduced to 16 bits. *)
Lemma drag_move_calls sb px py :
  thumbIsDragging sb = true ->
  let delta := newPositionDelta sb py in
  let cumulative := scrollPositionDelta sb in
  let result := mouseMoveCallback sb px py in
  let said := Debugf "new thumbTop: %f, fact thumbTop: %f, position: %d"
                [LogFloat (newThumbTop sb py);
                 LogFloat (top (positionThumb (fst result)));
                 LogInt (scrollPosition sb)] in
  (cumulative < delta ->
   snd result
   = [Debugf "old position: %d, new position delta: %d, scroll down %d lines"
        [LogInt (scrollPosition sb); LogInt delta;
         LogInt (GoInt.sub delta cumulative)];
      ScreenScrollDown (GoInt.uint16 (GoInt.sub delta cumulative)); said])
  /\ (delta < cumulative ->
      snd result
      = [Debugf "old position: %d, new position delta: %d, scroll up %d lines"
           [LogInt (scrollPosition sb); LogInt delta;
            LogInt (GoInt.sub cumulative delta)];
         ScreenScrollUp (GoInt.uint16 (GoInt.sub cumulative delta)); said])
  /\ (delta = cumulative -> snd result = [said])
  /\ scrollPositionDelta (fst result) = delta
  /\ recalcElementPositions (fst result) = fst result.
Proof.
  intros Hdrag delta cumulative result said.
  unfold said, result, mouseMoveCallback. rewrite Hdrag.
  fold delta. fold cumulative.
  rewrite Z.gtb_ltb.
  destruct (cumulative <? delta) eqn:Hdown.
  - apply Z.ltb_lt in Hdown. cbn [fst snd app].
    split; [reflexivity |]. split; [intros; lia |]. split; [intros; lia |].
    split; reflexivity.
  - apply Z.ltb_ge in Hdown.
    destruct (delta <? cumulative) eqn:Hup.
    + apply Z.ltb_lt in Hup. cbn [fst snd app].
      split; [intros; lia |]. split; [reflexivity |]. split; [intros; lia |].
      split; reflexivity.
    + apply Z.ltb_ge in Hup. cbn [fst snd app].
      split; [intros; lia |]. split; [intros; lia |]. split; [reflexivity |].
      split; [| reflexivity]. unfold cumulative in *. cbn. lia.
Qed.

(** C1.  The claim holds in all but the count sent.  On the sample
    scrollbar over a scrollback of a million lines, dragged from y = 26, a
    move to y = 100 gives the target delta 100371 against a cumulative delta
    of 0, by the formula of the claim with the arrow height, the thumb
    height and the track bottom of the control as well as by the code.  The
    code logs "scroll down 100371 lines" and books 100371 as the cumulative
    delta, and the one command it sends scrolls down by 34835 lines, the
    count reduced to 16 bits. *)
Theorem thumb_drag_sends_reduced_count :
  thumbIsDragging draggedScrollbar = true
  /\ scrollPositionDelta draggedScrollbar = 0
  /\ specDelta draggedScrollbar (f64 100) = 100371
  /\ newPositionDelta draggedScrollbar (f64 100) = 100371
  /\ firstn 2 (snd (mouseMoveCallback draggedScrollbar (f64 790) (f64 100)))
     = [Debugf
          "old position: %d, new position delta: %d, scroll down %d lines"
          [LogInt 0; LogInt 100371; LogInt 100371];
        ScreenScrollDown 34835]
  /\ filter ScrollbarRuns.isScrollCommand
       (snd (mouseMoveCallback draggedScrollbar (f64 790) (f64 100)))
     = [ScreenScrollDown 34835]
  /\ filter ScrollbarRuns.isScrollCommand
       (snd (mouseMoveCallback draggedScrollbar (f64 790) (f64 100)))
     <> [ScreenScrollDown (100371 - 0)]
  /\ scrollPositionDelta
       (fst (mouseMoveCallback draggedScrollbar (f64 790) (f64 100)))
     = 100371.
Proof.
  repeat split; try (vm_compute; reflexivity).
  vm_compute. discriminate.
Qed.

(** The thumb height that enters the target delta is the height of the
    stored thumb rectangle, its bottom less its top in [float32], where the
    bottom is the top plus the width of the control.  It is not always that
    width: at the position 965 of 1000 in a control 550 pixels high it is
    655359/32768 for a width of 20, and a move from y = 505 to y = 476 then
    scrolls up by 99 lines where the formula with a thumb height of 20 gives
    a delta of -100. *)
Lemma thumb_height_is_rounded :
  thumbIsDragging lowDraggedScrollbar = true
  /\ scrollPositionDelta lowDraggedScrollbar = 0
  /\ thumbHeight lowDraggedScrollbar = FNum 20
  /\ height (positionThumb lowDraggedScrollbar) = FNum (655359 # 32768)
  /\ specDelta lowDraggedScrollbar (f64 476) = -100
  /\ newPositionDelta lowDraggedScrollbar (f64 476) = -99
  /\ filter ScrollbarRuns.isScrollCommand
       (snd (mouseMoveCallback lowDraggedScrollbar (f64 790) (f64 476)))
     = [ScreenScrollUp 99].
Proof. repeat split; vm_compute; reflexivity. Qed.

(** Where the zones have been recomputed, the bounds of the thumb top that a
    drag uses are those of the control: the arrow height, and the track
    bottom less the arrow height less the height of the stored thumb. *)
Lemma drag_bounds_of_the_control sb0 :
  let sb := recalcElementPositions sb0 in
  let thumbTop :=
    thumbTopOf (position sb) (scrollPosition sb) (maxScrollPosition sb) in
  minThumbTop sb = arrowHeight sb
  /\ top (positionBottomArrow sb)
     = sub binary32 (trackBottom sb) (arrowHeight sb)
  /\ height (positionThumb sb)
     = sub binary32 (add binary32 thumbTop (thumbHeight sb)) thumbTop
  /\ maxThumbTop sb
     = sub binary32 (sub binary32 (trackBottom sb) (arrowHeight sb))
         (sub binary32 (add binary32 thumbTop (thumbHeight sb)) thumbTop)
  /\ (height (positionThumb sb) = thumbHeight sb ->
      forall py, newPositionDelta sb py = specDelta sb py).
Proof.
  intros sb thumbTop.
  split; [reflexivity |]. split; [reflexivity |]. split; [reflexivity |].
  split; [reflexivity |].
  intros H py. unfold newPositionDelta, specDelta, maxThumbTop.
  rewrite H. reflexivity.
Qed.

End ScrollbarFacts.

(** ** The travel of the thumb *)

Module ThumbFacts.

Import Float Scrollbar Samples FloatFacts.

Local Open Scope Q_scope.

Lemma prec32 : (0 < prec binary32)%Z.
Proof. reflexivity. Qed.

Lemma f32_int n :
  (0 <= n <= GoInt.max_int)%Z ->
  finite (f32 n) = true /\ wf binary32 (f32 n)
  /\ key binary32 (f32 n) == rk binary32 (inject_Z n)
  /\ 0 <= key binary32 (f32 n).
Proof.
  intros Hn. unfold f32, of_int.
  assert (H0 : 0 <= inject_Z n)
    by (change 0 with (inject_Z 0); rewrite <- Zle_Qle; lia).
  destruct (round_key binary32 (inject_Z n)) as [Hk Hw].
  split; [| split; [exact Hw | split; [exact Hk |]]].
  - apply (round_finite binary32 (inject_Z n) 63); try assumption.
    + rewrite pow2_Z by lia. rewrite <- Zlt_Qlt.
      unfold GoInt.max_int in Hn. lia.
    + reflexivity.
  - rewrite Hk. apply rk_nonneg. exact H0.
Qed.

Lemma f32_positive n :
  (1 <= n <= GoInt.max_int)%Z ->
  exists v, f32 n = FNum v /\ 0 < v.
Proof.
  intros Hn. destruct (f32_int n) as (Hf & Hw & Hk & _); [lia |].
  assert (Hp : 0 < rk binary32 (inject_Z n)).
  { apply round_positive; [exact prec32 | | simpl; lia].
    change 1 with (inject_Z 1). rewrite <- Zle_Qle. lia. }
  destruct (f32 n) as [| s | s | v]; try discriminate; cbn [key] in Hk.
  - exfalso. lra.
  - exists v. split; [reflexivity | lra].
Qed.

Lemma width_finite pos :
  finite (usableTrack pos) = true -> finite (width pos) = true.
Proof.
  unfold usableTrack. destruct (width pos) as [| s | s | v];
    try reflexivity; intros H; exfalso.
  - destruct (sub binary32 (height pos) FNaN); discriminate.
  - cbn [mul is_neg f32] in H.
    destruct (sub binary32 (height pos) (FInf s)) as [| t | t | w];
      cbn in H; try discriminate.
    destruct s, t; discriminate.
Qed.

Lemma roomForThumb_key pos :
  roomForThumb pos = true ->
  finite (usableTrack pos) = true /\ 0 <= key binary32 (usableTrack pos).
Proof.
  unfold roomForThumb. intros H. apply andb_true_iff in H.
  destruct H as [Hf Hle]. split; [exact Hf |].
  destruct (usableTrack pos) as [| s | s | v]; cbn [finite key] in *.
  - discriminate Hf.
  - discriminate Hf.
  - lra.
  - cbn in Hle. apply Qle_bool_iff in Hle. exact Hle.
Qed.

Lemma thumbTopOf_monotone pos max p1 p2 :
  (0 < max <= GoInt.max_int)%Z ->
  (0 <= p1)%Z -> (p1 <= p2)%Z -> (p2 <= max)%Z ->
  roomForThumb pos = true ->
  fle (thumbTopOf pos p1 max) (thumbTopOf pos p2 max) = true.
Proof.
  intros Hmax H1 H12 H2 Hroom.
  destruct (roomForThumb_key pos Hroom) as [Hcf Hck].
  pose proof (width_finite pos Hcf) as Hwf.
  unfold thumbTopOf. fold (usableTrack pos).
  assert ((max =? 0)%Z = false) as -> by (apply Z.eqb_neq; lia).
  destruct (f32_positive max) as (vd & Hd & Hvd); [lia |]. rewrite Hd.
  destruct (f32_int p1) as (Hf1 & _ & Hk1 & Hn1); [lia |].
  destruct (f32_int p2) as (Hf2 & _ & Hk2 & Hn2); [lia |].
  set (c := usableTrack pos) in *.
  destruct (key_mul binary32 prec32 (f32 p1) c Hf1 Hcf) as [Hm1 Wm1].
  destruct (key_mul binary32 prec32 (f32 p2) c Hf2 Hcf) as [Hm2 Wm2].
  set (m1 := mul binary32 (f32 p1) c) in *.
  set (m2 := mul binary32 (f32 p2) c) in *.
  assert (Hkk : key binary32 (f32 p1) <= key binary32 (f32 p2)).
  { rewrite Hk1, Hk2. apply rk_mono; [exact prec32 |].
    rewrite <- Zle_Qle. exact H12. }
  assert (Hmm : key binary32 m1 <= key binary32 m2).
  { rewrite Hm1, Hm2. apply rk_mono; [exact prec32 |].
    apply Qmult_le_compat_r; assumption. }
  assert (Hmn : 0 <= key binary32 m1).
  { rewrite Hm1. apply rk_nonneg. apply Qmult_le_0_compat; assumption. }
  assert (Hmn2 : 0 <= key binary32 m2) by lra.
  destruct (key_div binary32 prec32 m1 vd Wm1 Hmn Hvd) as [Hd1 Wd1].
  destruct (key_div binary32 prec32 m2 vd Wm2 Hmn2 Hvd) as [Hd2 Wd2].
  set (d1 := div binary32 m1 (FNum vd)) in *.
  set (d2 := div binary32 m2 (FNum vd)) in *.
  pose proof (key_div_mono binary32 prec32 _ _ vd Hvd Hmm) as Hdd.
  rewrite <- Hd1, <- Hd2 in Hdd.
  assert (Hdn : 0 <= key binary32 d1).
  { rewrite Hd1. pose proof (top_pos binary32).
    destruct (Qle_bool (top_of binary32) (key binary32 m1)); [lra |].
    apply rk_nonneg. apply Qle_shift_div_l; lra. }
  assert (Hdn2 : 0 <= key binary32 d2) by lra.
  destruct (key_add binary32 prec32 (width pos) d1 Hwf Wd1 Hdn) as [Ha1 Wa1].
  destruct (key_add binary32 prec32 (width pos) d2 Hwf Wd2 Hdn2) as [Ha2 Wa2].
  apply (fle_of_key binary32); try assumption.
  rewrite Ha1, Ha2. apply key_add_mono; [exact prec32 | exact Hdd].
Qed.

Local Close Scope Q_scope.

(** C2, as amended.  For every max > 0, every control bounding rectangle
    whose track has room for the thumb (trackHeight - thumbHeight -
    2*arrowHeight, computed in float32, is a finite number and at least 0)
    and every pair of positions 0 <= p1 <= p2 <= max, the thumb top that the
    recomputation of the zones produces at p1 is less than or equal to the one
    it produces at p2, where thumb top = arrowHeight + position *
    (trackHeight - thumbHeight - 2*arrowHeight) / max in float32. *)
Theorem thumb_top_monotone sb max p1 p2 :
  0 < max <= GoInt.max_int ->
  0 <= p1 -> p1 <= p2 -> p2 <= max ->
  roomForThumb (position sb) = true ->
  let thumbTop p :=
    top (positionThumb (recalcElementPositions (set_scroll sb max p))) in
  fle (thumbTop p1) (thumbTop p2) = true
  /\ (forall p,
        thumbTop p
        = add binary32 (width (position sb))
            (div binary32
               (mul binary32 (f32 p)
                  (sub binary32
                     (sub binary32 (height (position sb)) (width (position sb)))
                     (mul binary32 (width (position sb)) (f32 2))))
               (f32 max))).
Proof.
  intros Hmax H1 H12 H2 Hroom thumbTop. split.
  - unfold thumbTop.
    cbn [recalcElementPositions positionThumb top set_scroll position
         scrollPosition maxScrollPosition].
    apply thumbTopOf_monotone; assumption.
  - intros p. unfold thumbTop.
    cbn [recalcElementPositions positionThumb top set_scroll position
         scrollPosition maxScrollPosition].
    unfold thumbTopOf.
    assert ((max =? 0) = false) as -> by (apply Z.eqb_neq; lia).
    reflexivity.
Qed.

Lemma thumb_top_monotone_witness :
  fle (top (positionThumb
              (recalcElementPositions (set_scroll sampleScrollbar 100 10))))
      (top (positionThumb
              (recalcElementPositions (set_scroll sampleScrollbar 100 50))))
  = true.
Proof.
  refine (proj1 (thumb_top_monotone sampleScrollbar 100 10 50 _ _ _ _ _)).
  - unfold GoInt.max_int. lia.
  - lia.
  - lia.
  - lia.
  - vm_compute. reflexivity.
Defined.

(** C2 as stated fails for a control too short for its thumb: in a window
    50 pixels high the track is 48 pixels for 60 of arrows and thumb, and with
    max = 1 the thumb top is 20 at position 0 and 8 at position 1. *)
Lemma thumb_top_short_track_counterexample :
  top (positionThumb (recalcElementPositions (set_scroll lowScrollbar 1 0)))
  = f32 20
  /\ top (positionThumb (recalcElementPositions (set_scroll lowScrollbar 1 1)))
     = f32 8
  /\ fle (top (positionThumb
                (recalcElementPositions (set_scroll lowScrollbar 1 0))))
         (top (positionThumb
                (recalcElementPositions (set_scroll lowScrollbar 1 1))))
     = false.
Proof. repeat split; vm_compute; reflexivity. Qed.

End ThumbFacts.

(** ** Rectangles and the zones of the scrollbar *)

Module GeometryFacts.

Import Float Trace Scrollbar ScrollbarRuns Samples BaseFacts.

Lemma Qle_bool_false a b : Qle_bool a b = false -> (b < a)%Q.
Proof.
  intros H. apply Qnot_le_lt. intros Hc. apply Qle_bool_iff in Hc. congruence.
Qed.

Ltac float_order :=
  repeat match goal with
         | H : Qle_bool _ _ = true |- _ => apply Qle_bool_iff in H
         | H : Qle_bool _ _ = false |- _ => apply Qle_bool_false in H
         | H : negb _ = true |- _ => apply negb_true_iff in H
         | H : negb _ = false |- _ => apply negb_false_iff in H
         end.

(** No value lies in [l, r) when [r <= l]. *)
Lemma no_value_between l x r :
  fle l x = true -> flt x r = true -> fle r l = false.
Proof.
  destruct l as [| a | a | u], x as [| b | b | v], r as [| c | c | w];
    cbn [fle flt val]; intros H1 H2;
    try discriminate; try reflexivity;
    try (destruct a); try (destruct b); try (destruct c);
    try discriminate; try reflexivity;
    cbn in *; float_order;
    try (destruct (Qle_bool _ _) eqn:H3; [float_order; exfalso; lra | reflexivity]);
    exfalso; lra.
Qed.

Lemma no_value_at l x : fle l x = true -> flt x l = false.
Proof.
  intros H. destruct (flt x l) eqn:H2; [| reflexivity].
  pose proof (no_value_between l x l H H2) as H3.
  destruct l as [| a | a | u]; cbn in *; try discriminate.
  - destruct a; discriminate.
  - apply Qle_bool_false in H3. lra.
Qed.

(** X1.  A rectangle whose right edge is not beyond its left edge, or whose
    bottom edge is not below its top edge, contains no point. *)
Theorem isInside_empty_rectangle sr x y :
  fle (right sr) (left sr) = true \/ fle (bottom sr) (top sr) = true ->
  isInside sr x y = false.
Proof.
  intros H. unfold isInside, fge.
  destruct (fle (left sr) x) eqn:Hl; [| reflexivity].
  destruct (flt x (right sr)) eqn:Hr; [| reflexivity].
  destruct (fle (top sr) y) eqn:Ht; [| reflexivity].
  destruct (flt y (bottom sr)) eqn:Hb; [| reflexivity].
  pose proof (no_value_between _ _ _ Hl Hr).
  pose proof (no_value_between _ _ _ Ht Hb).
  destruct H; congruence.
Qed.

Lemma isInside_empty_rectangle_witness :
  isInside zeroRectangle (f32 0) (f32 0) = false.
Proof.
  apply (isInside_empty_rectangle zeroRectangle (f32 0) (f32 0)).
  left. reflexivity.
Defined.

Lemma isInside_flat sr x y : top sr = bottom sr -> isInside sr x y = false.
Proof.
  intros H. unfold isInside, fge. rewrite <- H.
  destruct (fle (top sr) y) eqn:Ht.
  - rewrite (no_value_at _ _ Ht). apply andb_false_r.
  - rewrite andb_false_r. reflexivity.
Qed.

(** X2.  With nothing to scroll (a maximum of 0) the recomputed thumb sits
    directly under the upper arrow, so no point is in the space above the
    thumb: the hit test never answers [UpperSpace] and no button event asks
    for a page up. *)
Theorem nothing_to_scroll_no_page_up sb :
  maxScrollPosition sb = 0 ->
  let sb1 := recalcElementPositions sb in
  top (positionThumb sb1) = bottom (positionUpperArrow sb1)
  /\ (forall px py, mouseHitTest sb1 px py <> UpperSpace)
  /\ (forall button action mod_ px py,
        ~ In ScrollPageUp (snd (mouseButtonCallback sb1 button action mod_ px py))).
Proof.
  intros Hmax sb1.
  assert (Htop : top (positionThumb sb1) = bottom (positionUpperArrow sb1)).
  { unfold sb1. cbn [recalcElementPositions positionThumb positionUpperArrow
                     top bottom].
    unfold thumbTopOf. rewrite Hmax. reflexivity. }
  assert (Hhit : forall px py, mouseHitTest sb1 px py <> UpperSpace).
  { intros px py. unfold mouseHitTest.
    rewrite (isInside_flat (upperSpaceOf sb1))
      by (cbn [upperSpaceOf top bottom]; symmetry; exact Htop).
    destruct (isInside (positionUpperArrow sb1) _ _); [discriminate |].
    destruct (isInside (positionBottomArrow sb1) _ _); [discriminate |].
    destruct (isInside (bottomSpaceOf sb1) _ _); discriminate. }
  split; [exact Htop |]. split; [exact Hhit |].
  intros button action mod_ px py. unfold mouseButtonCallback.
  destruct (Glfw.button_eqb button Glfw.MouseButtonLeft); [| intros []].
  destruct action.
  - destruct (thumbIsDragging sb1); intros [].
  - specialize (Hhit px py).
    destruct (mouseHitTest sb1 px py); cbn [snd In];
      try congruence; intros [H | []]; discriminate.
  - intros [].
Qed.

Lemma nothing_to_scroll_no_page_up_witness :
  top (positionThumb (recalcElementPositions sampleScrollbar))
  = bottom (positionUpperArrow (recalcElementPositions sampleScrollbar)).
Proof.
  exact (proj1 (nothing_to_scroll_no_page_up sampleScrollbar eq_refl)).
Defined.

End GeometryFacts.

(** ** Sequences of pointer events on the scrollbar *)

Module DragFacts.

Import Float Trace Scrollbar ScrollbarRuns Samples BaseFacts.

Lemma sbRun_cons sb ev rest :
  sbRun sb (ev :: rest)
  = (fst (sbRun (fst (sbStep sb ev)) rest),
     snd (sbStep sb ev) ++ snd (sbRun (fst (sbStep sb ev)) rest)).
Proof.
  cbn [sbRun]. destruct (sbStep sb ev) as [sb1 t1]. cbn [fst snd].
  destruct (sbRun sb1 rest) as [sb2 t2]. reflexivity.
Qed.



Lemma step_dragging sb ev :
  thumbIsDragging (fst (sbStep sb ev))
  = if isLeftRelease ev then false
    else if isLeftPress ev
         then match ev with
              | SbButton _ _ _ mx my =>
                  match mouseHitTest sb mx my with
                  | Thumb => true
                  | _ => thumbIsDragging sb
                  end
              | _ => thumbIsDragging sb
              end
         else thumbIsDragging sb.
Proof.
  destruct ev as [px py | button action mod_ mx my]; cbn [sbStep].
  - cbn [isLeftRelease isLeftPress]. unfold mouseMoveCallback.
    destruct (thumbIsDragging sb) eqn:Hd; [| cbn; exact Hd].
    repeat (match goal with |- context [if ?b then _ else _] =>
              destruct b end); cbn; exact Hd.
  - unfold mouseButtonCallback, isLeftRelease, isLeftPress.
    destruct (Glfw.button_eqb button Glfw.MouseButtonLeft);
      destruct action; try reflexivity.
    + destruct (thumbIsDragging sb) eqn:Hd; cbn; congruence.
    + destruct (mouseHitTest sb mx my); reflexivity.
Qed.

(** X4.  A drag of the thumb stays open through every event but a release
    of the left button; that release closes it and asks for nothing. *)
Theorem drag_lasts_until_left_release sb evs :
  thumbIsDragging sb = true ->
  existsb isLeftRelease evs = false ->
  thumbIsDragging (fst (sbRun sb evs)) = true
  /\ (forall ev, isLeftRelease ev = true ->
        thumbIsDragging (fst (sbStep (fst (sbRun sb evs)) ev)) = false
        /\ snd (sbStep (fst (sbRun sb evs)) ev) = []).
Proof.
  intros Hd Hr. split.
  - revert sb Hd Hr. induction evs as [| ev rest IH]; intros sb Hd Hr.
    + exact Hd.
    + cbn [existsb] in Hr. apply orb_false_iff in Hr. destruct Hr as [Hr1 Hr2].
      rewrite sbRun_cons. cbn [fst]. apply IH; [| exact Hr2].
      rewrite step_dragging, Hr1.
      destruct (isLeftPress ev); [| exact Hd].
      destruct ev as [| b a m mx my]; [exact Hd |].
      destruct (mouseHitTest sb mx my); try exact Hd; reflexivity.
  - intros ev Hrel. split; [rewrite step_dragging, Hrel; reflexivity |].
    destruct ev as [| button action mod_ mx my]; [discriminate |].
    cbn [isLeftRelease] in Hrel. destruct action; try discriminate.
    cbn [sbStep]. unfold mouseButtonCallback. rewrite Hrel.
    destruct (thumbIsDragging (fst (sbRun sb evs))); reflexivity.
Qed.

Lemma drag_lasts_until_left_release_witness :
  thumbIsDragging
    (fst (sbRun draggedScrollbar
            [SbMove (f64 790) (f64 100);
             SbButton Glfw.MouseButtonRight Glfw.Release 0 (f64 5) (f64 5);
             SbMove (f64 3) (f64 700)])) = true.
Proof.
  refine (proj1 (drag_lasts_until_left_release draggedScrollbar _ _ _));
    vm_compute; reflexivity.
Defined.

(** X5.  A scrollbar that is not dragged stays so and asks for nothing as
    long as the left button is not pressed on it: moves, releases and the
    other buttons never scroll. *)
Theorem idle_scrollbar_is_silent sb evs :
  thumbIsDragging sb = false ->
  existsb isLeftPress evs = false ->
  thumbIsDragging (fst (sbRun sb evs)) = false
  /\ snd (sbRun sb evs) = [].
Proof.
  revert sb. induction evs as [| ev rest IH]; intros sb Hd Hp.
  - split; [exact Hd | reflexivity].
  - cbn [existsb] in Hp. apply orb_false_iff in Hp. destruct Hp as [Hp1 Hp2].
    rewrite sbRun_cons. cbn [fst snd].
    assert (Hstep : thumbIsDragging (fst (sbStep sb ev)) = false).
    { rewrite step_dragging, Hp1. destruct (isLeftRelease ev); congruence. }
    destruct (IH _ Hstep Hp2) as [I1 I2]. split; [exact I1 |].
    rewrite I2, app_nil_r.
    destruct ev as [px py | button action mod_ mx my]; cbn [sbStep].
    + unfold mouseMoveCallback. rewrite Hd. reflexivity.
    + unfold mouseButtonCallback. cbn [isLeftPress] in Hp1.
      destruct (Glfw.button_eqb button Glfw.MouseButtonLeft);
        [| reflexivity].
      destruct action; try reflexivity; try discriminate.
      rewrite Hd. reflexivity.
Qed.

Lemma idle_scrollbar_is_silent_witness :
  snd (sbRun sampleScrollbar
         [SbMove (f64 790) (f64 100);
          SbButton Glfw.MouseButtonRight Glfw.Press 0 (f64 790) (f64 5);
          SbButton Glfw.MouseButtonLeft Glfw.Release 0 (f64 790) (f64 5)])
  = [].
Proof.
  refine (proj2 (idle_scrollbar_is_silent sampleScrollbar _ _ _));
    vm_compute; reflexivity.
Defined.

Lemma uint16_wrap64 z : GoInt.uint16 (GoInt.wrap64 z) = z mod 65536.
Proof.
  unfold GoInt.uint16, GoInt.wrap64.
  pose proof (Z.div_mod (z + 2 ^ 63) (2 ^ 64)) as H.
  assert (Hm : (z + 2 ^ 63) mod 2 ^ 64 - 2 ^ 63
               = z + (- (2 ^ 48) * ((z + 2 ^ 63) / 2 ^ 64)) * 2 ^ 16) by lia.
  rewrite Hm. apply Z_mod_plus_full.
Qed.

Lemma netScroll_app t u : netScroll (t ++ u) = netScroll t + netScroll u.
Proof.
  induction t as [| e t IH]; [reflexivity |].
  destruct e; cbn [app netScroll]; rewrite ?IH; lia.
Qed.

Lemma congruent_mod a b m :
  0 < m -> a mod m = b mod m -> (a - b) mod m = 0.
Proof.
  intros Hm H. rewrite Zminus_mod, H, Z.sub_diag. apply Z.mod_0_l. lia.
Qed.

Lemma move_net sb px py :
  let r := mouseMoveCallback sb px py in
  (netScroll (snd r) - (scrollPositionDelta (fst r) - scrollPositionDelta sb))
    mod 65536 = 0
  /\ (thumbIsDragging sb = false
      \/ Z.abs (newPositionDelta sb py - scrollPositionDelta sb) < 65536 ->
      netScroll (snd r) = scrollPositionDelta (fst r) - scrollPositionDelta sb).
Proof.
  unfold mouseMoveCallback.
  destruct (thumbIsDragging sb) eqn:Hd;
    [| cbn [fst snd netScroll]; rewrite Z.sub_diag;
       split; [reflexivity | intros _; reflexivity]].
  set (d := newPositionDelta sb py). set (c := scrollPositionDelta sb).
  rewrite Z.gtb_ltb.
  destruct (c <? d) eqn:H1.
  - apply Z.ltb_lt in H1. cbn [fst snd app netScroll recalcElementPositions
                              set_delta set_drag scrollPositionDelta].
    unfold GoInt.sub. rewrite uint16_wrap64. split.
    + replace ((d - c) mod 65536 + 0 - (d - c))
        with ((d - c) mod 65536 - (d - c)) by lia.
      apply congruent_mod; [lia |]. apply Z.mod_mod. lia.
    + intros [H | H]; [discriminate |].
      rewrite Z.mod_small by lia. lia.
  - apply Z.ltb_ge in H1. destruct (d <? c) eqn:H2.
    + apply Z.ltb_lt in H2. cbn [fst snd app netScroll recalcElementPositions
                                set_delta set_drag scrollPositionDelta].
      unfold GoInt.sub. rewrite uint16_wrap64. split.
      * replace (0 - (c - d) mod 65536 - (d - c))
          with (- ((c - d) mod 65536 - (c - d))) by lia.
        assert (Hz : ((c - d) mod 65536 - (c - d)) mod 65536 = 0)
          by (apply congruent_mod; [lia |]; apply Z.mod_mod; lia).
        apply Z.mod_divide in Hz; [| lia]. apply Z.mod_divide; [lia |].
        apply Z.divide_opp_r. exact Hz.
      * intros [H | H]; [discriminate |].
        rewrite Z.mod_small by lia. lia.
    + apply Z.ltb_ge in H2.
      cbn [fst snd app netScroll recalcElementPositions scrollPositionDelta].
      fold c. rewrite Z.sub_diag. split; [reflexivity | intros _; reflexivity].
Qed.

Lemma quiet_button sb button action mod_ mx my :
  isLeftPress (SbButton button action mod_ mx my) = false ->
  snd (mouseButtonCallback sb button action mod_ mx my) = []
  /\ scrollPositionDelta (fst (mouseButtonCallback sb button action mod_ mx my))
     = scrollPositionDelta sb.
Proof.
  cbn [isLeftPress]. unfold mouseButtonCallback. intros H.
  destruct (Glfw.button_eqb button Glfw.MouseButtonLeft);
    [| split; reflexivity].
  destruct action; try discriminate.
  - destruct (thumbIsDragging sb); split; reflexivity.
  - split; reflexivity.
Qed.

(** X6.  Over any sequence of events without a press of the left button, the
    lines scrolled down less the lines scrolled up equal the change of the
    cumulative delta, exactly when every move asks for fewer than 65536
    lines and modulo 65536 in any case: a drag loses no line and scrolls
    back what it undoes. *)
Theorem drag_scroll_telescopes sb evs :
  existsb isLeftPress evs = false ->
  let r := sbRun sb evs in
  (netScroll (snd r) - (scrollPositionDelta (fst r) - scrollPositionDelta sb))
    mod 65536 = 0
  /\ (smallSteps sb evs = true ->
      netScroll (snd r) = scrollPositionDelta (fst r) - scrollPositionDelta sb).
Proof.
  revert sb. induction evs as [| ev rest IH]; intros sb Hp r.
  - unfold r. cbn [sbRun fst snd netScroll]. rewrite Z.sub_diag.
    split; [reflexivity | intros _; reflexivity].
  - cbn [existsb] in Hp. apply orb_false_iff in Hp. destruct Hp as [Hp1 Hp2].
    unfold r. rewrite sbRun_cons. cbn [fst snd].
    destruct (IH (fst (sbStep sb ev)) Hp2) as [I1 I2].
    rewrite netScroll_app.
    set (sb1 := fst (sbStep sb ev)) in *.
    set (t1 := snd (sbStep sb ev)) in *.
    assert (Hstep :
      (netScroll t1 - (scrollPositionDelta sb1 - scrollPositionDelta sb))
        mod 65536 = 0
      /\ (smallSteps sb [ev] = true ->
          netScroll t1 = scrollPositionDelta sb1 - scrollPositionDelta sb)).
    { unfold sb1, t1. destruct ev as [px py | button action mod_ mx my].
      - cbn [sbStep smallSteps]. destruct (move_net sb px py) as [M1 M2].
        split; [exact M1 |]. intros Hs. apply M2.
        rewrite andb_true_r in Hs. apply orb_true_iff in Hs.
        destruct Hs as [Hs | Hs].
        + left. apply negb_true_iff. exact Hs.
        + right. apply Z.ltb_lt. exact Hs.
      - cbn [sbStep].
        destruct (quiet_button sb button action mod_ mx my Hp1) as [-> ->].
        cbn [netScroll]. rewrite Z.sub_diag.
        split; [reflexivity | intros _; reflexivity]. }
    destruct Hstep as [S1 S2]. split.
    + apply Z.mod_divide in S1; [| lia]. apply Z.mod_divide in I1; [| lia].
      apply Z.mod_divide; [lia |].
      replace (netScroll t1 + netScroll (snd (sbRun sb1 rest))
               - (scrollPositionDelta (fst (sbRun sb1 rest))
                  - scrollPositionDelta sb))
        with ((netScroll t1 - (scrollPositionDelta sb1 - scrollPositionDelta sb))
              + (netScroll (snd (sbRun sb1 rest))
                 - (scrollPositionDelta (fst (sbRun sb1 rest))
                    - scrollPositionDelta sb1))) by lia.
      apply Z.divide_add_r; assumption.
    + intros Hs. cbn [smallSteps] in Hs. fold sb1 in Hs.
      apply andb_true_iff in Hs. destruct Hs as [Hs1 Hs2].
      rewrite (I2 Hs2), S2; [lia |].
      cbn [smallSteps]. rewrite Hs1. reflexivity.
Qed.

Lemma drag_scroll_telescopes_witness :
  netScroll
    (snd (sbRun draggedScrollbar
            [SbMove (f64 790) (f64 27); SbMove (f64 790) (f64 40);
             SbMove (f64 790) (f64 30)]))
  = scrollPositionDelta
      (fst (sbRun draggedScrollbar
              [SbMove (f64 790) (f64 27); SbMove (f64 790) (f64 40);
               SbMove (f64 790) (f64 30)]))
    - scrollPositionDelta draggedScrollbar.
Proof.
  refine (proj2 (drag_scroll_telescopes draggedScrollbar _ _) _);
    vm_compute; reflexivity.
Defined.

End DragFacts.

(** ** Routing of the events *)

Module RoutingFacts.

Import Float Trace Mouse DispatchRuns Samples BaseFacts.

Ltac split_ifs :=
  repeat (match goal with |- context [if ?b then _ else _] => destruct b end).

Lemma filter_none {A} (f : A -> bool) (l : list A) :
  existsb f l = false -> filter f l = [].
Proof.
  induction l as [| a l IH]; [reflexivity |].
  cbn. intros H. apply orb_false_iff in H. destruct H as [-> H].
  apply IH. exact H.
Qed.

Lemma handleLocally_frame g env button action x y :
  let r := handleLocally g env button action x y in
  catchedMouseHandler (fst r) = catchedMouseHandler g
  /\ mouseCatchedOnButton (fst r) = mouseCatchedOnButton g
  /\ vScrollbar (fst r) = vScrollbar g
  /\ overlay (fst r) = overlay g
  /\ existsb isCall (snd r) = false.
Proof.
  unfold handleLocally.
  destruct button, action; cbn zeta; try (repeat split; reflexivity).
  - split_ifs; cbn; repeat split; reflexivity.
  - unfold updateLeftClickCount. cbn zeta.
    split_ifs; cbn; repeat split; reflexivity.
  - destruct (copyAndPasteWithMouse env); [| repeat split; reflexivity].
    destruct (getClipboardString env); repeat split; reflexivity.
Qed.

Lemma reportMouse_no_call env button action mod_ tx ty :
  existsb isCall (fst (reportMouse env button action mod_ tx ty)) = false.
Proof.
  unfold reportMouse.
  destruct (getMouseMode env), action, button; reflexivity.
Qed.

(** The callbacks of the viewport leave the capture and the scrollbar
    alone. *)
Lemma viewport_button_frame g env button action mod_ mx my :
  let r := mouseButtonCallback g env button action mod_ mx my in
  catchedMouseHandler (fst (fst r)) = catchedMouseHandler g
  /\ mouseCatchedOnButton (fst (fst r)) = mouseCatchedOnButton g
  /\ vScrollbar (fst (fst r)) = vScrollbar g
  /\ existsb isCall (snd (fst r)) = false.
Proof.
  unfold mouseButtonCallback. destruct (overlay g).
  - destruct (_ && _); cbn; repeat split; reflexivity.
  - destruct (convertMouseCoordinates env mx my) as [x y].
    pose proof (handleLocally_frame g env button action x y) as H.
    destruct (handleLocally g env button action x y) as [g1 t1].
    pose proof (reportMouse_no_call env button action mod_
                  (GoInt.add x 1) (GoInt.add y 1)) as H2.
    destruct (reportMouse env button action mod_ _ _) as [t2 out].
    cbn [fst snd] in *. destruct H as (H3 & H4 & H5 & _ & H6).
    rewrite existsb_app, H6, H2. repeat split; assumption.
Qed.

Lemma viewport_move_frame g env px py :
  let r := mouseMoveCallback g env px py in
  catchedMouseHandler (fst r) = catchedMouseHandler g
  /\ mouseCatchedOnButton (fst r) = mouseCatchedOnButton g
  /\ vScrollbar (fst r) = vScrollbar g
  /\ existsb isCall (snd r) = false.
Proof.
  unfold mouseMoveCallback, getHandCursor, getArrowCursor.
  destruct (convertMouseCoordinates env px py) as [x y].
  destruct (mouseDown g), (negb (String.eqb _ _)); cbn;
    destruct (handCursor g), (arrowCursor g); cbn; repeat split; reflexivity.
Qed.

Lemma scrollbar_traces_no_call sb :
  (forall px py,
      existsb isCall (snd (Scrollbar.mouseMoveCallback sb px py)) = false)
  /\ (forall button action mod_ mx my,
        existsb isCall
          (snd (Scrollbar.mouseButtonCallback sb button action mod_ mx my))
        = false).
Proof.
  split.
  - intros px py. unfold Scrollbar.mouseMoveCallback. split_ifs; reflexivity.
  - intros button action mod_ mx my. unfold Scrollbar.mouseButtonCallback.
    destruct (Glfw.button_eqb button Glfw.MouseButtonLeft); [| reflexivity].
    destruct action; try reflexivity.
    + destruct (Scrollbar.thumbIsDragging sb); reflexivity.
    + destruct (Scrollbar.mouseHitTest sb mx my); reflexivity.
Qed.

(** What one call through the handler interface does to the capture and
    which callbacks it records. *)
Lemma callMove_frame g env h px py :
  let r := callMove g env h px py in
  catchedMouseHandler (fst (fst r)) = catchedMouseHandler g
  /\ mouseCatchedOnButton (fst (fst r)) = mouseCatchedOnButton g
  /\ filter isCall (snd (fst r)) = [CallMove h]
  /\ (h = HViewport -> vScrollbar (fst (fst r)) = vScrollbar g).
Proof.
  unfold callMove. destruct h.
  - pose proof (viewport_move_frame g env px py) as H.
    destruct (mouseMoveCallback g env px py) as [g1 t]. cbn [fst snd] in *.
    destruct H as (H1 & H2 & H3 & H4).
    split; [exact H1 |]. split; [exact H2 |]. split; [| intros _; exact H3].
    cbn [filter isCall isCallOf handler_eqb orb].
    f_equal. apply filter_none. exact H4.
  - destruct (vScrollbar g) as [sb |] eqn:Hv.
    + destruct (scrollbar_traces_no_call sb) as [H _]. specialize (H px py).
      destruct (Scrollbar.mouseMoveCallback sb px py) as [sb1 t].
      cbn [fst snd] in *.
      split; [reflexivity |]. split; [reflexivity |].
      split; [| discriminate].
      cbn [filter isCall isCallOf handler_eqb orb].
      f_equal. apply filter_none. exact H.
    + cbn. repeat split; discriminate.
Qed.

Lemma callButton_frame g env h button action mod_ mx my :
  let r := callButton g env h button action mod_ mx my in
  catchedMouseHandler (fst (fst r)) = catchedMouseHandler g
  /\ mouseCatchedOnButton (fst (fst r)) = mouseCatchedOnButton g
  /\ filter isCall (snd (fst r)) = [CallButton h button action]
  /\ (h = HViewport -> vScrollbar (fst (fst r)) = vScrollbar g).
Proof.
  unfold callButton. destruct h.
  - pose proof (viewport_button_frame g env button action mod_ mx my) as H.
    destruct (mouseButtonCallback g env button action mod_ mx my)
      as [[g1 t] out].
    cbn [fst snd] in *. destruct H as (H1 & H2 & H3 & H4).
    split; [exact H1 |]. split; [exact H2 |]. split; [| intros _; exact H3].
    cbn [filter isCall isCallOf handler_eqb orb].
    f_equal. apply filter_none. exact H4.
  - destruct (vScrollbar g) as [sb |] eqn:Hv.
    + destruct (scrollbar_traces_no_call sb) as [_ H].
      specialize (H button action mod_ mx my).
      destruct (Scrollbar.mouseButtonCallback sb button action mod_ mx my)
        as [sb1 t].
      cbn [fst snd] in *.
      split; [reflexivity |]. split; [reflexivity |].
      split; [| discriminate].
      cbn [filter isCall isCallOf handler_eqb orb].
      f_equal. apply filter_none. exact H.
    + cbn. repeat split; discriminate.
Qed.

Lemma catchMouse_calls g new b env h button action mod_ mx my :
  filter isCall
    (snd (fst (callButton (catchMouse g new b) env h button action mod_ mx my)))
  = [CallButton h button action].
Proof. apply callButton_frame. Qed.

Lemma isCallOf_isCall k a : isCallOf k a = true -> isCall a = true.
Proof.
  unfold isCall. destruct k; intros ->; [reflexivity | apply orb_true_r].
Qed.

Lemma filter_call_of k t :
  filter (isCallOf k) t = filter (isCallOf k) (filter isCall t).
Proof.
  induction t as [| a t IH]; [reflexivity |].
  cbn [filter]. destruct (isCallOf k a) eqn:Hk.
  - rewrite (isCallOf_isCall k a Hk). cbn [filter]. rewrite Hk.
    f_equal. exact IH.
  - destruct (isCall a); cbn [filter]; rewrite ?Hk; exact IH.
Qed.

(** X7.  With nothing captured, an event whose pointer is neither over the
    viewport nor over the scrollbar is dropped: no callback is called and the
    state is unchanged. *)
Theorem event_outside_is_dropped g ev :
  catchedMouseHandler g = None ->
  isMouseInside (fst ev) (fst (pointerOf ev)) (snd (pointerOf ev)) = false ->
  scrollbarIsInside g (fst (pointerOf ev)) (snd (pointerOf ev)) = false ->
  dispatch g ev = (g, [], Returned).
Proof.
  intros Hnone Hv Hs. destruct ev as [env [px py | button action mod_]];
    unfold dispatch, pointerOf in *; cbn [fst snd] in *.
  - unfold globalMouseMoveCallback.
    destruct (scaleMouseCoordinates env px py) as [qx qy].
    cbn [fst snd] in *. rewrite Hnone, Hv, Hs. reflexivity.
  - unfold globalMouseButtonCallback. unfold cursorOf in *.
    destruct (scaleMouseCoordinates env _ _) as [qx qy].
    cbn [fst snd] in *. rewrite Hnone, Hv, Hs. reflexivity.
Qed.

Lemma event_outside_is_dropped_witness :
  dispatch sampleGUI
    (sampleEnv MouseModeNone (f64 790, f64 700),
     EvButton Glfw.MouseButtonLeft Glfw.Press 0)
  = (sampleGUI, [], Returned).
Proof.
  apply (event_outside_is_dropped sampleGUI
           (sampleEnv MouseModeNone (f64 790, f64 700),
            EvButton Glfw.MouseButtonLeft Glfw.Press 0));
    vm_compute; reflexivity.
Defined.

Lemma one_call h t :
  (exists e, filter isCall t = [e] /\ isCallOf h e = true) ->
  List.length (filter (isCallOf h) t) = 1%nat
  /\ List.length (filter isCall t) = 1%nat
  /\ forall h', h' <> h -> filter (isCallOf h') t = [].
Proof.
  intros (e & He & Hh).
  rewrite He. rewrite (filter_call_of h), He. cbn [filter]. rewrite Hh.
  repeat split; try reflexivity.
  intros h' Hne. rewrite (filter_call_of h'), He. cbn [filter].
  destruct (isCallOf h' e) eqn:Hh'; [| reflexivity].
  exfalso. apply Hne.
  destruct e; cbn in *; try discriminate;
    repeat match goal with k : Handler |- _ => destruct k end;
    cbn in *; try reflexivity; discriminate.
Qed.

Lemma captured_trace g h ev :
  catchedMouseHandler g = Some h ->
  exists e, filter isCall (snd (fst (dispatch g ev))) = [e]
            /\ isCallOf h e = true.
Proof.
  intros Hc. destruct ev as [env [px py | button action mod_]];
    unfold dispatch; cbn [fst snd].
  - unfold globalMouseMoveCallback.
    destruct (scaleMouseCoordinates env px py) as [qx qy]. rewrite Hc.
    destruct (callMove_frame g env h qx qy) as (_ & _ & Hf & _).
    eexists. split; [exact Hf |]. destruct h; reflexivity.
  - unfold globalMouseButtonCallback.
    destruct (scaleMouseCoordinates env _ _) as [qx qy]. rewrite Hc.
    destruct (callButton_frame g env h button action mod_ qx qy)
      as (_ & _ & Hf & _).
    destruct (callButton g env h button action mod_ qx qy) as [[g1 t] out].
    cbn [fst snd] in *.
    exists (CallButton h button action). split; [| destruct h; reflexivity].
    destruct out; [| exact Hf]. destruct (_ && _); exact Hf.
Qed.

(** X8.  Every event calls at most one handler callback.  A captured
    pointer calls the handler that holds the capture and no other; with
    nothing captured, a pointer over the viewport calls the viewport, whether
    or not the scrollbar contains it too. *)
Theorem dispatch_calls_one_handler g ev :
  let t := snd (fst (dispatch g ev)) in
  (List.length (filter isCall t) <= 1)%nat
  /\ (forall h, catchedMouseHandler g = Some h ->
        List.length (filter (isCallOf h) t) = 1%nat
        /\ List.length (filter isCall t) = 1%nat)
  /\ (catchedMouseHandler g = None ->
      isMouseInside (fst ev) (fst (pointerOf ev)) (snd (pointerOf ev)) = true ->
      List.length (filter (isCallOf HViewport) t) = 1%nat
      /\ filter (isCallOf HScrollbar) t = []).
Proof.
  pose proof one_call as Hone.
  destruct ev as [env [px py | button action mod_]];
    unfold dispatch, pointerOf; cbn [fst snd].
  - unfold globalMouseMoveCallback.
    destruct (scaleMouseCoordinates env px py) as [qx qy]. cbn [fst snd].
    destruct (catchedMouseHandler g) as [h |] eqn:Hc.
    + destruct (callMove_frame g env h qx qy) as (_ & _ & Hf & _).
      destruct (Hone h (snd (fst (callMove g env h qx qy)))) as (A & B & _).
      { eexists. split; [exact Hf |]. destruct h; reflexivity. }
      split; [lia |]. split; [| discriminate].
      intros h' Hh'. inversion Hh'; subst. split; assumption.
    + destruct (isMouseInside env qx qy) eqn:Hv.
      * destruct (callMove_frame g env HViewport qx qy) as (_ & _ & Hf & _).
        destruct (Hone HViewport (snd (fst (callMove g env HViewport qx qy))))
          as (A & B & C).
        { eexists. split; [exact Hf | reflexivity]. }
        split; [lia |]. split; [discriminate |]. intros _ _.
        split; [exact A | apply C; discriminate].
      * destruct (scrollbarIsInside g qx qy).
        -- destruct (callMove_frame g env HScrollbar qx qy) as (_ & _ & Hf & _).
           rewrite Hf. split; [cbn; lia |]. split; discriminate.
        -- cbn. split; [lia |]. split; discriminate.
  - unfold globalMouseButtonCallback, cursorOf.
    destruct (scaleMouseCoordinates env _ _) as [qx qy]. cbn [fst snd].
    destruct (catchedMouseHandler g) as [h |] eqn:Hc.
    + destruct (callButton_frame g env h button action mod_ qx qy)
        as (_ & _ & Hf & _).
      assert (Ht : snd (fst
                (let '(g1, t, out) :=
                   callButton g env h button action mod_ qx qy in
                 match out with
                 | Returned =>
                     if Glfw.action_eqb action Glfw.Release
                        && Glfw.button_eqb button (mouseCatchedOnButton g1)
                     then (catchMouse g1 None Glfw.MouseButton1, t, Returned)
                     else (g1, t, Returned)
                 | Panicked _ => (g1, t, out)
                 end))
              = snd (fst (callButton g env h button action mod_ qx qy))).
      { destruct (callButton g env h button action mod_ qx qy) as [[g1 t] out].
        destruct out; [| reflexivity]. destruct (_ && _); reflexivity. }
      rewrite Ht.
      destruct (Hone h (snd (fst (callButton g env h button action mod_ qx qy))))
        as (A & B & _).
      { eexists. split; [exact Hf |]. destruct h; reflexivity. }
      split; [lia |]. split; [| discriminate].
      intros h' Hh'. inversion Hh'; subst. split; assumption.
    + destruct (isMouseInside env qx qy) eqn:Hv.
      * set (g1 := if Glfw.action_eqb action Glfw.Press
                   then catchMouse g (Some HViewport) button else g).
        destruct (callButton_frame g1 env HViewport button action mod_ qx qy)
          as (_ & _ & Hf & _).
        destruct (Hone HViewport
                    (snd (fst (callButton g1 env HViewport button action
                                 mod_ qx qy)))) as (A & B & C).
        { eexists. split; [exact Hf | reflexivity]. }
        split; [lia |]. split; [discriminate |]. intros _ _.
        split; [exact A | apply C; discriminate].
      * destruct (scrollbarIsInside g qx qy).
        -- set (g1 := if Glfw.action_eqb action Glfw.Press
                      then catchMouse g (Some HScrollbar) button else g).
           destruct (callButton_frame g1 env HScrollbar button action mod_
                       qx qy) as (_ & _ & Hf & _).
           rewrite Hf. split; [cbn; lia |]. split; discriminate.
        -- cbn. split; [lia |]. split; discriminate.
Qed.

(** One event while a handler holds the capture. *)
Lemma dispatch_while_captured g h ev :
  catchedMouseHandler g = Some h ->
  let r := dispatch g ev in
  (isReleaseOf (mouseCatchedOnButton g) ev = false \/ snd r <> Returned ->
   catchedMouseHandler (fst (fst r)) = Some h
   /\ mouseCatchedOnButton (fst (fst r)) = mouseCatchedOnButton g)
  /\ (isReleaseOf (mouseCatchedOnButton g) ev = true -> snd r = Returned ->
      catchedMouseHandler (fst (fst r)) = None)
  /\ (h = HViewport -> vScrollbar (fst (fst r)) = vScrollbar g).
Proof.
  intros Hc. destruct ev as [env [px py | button action mod_]];
    unfold dispatch, isReleaseOf; cbn [fst snd].
  - unfold globalMouseMoveCallback.
    destruct (scaleMouseCoordinates env px py) as [qx qy]. rewrite Hc.
    destruct (callMove_frame g env h qx qy) as (H1 & H2 & _ & H4).
    split; [intros _; split; congruence |].
    split; [discriminate | exact H4].
  - unfold globalMouseButtonCallback.
    destruct (scaleMouseCoordinates env _ _) as [qx qy]. rewrite Hc.
    destruct (callButton_frame g env h button action mod_ qx qy)
      as (H1 & H2 & _ & H4).
    destruct (callButton g env h button action mod_ qx qy) as [[g1 t] out].
    cbn [fst snd] in *. rewrite H2.
    destruct out as [| msg].
    + destruct (Glfw.action_eqb action Glfw.Release
                && Glfw.button_eqb button (mouseCatchedOnButton g)) eqn:Hrel;
        cbn [fst snd catchMouse catchedMouseHandler mouseCatchedOnButton
             vScrollbar].
      * split; [intros [Hf | Hf]; [discriminate | contradiction] |].
        split; [reflexivity | exact H4].
      * split; [intros _; split; congruence |].
        split; [discriminate | exact H4].
    + cbn [fst snd]. split; [intros _; split; congruence |].
      split; [discriminate | exact H4].
Qed.

(** X9.  The capture changes in two ways only.  With nothing captured, an
    event that is not a press captures nothing.  While a handler holds the
    capture, every event but a release of the capture button leaves the
    capture and its button as they are, a second press included; that
    release, once the handler has returned from it, frees the capture; and
    if the handler panics the capture is not freed. *)
Theorem capture_changes_by_press_and_release g ev :
  let r := dispatch g ev in
  (catchedMouseHandler g = None -> isPress ev = false ->
   catchedMouseHandler (fst (fst r)) = None)
  /\ (forall h, catchedMouseHandler g = Some h ->
        (isReleaseOf (mouseCatchedOnButton g) ev = false \/ snd r <> Returned ->
         catchedMouseHandler (fst (fst r)) = Some h
         /\ mouseCatchedOnButton (fst (fst r)) = mouseCatchedOnButton g)
        /\ (isReleaseOf (mouseCatchedOnButton g) ev = true ->
            snd r = Returned ->
            catchedMouseHandler (fst (fst r)) = None)).
Proof.
  intros r. split.
  - intros Hnone Hp. unfold r.
    destruct ev as [env [px py | button action mod_]];
      unfold dispatch, isPress in *; cbn [fst snd] in *.
    + unfold globalMouseMoveCallback.
      destruct (scaleMouseCoordinates env px py) as [qx qy]. rewrite Hnone.
      destruct (isMouseInside env qx qy).
      * destruct (callMove_frame g env HViewport qx qy) as (H1 & _).
        congruence.
      * destruct (scrollbarIsInside g qx qy); [| exact Hnone].
        destruct (callMove_frame g env HScrollbar qx qy) as (H1 & _).
        congruence.
    + unfold globalMouseButtonCallback.
      destruct (scaleMouseCoordinates env _ _) as [qx qy]. rewrite Hnone.
      assert (Ha : Glfw.action_eqb action Glfw.Press = false)
        by (destruct action; try reflexivity; discriminate).
      rewrite Ha.
      destruct (isMouseInside env qx qy).
      * destruct (callButton_frame g env HViewport button action mod_ qx qy)
          as (H1 & _). congruence.
      * destruct (scrollbarIsInside g qx qy); [| exact Hnone].
        destruct (callButton_frame g env HScrollbar button action mod_ qx qy)
          as (H1 & _). congruence.
  - intros h Hc.
    destruct (dispatch_while_captured g h ev Hc) as (H1 & H2 & _).
    split; assumption.
Qed.

Lemma run_cons g ev rest :
  run g (ev :: rest)
  = match snd (dispatch g ev) with
    | Returned =>
        (fst (fst (run (fst (fst (dispatch g ev))) rest)),
         snd (fst (dispatch g ev))
         ++ snd (fst (run (fst (fst (dispatch g ev))) rest)),
         snd (run (fst (fst (dispatch g ev))) rest))
    | Panicked _ => dispatch g ev
    end.
Proof.
  cbn [run]. destruct (dispatch g ev) as [[g1 t1] out]. cbn [fst snd].
  destruct out; [| reflexivity].
  destruct (run g1 rest) as [[g2 t2] out2]. reflexivity.
Qed.

(** X10.  While the viewport holds the capture and its button stays held, no
    callback of the scrollbar is called and the scrollbar is not changed,
    wherever the pointer goes and even if a handler panics on the way; the
    viewport keeps the capture. *)
Theorem viewport_capture_exclusive g button evs :
  catchedMouseHandler g = Some HViewport ->
  mouseCatchedOnButton g = button ->
  heldThrough button evs = true ->
  let r := run g evs in
  catchedMouseHandler (fst (fst r)) = Some HViewport
  /\ mouseCatchedOnButton (fst (fst r)) = button
  /\ vScrollbar (fst (fst r)) = vScrollbar g
  /\ filter (isCallOf HScrollbar) (snd (fst r)) = [].
Proof.
  revert g. induction evs as [| ev rest IH]; intros g Hc Hb Hheld r.
  - cbn. repeat split; assumption.
  - cbn [heldThrough forallb] in Hheld.
    apply andb_true_iff in Hheld. destruct Hheld as [Hev Hheld].
    apply negb_true_iff in Hev. rewrite <- Hb in Hev.
    destruct (dispatch_while_captured g HViewport ev Hc) as (H1 & _ & H3).
    destruct (H1 (or_introl Hev)) as [Hc1 Hb1].
    specialize (H3 eq_refl).
    assert (Hs : filter (isCallOf HScrollbar) (snd (fst (dispatch g ev))) = []).
    { destruct (one_call HViewport _ (captured_trace g HViewport ev Hc))
        as (_ & _ & Hother).
      apply Hother. discriminate. }
    unfold r. rewrite run_cons.
    destruct (snd (dispatch g ev)) eqn:Hout.
    + specialize (IH (fst (fst (dispatch g ev))) Hc1
                    (eq_trans Hb1 Hb) Hheld).
      cbn zeta in IH. destruct IH as (I1 & I2 & I3 & I4).
      cbn [fst snd]. rewrite filter_app, Hs, I4.
      repeat split; try assumption. congruence.
    + repeat split; try assumption. congruence.
Qed.

Lemma viewport_capture_exclusive_witness :
  filter (isCallOf HScrollbar)
    (snd (fst (run
       (fst (fst (dispatch sampleGUI
                    (sampleEnv MouseModeNone (f64 100, f64 100),
                     EvButton Glfw.MouseButtonLeft Glfw.Press 0))))
       [ (sampleEnv MouseModeNone (f64 790, f64 300),
          EvMove (f64 790) (f64 300));
         (sampleEnv MouseModeNone (f64 790, f64 300),
          EvButton Glfw.MouseButtonRight Glfw.Press 0) ]))) = [].
Proof.
  refine (proj2 (proj2 (proj2
    (viewport_capture_exclusive _ Glfw.MouseButtonLeft _ _ _ _))));
    vm_compute; reflexivity.
Defined.

End RoutingFacts.

(** ** The button callback of the viewport *)

Module ViewportFacts.

Import Float Trace Mouse DispatchRuns Samples MoreSamples BaseFacts ReportFacts.

Ltac split_ifs :=
  repeat (match goal with |- context [if ?b then _ else _] => destruct b end).

(** X11.  A move with no button down over a cell that has a hint shows the
    overlay, and from then on every button event but a release of the right
    button is swallowed: the state stays as it is, nothing is called and
    nothing panics, whatever the mouse mode.  The release of the right
    button only hides the overlay. *)
Theorem hint_overlay_swallows_clicks g env px py :
  mouseDown g = false ->
  getHintAtPosition env (fst (convertMouseCoordinates env px py))
    (snd (convertMouseCoordinates env px py)) = true ->
  let g1 := fst (mouseMoveCallback g env px py) in
  overlay g1 = true
  /\ (forall env' button action mod_ mx my,
        Glfw.button_eqb button Glfw.MouseButtonRight
        && Glfw.action_eqb action Glfw.Release = false ->
        mouseButtonCallback g1 env' button action mod_ mx my
        = (g1, [], Returned))
  /\ (forall env' mod_ mx my,
        mouseButtonCallback g1 env' Glfw.MouseButtonRight Glfw.Release
          mod_ mx my
        = (set_overlay g1 false, [SetOverlay false], Returned)).
Proof.
  intros Hdown Hhint g1.
  assert (Hov : overlay g1 = true).
  { unfold g1, mouseMoveCallback, getHandCursor, getArrowCursor.
    destruct (convertMouseCoordinates env px py) as [x y].
    cbn [fst snd] in Hhint. rewrite Hdown, Hhint.
    destruct (negb (String.eqb _ _)); cbn;
      destruct (handCursor g), (arrowCursor g); reflexivity. }
  split; [exact Hov |]. split.
  - intros env' button action mod_ mx my Hb.
    unfold mouseButtonCallback. rewrite Hov, Hb. reflexivity.
  - intros env' mod_ mx my. unfold mouseButtonCallback. rewrite Hov.
    reflexivity.
Qed.

Lemma hint_overlay_swallows_clicks_witness :
  mouseButtonCallback
    (fst (mouseMoveCallback sampleGUI
            (busyEnv MouseModeAnyEvent (f64 4, f64 5)) (f64 4) (f64 5)))
    (busyEnv MouseModeAnyEvent (f64 4, f64 5))
    Glfw.MouseButtonLeft Glfw.Press 0 (f64 4) (f64 5)
  = (fst (mouseMoveCallback sampleGUI
            (busyEnv MouseModeAnyEvent (f64 4, f64 5)) (f64 4) (f64 5)),
     [], Returned).
Proof.
  refine (proj1 (proj2
    (hint_overlay_swallows_clicks sampleGUI
       (busyEnv MouseModeAnyEvent (f64 4, f64 5)) (f64 4) (f64 5) _ _))
    _ _ _ _ _ _ _); reflexivity.
Defined.

Lemma withModifiers_press b mod_ :
  0 <= b <= 2 ->
  withModifiers b mod_ = b + modifierBits mod_.
Proof.
  intros Hb. unfold withModifiers, modifierBits.
  assert (b = 0 \/ b = 1 \/ b = 2) as [-> | [-> | ->]] by lia;
    split_ifs; reflexivity.
Qed.

(** X12.  In normal (VT200) mode and with no overlay shown, a press of the
    left, the right or the middle button writes exactly one report: ESC [ M,
    the byte 32 + Cb with Cb = 0 for the left, 1 for the right and 2 for the
    middle button plus the modifier bits, and the characters cx+1+32 and
    cy+1+32. *)
Theorem vt200_press_report g env button mod_ mx my cx cy :
  getMouseMode env = MouseModeVT200 ->
  overlay g = false ->
  convertMouseCoordinates env mx my = (cx, cy) ->
  Glfw.button_code button <= 2 ->
  writes (snd (fst (mouseButtonCallback g env button Glfw.Press mod_ mx my)))
  = [ [27; 91; 77; Glfw.button_code button + modifierBits mod_ + 32]
        ++ Utf8.encodeRune (cx + 1 + 32) ++ Utf8.encodeRune (cy + 1 + 32) ]
  /\ Glfw.button_code Glfw.MouseButtonLeft = 0
  /\ Glfw.button_code Glfw.MouseButtonRight = 1
  /\ Glfw.button_code Glfw.MouseButtonMiddle = 2.
Proof.
  intros Hmode Hov Hc Hb. split; [| repeat split].
  destruct (convert_range _ _ _ _ _ Hc) as [Hx Hy].
  destruct (withModifiers_release mod_) as [_ Hm].
  pose proof (button_code_range button) as Hr.
  destruct (callback_writes g env button Glfw.Press mod_ mx my cx cy Hov Hc)
    as [-> _].
  unfold reportMouse. rewrite Hmode.
  assert (Hpacket : forall b, b = Glfw.button_code button ->
    writes [Write (Utf8.mousePacket (GoInt.uint8 (withModifiers b mod_ + 32))
                     (GoInt.wrap32 (cx + 1 + 32)) (GoInt.wrap32 (cy + 1 + 32)))]
    = [ [27; 91; 77; Glfw.button_code button + modifierBits mod_ + 32]
          ++ Utf8.encodeRune (cx + 1 + 32) ++ Utf8.encodeRune (cy + 1 + 32) ]).
  { intros b ->. cbn [writes]. unfold Utf8.mousePacket.
    rewrite withModifiers_press by lia.
    unfold GoInt.uint8. rewrite Z.mod_small by lia.
    rewrite !wrap32_small by lia.
    rewrite (encodeRune_ascii (Glfw.button_code button + modifierBits mod_ + 32))
      by lia.
    reflexivity. }
  destruct button; cbn [Glfw.button_code] in Hb; try lia;
    cbn [fst]; apply Hpacket; reflexivity.
Qed.

Lemma vt200_press_report_witness :
  writes (snd (fst (mouseButtonCallback sampleGUI
                      (sampleEnv MouseModeVT200 (f64 4, f64 5))
                      Glfw.MouseButtonRight Glfw.Press Glfw.ModShift
                      (f64 4) (f64 5))))
  = [ [27; 91; 77; 37; 33; 33] ].
Proof.
  refine (proj1 (vt200_press_report sampleGUI
            (sampleEnv MouseModeVT200 (f64 4, f64 5))
            Glfw.MouseButtonRight Glfw.ModShift (f64 4) (f64 5) 0 0 _ _ _ _));
    try reflexivity. simpl. lia.
Defined.

Lemma reportMouse_only_writes env button action mod_ tx ty :
  forall e, In e (fst (reportMouse env button action mod_ tx ty)) ->
            (exists d, e = Write d) \/ (exists f a, e = Infof f a).
Proof.
  intros e. unfold reportMouse.
  destruct (getMouseMode env), action, button; cbn [fst In];
    intros H; try contradiction;
    repeat (destruct H as [<- | H];
            [first [left; eexists; reflexivity
                   | right; do 2 eexists; reflexivity] |]);
    contradiction.
Qed.

Lemma no_writes_kind (f : Effect -> bool) t :
  (forall d, f (Write d) = false) ->
  (forall fm a, f (Infof fm a) = false) ->
  (forall e, In e t ->
             (exists d, e = Write d) \/ (exists fm a, e = Infof fm a)) ->
  existsb f t = false.
Proof.
  intros Hf Hi Ht. induction t as [| e t IH]; [reflexivity |].
  cbn [existsb].
  destruct (Ht e (or_introl eq_refl)) as [[d ->] | (fm & a & ->)].
  - rewrite Hf. apply IH. intros e' He'. apply Ht. right. exact He'.
  - rewrite Hi. apply IH. intros e' He'. apply Ht. right. exact He'.
Qed.

(** The trace of the callback with no overlay: the local handling, then the
    report. *)
Lemma callback_trace g env button action mod_ mx my cx cy :
  overlay g = false ->
  convertMouseCoordinates env mx my = (cx, cy) ->
  snd (fst (mouseButtonCallback g env button action mod_ mx my))
  = snd (handleLocally g env button action cx cy)
    ++ fst (reportMouse env button action mod_ (cx + 1) (cy + 1))
  /\ fst (fst (mouseButtonCallback g env button action mod_ mx my))
     = fst (handleLocally g env button action cx cy).
Proof.
  intros Hov Hc. destruct (convert_range _ _ _ _ _ Hc) as [Hx Hy].
  unfold mouseButtonCallback. rewrite Hov, Hc.
  unfold GoInt.add. rewrite !wrap64_small by lia.
  destruct (handleLocally g env button action cx cy) as [g1 t1].
  destruct (reportMouse env button action mod_ (cx + 1) (cy + 1)) as [t2 out].
  split; reflexivity.
Qed.

Lemma update_count_range g env x y :
  0 <= leftClickCount g <= 3 ->
  1 <= fst (updateLeftClickCount g env x y) <= 3
  /\ snd (updateLeftClickCount g env x y)
     = set_click g (fst (updateLeftClickCount g env x y)) x y (timeStored env).
Proof.
  intros Hn. unfold updateLeftClickCount. cbn [fst snd].
  split; [| reflexivity].
  destruct (_ && _); [| lia].
  unfold GoInt.add. rewrite wrap64_small by lia. rewrite Z.gtb_ltb.
  destruct (3 <? leftClickCount g + 1) eqn:H3; [lia |].
  apply Z.ltb_ge in H3. lia.
Qed.

(** X13.  With no overlay shown and a stored click count between 0 and 3,
    a press of the left button always starts a selection at the cell under
    the pointer, by character, word or line for a new count of 1, 2 or 3; the
    new count is again between 1 and 3, the button is recorded as down, and
    the only other call is the mouse report. *)
Theorem left_press_starts_selection g env mod_ mx my cx cy :
  overlay g = false ->
  0 <= leftClickCount g <= 3 ->
  convertMouseCoordinates env mx my = (cx, cy) ->
  let r := mouseButtonCallback g env Glfw.MouseButtonLeft Glfw.Press
             mod_ mx my in
  let n := leftClickCount (fst (fst r)) in
  1 <= n <= 3
  /\ n = fst (updateLeftClickCount g env cx cy)
  /\ snd (fst r)
     = StartSelection cx cy (selectionOf n)
       :: fst (reportMouse env Glfw.MouseButtonLeft Glfw.Press mod_
                 (cx + 1) (cy + 1))
  /\ mouseDown (fst (fst r)) = true
  /\ mouseMovedAfterSelectionStarted (fst (fst r)) = false.
Proof.
  intros Hov Hn Hc r n.
  destruct (callback_trace g env Glfw.MouseButtonLeft Glfw.Press mod_ mx my
              cx cy Hov Hc) as [Ht Hg].
  fold r in Ht, Hg. unfold n. rewrite Ht, Hg.
  unfold handleLocally, Glfw.MouseButtonLeft.
  destruct (update_count_range (set_mouseDown g true) env cx cy Hn)
    as (Hcount & Hstate).
  assert (Hsame : fst (updateLeftClickCount (set_mouseDown g true) env cx cy)
                  = fst (updateLeftClickCount g env cx cy)) by reflexivity.
  destruct (updateLeftClickCount (set_mouseDown g true) env cx cy)
    as [count g2].
  cbn [fst snd] in *. subst g2.
  cbn [fst snd leftClickCount set_moved set_click mouseDown set_mouseDown
       mouseMovedAfterSelectionStarted app].
  split; [exact Hcount |]. split; [exact Hsame |].
  split; [| split; reflexivity].
  unfold selectionOf.
  assert (count = 1 \/ count = 2 \/ count = 3) as [-> | [-> | ->]] by lia;
    reflexivity.
Qed.

Lemma left_press_starts_selection_witness :
  snd (fst (mouseButtonCallback sampleGUI
              (sampleEnv MouseModeNone (f64 4, f64 5))
              Glfw.MouseButtonLeft Glfw.Press 0 (f64 4) (f64 5)))
  = [StartSelection 0 0 SelectionChar].
Proof.
  refine (proj1 (proj2 (proj2
    (left_press_starts_selection sampleGUI
       (sampleEnv MouseModeNone (f64 4, f64 5)) 0 (f64 4) (f64 5) 0 0 _ _ _))));
    try reflexivity. simpl. lia.
Defined.

Lemma existsb_report (f : Effect -> bool) env button action mod_ tx ty :
  (forall d, f (Write d) = false) ->
  (forall fm a, f (Infof fm a) = false) ->
  existsb f (fst (reportMouse env button action mod_ tx ty)) = false.
Proof.
  intros Hf Hi. apply no_writes_kind; [exact Hf | exact Hi |].
  apply reportMouse_only_writes.
Qed.

(** The trace of the callback while an overlay is shown. *)
Lemma overlay_trace g env button action mod_ mx my :
  overlay g = true ->
  snd (fst (mouseButtonCallback g env button action mod_ mx my))
  = [SetOverlay false]
  \/ snd (fst (mouseButtonCallback g env button action mod_ mx my)) = [].
Proof.
  intros Hov. unfold mouseButtonCallback. rewrite Hov.
  destruct (_ && _); [left | right]; reflexivity.
Qed.

(** X14.  No button event both copies the selection to the clipboard and
    opens a link.  With no overlay, the release of the left button copies the
    selected text when copy and paste by mouse is enabled and the text is not
    empty; only otherwise, and when there is a link under the pointer, does
    it open the link. *)
Theorem copy_or_open_never_both g env button action mod_ mx my :
  let t := snd (fst (mouseButtonCallback g env button action mod_ mx my)) in
  let copied := copyAndPasteWithMouse env
                && negb (String.eqb (getSelectedText env) EmptyString) in
  existsb isClipboardCopy t && existsb isLaunch t = false
  /\ (overlay g = false ->
      existsb isClipboardCopy t
      = Glfw.button_eqb button Glfw.MouseButtonLeft
        && Glfw.action_eqb action Glfw.Release && copied
      /\ existsb isLaunch t
         = Glfw.button_eqb button Glfw.MouseButtonLeft
           && Glfw.action_eqb action Glfw.Release && negb copied
           && negb (String.eqb
                      (getURLAtPosition env
                         (fst (convertMouseCoordinates env mx my))
                         (snd (convertMouseCoordinates env mx my)))
                      EmptyString)).
Proof.
  intros t copied.
  destruct (overlay g) eqn:Hov.
  - split; [| discriminate].
    destruct (overlay_trace g env button action mod_ mx my Hov) as [H | H];
      unfold t; rewrite H; reflexivity.
  - destruct (convertMouseCoordinates env mx my) as [cx cy] eqn:Hc.
    destruct (callback_trace g env button action mod_ mx my cx cy Hov Hc)
      as [Ht _].
    fold t in Ht. rewrite Ht, !existsb_app.
    rewrite (existsb_report isClipboardCopy) by reflexivity.
    rewrite (existsb_report isLaunch) by reflexivity.
    rewrite !orb_false_r. cbn [fst snd].
    assert (Hl :
      existsb isClipboardCopy (snd (handleLocally g env button action cx cy))
      = Glfw.button_eqb button Glfw.MouseButtonLeft
        && Glfw.action_eqb action Glfw.Release && copied
      /\ existsb isLaunch (snd (handleLocally g env button action cx cy))
         = Glfw.button_eqb button Glfw.MouseButtonLeft
           && Glfw.action_eqb action Glfw.Release && negb copied
           && negb (String.eqb (getURLAtPosition env cx cy) EmptyString)).
    { unfold handleLocally, copied.
      destruct button, action; cbn zeta; try (split; reflexivity).
      - cbn [snd Glfw.button_eqb Glfw.action_eqb Glfw.button_code
             Glfw.MouseButtonLeft Z.eqb andb].
        rewrite !existsb_app.
        destruct (copyAndPasteWithMouse env
                  && negb (String.eqb (getSelectedText env) EmptyString));
          destruct (negb (String.eqb (getURLAtPosition env cx cy) EmptyString));
          split_ifs; split; reflexivity.
      - unfold updateLeftClickCount. cbn zeta.
        split_ifs; split; reflexivity.
      - destruct (copyAndPasteWithMouse env); [| split; reflexivity].
        destruct (getClipboardString env); split; reflexivity. }
    destruct Hl as [Hl1 Hl2]. rewrite Hl1, Hl2.
    split; [| intros _; split; reflexivity].
    destruct (Glfw.button_eqb button Glfw.MouseButtonLeft),
      (Glfw.action_eqb action Glfw.Release), copied; reflexivity.
Qed.

(** X15.  The clipboard is pasted into the terminal by exactly one kind of
    event: a press of the right button, with no overlay shown, copy and paste
    by mouse enabled and a clipboard that could be read. *)
Theorem paste_only_on_right_press g env button action mod_ mx my :
  existsb isPaste (snd (fst (mouseButtonCallback g env button action mod_ mx my)))
  = negb (overlay g)
    && Glfw.button_eqb button Glfw.MouseButtonRight
    && Glfw.action_eqb action Glfw.Press
    && copyAndPasteWithMouse env
    && match getClipboardString env with Some _ => true | None => false end.
Proof.
  destruct (overlay g) eqn:Hov.
  - destruct (overlay_trace g env button action mod_ mx my Hov) as [H | H];
      rewrite H; reflexivity.
  - destruct (convertMouseCoordinates env mx my) as [cx cy] eqn:Hc.
    destruct (callback_trace g env button action mod_ mx my cx cy Hov Hc)
      as [Ht _].
    rewrite Ht, existsb_app.
    rewrite (existsb_report isPaste) by reflexivity.
    rewrite orb_false_r. unfold handleLocally.
    destruct button, action; cbn zeta; try reflexivity.
    + cbn [snd]. rewrite existsb_app. split_ifs; reflexivity.
    + unfold updateLeftClickCount. cbn zeta. split_ifs; reflexivity.
    + cbn [negb andb Glfw.button_eqb Glfw.action_eqb].
      destruct (copyAndPasteWithMouse env); [| reflexivity].
      destruct (getClipboardString env); reflexivity.
Qed.

Lemma encodeRune_length r :
  (1 <= List.length (Utf8.encodeRune r) <= 4)%nat.
Proof. unfold Utf8.encodeRune. split_ifs; cbn; lia. Qed.

Lemma withModifiers_bound b mod_ :
  0 <= b <= 3 -> 0 <= withModifiers b mod_ <= 31.
Proof.
  intros Hb. unfold withModifiers.
  assert (b = 0 \/ b = 1 \/ b = 2 \/ b = 3) as [-> | [-> | [-> | ->]]] by lia;
    split_ifs; cbn; lia.
Qed.

Lemma report_packets env button action mod_ cx cy :
  0 <= cx < 65536 -> 0 <= cy < 65536 ->
  forall d, In d (writes (fst (reportMouse env button action mod_
                                 (cx + 1) (cy + 1)))) ->
            isPacket d.
Proof.
  intros Hx Hy d. unfold reportMouse.
  assert (Hvt : forall b, 0 <= b <= 3 ->
            isPacket (Utf8.mousePacket (GoInt.uint8 (withModifiers b mod_ + 32))
                        (GoInt.wrap32 (cx + 1 + 32))
                        (GoInt.wrap32 (cy + 1 + 32)))).
  { intros b Hb. pose proof (withModifiers_bound b mod_ Hb) as Hw.
    unfold Utf8.mousePacket, GoInt.uint8.
    rewrite Z.mod_small by lia. rewrite !wrap32_small by lia.
    rewrite (encodeRune_ascii (withModifiers b mod_ + 32)) by lia.
    exists (withModifiers b mod_ + 32), (cx + 1 + 32), (cy + 1 + 32).
    repeat split; try lia. }
  assert (Hx10 :
            isPacket (Utf8.mousePacket
                        (GoInt.wrap32 (GoInt.wrap32 (Glfw.button_code button) + 32))
                        (GoInt.wrap32 (cx + 1 + 32))
                        (GoInt.wrap32 (cy + 1 + 32)))).
  { pose proof (button_code_range button) as Hb.
    unfold Utf8.mousePacket.
    rewrite (wrap32_small (Glfw.button_code button)) by lia.
    rewrite !wrap32_small by lia.
    rewrite (encodeRune_ascii (Glfw.button_code button + 32)) by lia.
    exists (Glfw.button_code button + 32), (cx + 1 + 32), (cy + 1 + 32).
    repeat split; try lia. }
  destruct (getMouseMode env), action; cbn [fst writes In];
    try contradiction; try (intros [<- | []]; exact Hx10);
    try (intros [<- | []]; apply Hvt; lia);
    destruct button; cbn [fst writes In]; try contradiction;
    intros [<- | []]; apply Hvt; lia.
Qed.

(** X16.  A button event writes at most one mouse report, and every report
    written is ESC [ M, one byte between 32 and 63 for the button and the
    modifiers, and two UTF-8 characters between 33 and 65568 for the cell: 6
    to 12 bytes. *)
Theorem reports_are_packets g env button action mod_ mx my :
  let w := writes (snd (fst (mouseButtonCallback g env button action
                               mod_ mx my))) in
  (List.length w <= 1)%nat
  /\ (forall d, In d w ->
        (exists c x y,
            d = [27; 91; 77; c] ++ Utf8.encodeRune x ++ Utf8.encodeRune y
            /\ 32 <= c <= 63 /\ 33 <= x <= 65568 /\ 33 <= y <= 65568)
        /\ (6 <= List.length d <= 12)%nat).
Proof.
  intros w. unfold w. destruct (overlay g) eqn:Hov.
  - destruct (overlay_swallows g env button action mod_ mx my Hov) as [-> _].
    split; [cbn; lia | intros d []].
  - destruct (convertMouseCoordinates env mx my) as [cx cy] eqn:Hc.
    destruct (convert_range _ _ _ _ _ Hc) as [Hx Hy].
    destruct (callback_writes g env button action mod_ mx my cx cy Hov Hc)
      as [-> _].
    split.
    + unfold reportMouse.
      destruct (getMouseMode env), action, button; cbn; lia.
    + intros d Hd.
      pose proof (report_packets env button action mod_ cx cy Hx Hy d Hd) as Hp.
      split; [exact Hp |].
      destruct Hp as (c & x & y & -> & _).
      cbn [app List.length]. rewrite length_app.
      pose proof (encodeRune_length x). pose proof (encodeRune_length y). lia.
Qed.

End ViewportFacts.

(** ** Updates of the geometry of the scrollbar *)

Module UpdateFacts.

Import Float Trace Scrollbar ScrollbarRuns Samples BaseFacts.

(** What [setPosition] stores is a fixed point of it. *)
Lemma setPosition_stored sb max pos :
  let sb1 := setPosition sb max pos in
  setPosition sb1 (maxScrollPosition sb1) (scrollPosition sb1) = sb1.
Proof.
  unfold setPosition. cbn [recalcElementPositions set_scroll
    maxScrollPosition scrollPosition].
  set (m := if max <=? 0 then pos else max).
  set (p := if pos >? m then m else pos).
  assert (Hpm : p <= m).
  { unfold p. destruct (pos >? m) eqn:H; [lia |].
    rewrite Z.gtb_ltb in H. apply Z.ltb_ge in H. exact H. }
  assert (Hm : (if m <=? 0 then p else m) = m).
  { destruct (m <=? 0) eqn:H; [| reflexivity].
    apply Z.leb_le in H. unfold p, m in *.
    destruct (max <=? 0) eqn:H1.
    - rewrite Z.gtb_ltb, Z.ltb_irrefl. reflexivity.
    - apply Z.leb_gt in H1. lia. }
  rewrite Hm.
  assert (Hp : (if p >? m then m else p) = p).
  { destruct (p >? m) eqn:H; [| reflexivity].
    rewrite Z.gtb_ltb in H. apply Z.ltb_lt in H. lia. }
  rewrite Hp. reflexivity.
Qed.

(** X17.  The geometry of the scrollbar depends on the last size and the
    last position only: a second [setPosition] or [resize] overrides the
    first and the two commute.  [setPosition] leaves the size, [resize]
    leaves the position and its maximum, and neither touches the state of a
    drag.  What [setPosition] has stored, given to it again, changes
    nothing. *)
Theorem zone_updates_compose sb max1 pos1 max2 pos2 w1 h1 d1 w2 h2 d2 :
  setPosition (setPosition sb max1 pos1) max2 pos2 = setPosition sb max2 pos2
  /\ resize (resize sb w1 h1 d1) w2 h2 d2 = resize sb w2 h2 d2
  /\ resize (setPosition sb max1 pos1) w1 h1 d1
     = setPosition (resize sb w1 h1 d1) max1 pos1
  /\ position (setPosition sb max1 pos1) = position sb
  /\ thumbIsDragging (setPosition sb max1 pos1) = thumbIsDragging sb
  /\ scrollPositionDelta (setPosition sb max1 pos1) = scrollPositionDelta sb
  /\ offsetInThumbY (setPosition sb max1 pos1) = offsetInThumbY sb
  /\ startedDraggingAtThumbTop (setPosition sb max1 pos1)
     = startedDraggingAtThumbTop sb
  /\ startedDraggingAtPosition (setPosition sb max1 pos1)
     = startedDraggingAtPosition sb
  /\ scrollPosition (resize sb w1 h1 d1) = scrollPosition sb
  /\ maxScrollPosition (resize sb w1 h1 d1) = maxScrollPosition sb
  /\ thumbIsDragging (resize sb w1 h1 d1) = thumbIsDragging sb
  /\ scrollPositionDelta (resize sb w1 h1 d1) = scrollPositionDelta sb
  /\ offsetInThumbY (resize sb w1 h1 d1) = offsetInThumbY sb
  /\ startedDraggingAtThumbTop (resize sb w1 h1 d1)
     = startedDraggingAtThumbTop sb
  /\ startedDraggingAtPosition (resize sb w1 h1 d1)
     = startedDraggingAtPosition sb
  /\ setPosition (setPosition sb max1 pos1)
       (maxScrollPosition (setPosition sb max1 pos1))
       (scrollPosition (setPosition sb max1 pos1))
     = setPosition sb max1 pos1
  /\ scrollPosition (setPosition sb max1 pos1)
     <= maxScrollPosition (setPosition sb max1 pos1).
Proof.
  repeat (split; [reflexivity |]).
  split; [apply setPosition_stored |].
  unfold setPosition. cbn [recalcElementPositions set_scroll
    maxScrollPosition scrollPosition].
  destruct (pos1 >? _) eqn:H; [lia |].
  rewrite Z.gtb_ltb in H. apply Z.ltb_ge in H. exact H.
Qed.

End UpdateFacts.

(** ** Release of the OpenGL objects *)

Module ReleaseFacts.

Import GlObjects.

Ltac free_case a :=
  let E := fresh "E" in
  destruct (Z.eqb_spec a 0) as [E | E];
  [subst a | pose proof (proj2 (Z.eqb_neq a 0) E) as ?E].

(** X18.  [Free] of the scrollbar releases every OpenGL object the scrollbar
    holds, each once and in the order program, buffer, vertex array, and
    forgets them all: a second [Free] makes no OpenGL call.  The vertex
    array is released as a buffer: [gl.DeleteVertexArrays] is never
    called. *)
Theorem scrollbar_free_releases_once o :
  let o' := fst (scrollbarFree o) in
  let t := snd (scrollbarFree o) in
  o' = {| sbProgram := 0; sbVbo := 0; sbVao := 0 |}
  /\ map released t = filter nonzero [sbProgram o; sbVbo o; sbVao o]
  /\ scrollbarFree o' = (o', [])
  /\ (forall n, ~ In (DeleteVertexArrays n) t)
  /\ (forall n, In (DeleteProgram n) t <-> n = sbProgram o /\ n <> 0).
Proof.
  destruct o as [p b a]. unfold scrollbarFree, nonzero.
  cbn [sbProgram sbVbo sbVao].
  free_case p; free_case b; free_case a;
    cbn;
    repeat match goal with H : (_ =? 0) = false |- _ => rewrite ?H; clear H end;
    cbn; (split; [reflexivity|]); (split; [reflexivity|]);
    (split; [reflexivity|]); (split; [intros n H; intuition congruence|]);
    intros n; split; intros H; intuition (try congruence);
    try (left; congruence).
Qed.

(** X19.  [Free] of the minimap releases every OpenGL object the minimap
    holds, each once and in the order program, buffer, vertex array, index
    buffer, and forgets them all: a second [Free] makes no OpenGL call.
    The vertex array is released with [gl.DeleteVertexArrays]. *)
Theorem miniMap_free_releases_once o :
  let o' := fst (miniMapFree o) in
  let t := snd (miniMapFree o) in
  o' = {| mmProgram := 0; mmVbo := 0; mmVao := 0; mmIbo := 0 |}
  /\ map released t
     = filter nonzero [mmProgram o; mmVbo o; mmVao o; mmIbo o]
  /\ miniMapFree o' = (o', [])
  /\ (forall n, In (DeleteVertexArrays n) t <-> n = mmVao o /\ n <> 0)
  /\ (forall n, In (DeleteProgram n) t <-> n = mmProgram o /\ n <> 0).
Proof.
  destruct o as [p b a i]. unfold miniMapFree, nonzero.
  cbn [mmProgram mmVbo mmVao mmIbo].
  free_case p; free_case b; free_case a; free_case i;
    cbn;
    repeat match goal with H : (_ =? 0) = false |- _ => rewrite ?H; clear H end;
    cbn; (split; [reflexivity|]); (split; [reflexivity|]);
    (split; [reflexivity|]); split;
    intros n; split; intros H; intuition (try congruence);
    try (left; congruence); try (right; left; congruence);
    try (right; right; left; congruence).
Qed.

End ReleaseFacts.

(** ** The text of the minimap *)

Module MiniMapFacts.

Import Float MiniMap MiniMapRuns MiniMapSamples.

Lemma shown_nonempty c : (0 < List.length (shown c))%nat.
Proof.
  unfold shown. pose proof (ViewportFacts.encodeRune_length
    (if cellRune c =? 0 then 32 else cellRune c)). lia.
Qed.

Lemma flat_shown_nonempty cur l :
  (0 < List.length (flat_map shown (cur ++ [l])))%nat.
Proof.
  rewrite flat_map_app, length_app. cbn [flat_map]. rewrite app_nil_r.
  pose proof (shown_nonempty l). lia.
Qed.

Lemma textCalls_app a b : textCalls (a ++ b) = textCalls a ++ textCalls b.
Proof. apply filter_app. Qed.

Lemma styleOf_last cur l :
  styleOf (cur ++ [l]) = (cellDim l, cellBold l, Some (cellFg l)).
Proof. unfold styleOf. rewrite fold_left_app. reflexivity. Qed.

Section Loop.

Variable ColoursEqual : option Colour -> Colour -> bool.
Variable view : View.

Lemma backgroundCalls_no_text row col cell :
  textCalls (backgroundCalls view row col cell) = [].
Proof.
  unfold backgroundCalls.
  destruct (inSelection view _ _), cell; reflexivity.
Qed.

Lemma columns_empty n : forall row col st,
  let st' := columns ColoursEqual view n row col [] st in
  builder st' = builder st /\ colToDraw st' = colToDraw st
  /\ dim st' = dim st /\ bold st' = bold st /\ colourFg st' = colourFg st
  /\ textCalls (calls st') = textCalls (calls st).
Proof.
  induction n as [|n IH]; intros row col st; cbn.
  - repeat split.
  - specialize (IH row (col + 1)
      (addCalls st (backgroundCalls view row col None))).
    cbn in IH. destruct IH as (H1 & H2 & H3 & H4 & H5 & H6).
    repeat split; try assumption.
    rewrite H6. unfold addCalls. cbn [calls].
    rewrite textCalls_app, backgroundCalls_no_text, app_nil_r. reflexivity.
Qed.

Lemma flush_run row st cur l :
  builder st = flat_map shown (cur ++ [l]) ->
  dim st = cellDim l -> bold st = cellBold l ->
  colourFg st = Some (cellFg l) ->
  flush row st = drawRun row (colToDraw st) (cur ++ [l]).
Proof.
  intros Hb Hd Hbo Hc. unfold flush, drawRun. rewrite styleOf_last.
  rewrite Hb, Hd, Hbo, Hc. reflexivity.
Qed.

Lemma columns_runs n : forall rest row col st cur l,
  builder st = flat_map shown (cur ++ [l]) ->
  dim st = cellDim l -> bold st = cellBold l ->
  colourFg st = Some (cellFg l) ->
  col = colToDraw st + Z.of_nat (List.length (cur ++ [l])) ->
  let st' := columns ColoursEqual view n row col rest st in
  textCalls (if 0 <? Z.of_nat (List.length (builder st'))
             then calls st' ++ [flush row st'] else calls st')
  = textCalls (calls st)
    ++ drawRuns row (colToDraw st)
         (runsFrom ColoursEqual (cur ++ [l]) l (firstn n rest)).
Proof.
  induction n as [|n IH]; intros rest row col st cur l Hb Hd Hbo Hc Hcol.
  - cbn [columns firstn runsFrom drawRuns].
    pose proof (flat_shown_nonempty cur l) as Hlen. rewrite <- Hb in Hlen.
    replace (0 <? Z.of_nat (List.length (builder st))) with true
      by (symmetry; apply Z.ltb_lt; lia).
    rewrite textCalls_app. cbn. f_equal. f_equal.
    apply flush_run; assumption.
  - destruct rest as [|c rest].
    + cbn [firstn runsFrom drawRuns].
      pose proof (columns_empty (S n) row col st) as H. cbn zeta in H.
      destruct H as (H1 & H2 & H3 & H4 & H5 & H6).
      set (st' := columns ColoursEqual view (S n) row col [] st) in *.
      pose proof (flat_shown_nonempty cur l) as Hlen. rewrite <- Hb in Hlen.
      rewrite H1.
      replace (0 <? Z.of_nat (List.length (builder st))) with true
        by (symmetry; apply Z.ltb_lt; lia).
      rewrite textCalls_app, H6. cbn. f_equal. f_equal.
      rewrite <- H2. apply flush_run; congruence.
    + cbn [columns firstn runsFrom hd_error tl].
      set (bg := backgroundCalls view row col (Some c)).
      pose proof (flat_shown_nonempty cur l) as Hlen. rewrite <- Hb in Hlen.
      unfold textStep, addCalls. cbn [builder dim bold colourFg colToDraw calls alpha].
      replace (0 <? Z.of_nat (List.length (builder st))) with true
        by (symmetry; apply Z.ltb_lt; lia).
      cbn [andb].
      assert (Hch : negb (Bool.eqb (cellDim c) (dim st))
                    || negb (Bool.eqb (cellBold c) (bold st))
                    || negb (ColoursEqual (colourFg st) (cellFg c))
                    = negb (sameStyle ColoursEqual l c)).
      { unfold sameStyle. rewrite Hd, Hbo, Hc.
        rewrite !negb_andb. reflexivity. }
      rewrite Hch. destruct (sameStyle ColoursEqual l c) eqn:Hs; cbn [negb].
      * etransitivity.
        { apply (IH rest row (col + 1) _ (cur ++ [l]) c);
            cbn [builder dim bold colourFg colToDraw calls alpha];
            try reflexivity.
          - rewrite Hb. rewrite (flat_map_app shown (cur ++ [l]) [c]).
            cbn [flat_map]. rewrite app_nil_r. reflexivity.
          - rewrite Hcol. rewrite (length_app (cur ++ [l]) [c]).
            cbn [List.length]. lia. }
        cbn [builder dim bold colourFg colToDraw calls alpha].
        rewrite textCalls_app. unfold bg.
        rewrite backgroundCalls_no_text, app_nil_r. reflexivity.
      * etransitivity.
        { apply (IH rest row (col + 1) _ [] c);
            cbn [builder dim bold colourFg colToDraw calls alpha app];
            try reflexivity.
          cbn [flat_map]. rewrite app_nil_r. reflexivity. }
        cbn [builder dim bold colourFg colToDraw calls alpha app].
        rewrite !textCalls_app. unfold bg.
        rewrite backgroundCalls_no_text, app_nil_r.
        cbn [drawRuns]. rewrite <- Hcol.
        rewrite <- app_assoc. f_equal. cbn [textCalls filter isText flush app].
        f_equal.
        cbn [builder dim bold colourFg colToDraw calls alpha].
        unfold drawRun. rewrite styleOf_last, Hb, Hd, Hbo, Hc. reflexivity.
Qed.

Lemma renderRow_runs row cells :
  textCalls (renderRow ColoursEqual view row cells)
  = drawRuns row 0
      (runs ColoursEqual (firstn (Z.to_nat (viewWidth view)) cells)).
Proof.
  unfold renderRow. set (n := Z.to_nat (viewWidth view)).
  destruct cells as [|c rest].
  - match goal with |- context [columns _ _ n row 0 [] ?s] =>
      pose proof (columns_empty n row 0 s) as H end.
    cbn zeta in H. destruct H as (H1 & _ & _ & _ & _ & H6).
    rewrite H1. cbn [builder List.length Z.of_nat Z.ltb Z.compare].
    rewrite H6. rewrite firstn_nil. reflexivity.
  - destruct n as [|n].
    + reflexivity.
    + cbn [columns firstn runs hd_error tl].
      unfold textStep, addCalls.
      cbn [builder dim bold colourFg colToDraw calls alpha
           List.length Z.of_nat Z.ltb Z.compare andb app].
      etransitivity.
      { apply (columns_runs n rest row (0 + 1) _ [] c);
          cbn [builder dim bold colourFg colToDraw calls alpha app];
          try reflexivity.
        cbn [flat_map]. rewrite app_nil_r. reflexivity. }
      cbn [builder dim bold colourFg colToDraw calls alpha app].
      rewrite backgroundCalls_no_text. reflexivity.
Qed.

Lemma renderRows_runs lines : forall row,
  textCalls (renderRows ColoursEqual view row lines)
  = drawLines ColoursEqual (Z.to_nat (viewWidth view)) row lines.
Proof.
  induction lines as [|cells rest IH]; intros row; cbn.
  - reflexivity.
  - rewrite textCalls_app, renderRow_runs, IH. reflexivity.
Qed.

End Loop.

(** *** The runs *)

Section RunFacts.

Variable ColoursEqual : option Colour -> Colour -> bool.

Lemma runsFrom_concat rest : forall cur l,
  List.concat (runsFrom ColoursEqual cur l rest) = cur ++ rest.
Proof.
  induction rest as [|c rest IH]; intros cur l; cbn [runsFrom].
  - cbn. rewrite app_nil_r. reflexivity.
  - destruct (sameStyle ColoursEqual l c).
    + rewrite IH, <- app_assoc. reflexivity.
    + cbn [List.concat]. rewrite IH. reflexivity.
Qed.

Lemma runs_concat cells : List.concat (runs ColoursEqual cells) = cells.
Proof. destruct cells as [|c rest]; [reflexivity|]. apply runsFrom_concat. Qed.

Lemma runsFrom_styled rest : forall init l,
  Forall (fun c => cellDim c = cellDim l /\ cellBold c = cellBold l) init ->
  Forall styled (runsFrom ColoursEqual (init ++ [l]) l rest).
Proof.
  induction rest as [|c rest IH]; intros init l H; cbn [runsFrom].
  - constructor; [|constructor]. exists init, l. split; [reflexivity | exact H].
  - destruct (sameStyle ColoursEqual l c) eqn:Hs.
    + apply IH. unfold sameStyle in Hs.
      apply andb_prop in Hs as [Hs _]. apply andb_prop in Hs as [H1 H2].
      apply Bool.eqb_prop in H1. apply Bool.eqb_prop in H2.
      apply Forall_app. split.
      * eapply Forall_impl; [|exact H]. cbn. intros a [Ha1 Ha2]. split; congruence.
      * constructor; [|constructor]. split; congruence.
    + constructor.
      * exists init, l. split; [reflexivity | exact H].
      * apply (IH [] c). constructor.
Qed.

Lemma runs_styled cells : Forall styled (runs ColoursEqual cells).
Proof.
  destruct cells as [|c rest]; [constructor|].
  apply (runsFrom_styled rest [] c). constructor.
Qed.

Lemma runsFrom_one rest : forall cur l,
  forallb (fun a => forallb (sameStyle ColoursEqual a) (l :: rest)) (l :: rest)
  = true ->
  runsFrom ColoursEqual cur l rest = [cur ++ rest].
Proof.
  induction rest as [|c rest IH]; intros cur l H; cbn [runsFrom].
  - rewrite app_nil_r. reflexivity.
  - rewrite forallb_forall in H.
    assert (Hs : sameStyle ColoursEqual l c = true).
    { pose proof (H l (or_introl eq_refl)) as Hl.
      rewrite forallb_forall in Hl. apply Hl. right. left. reflexivity. }
    rewrite Hs, IH, <- app_assoc; [reflexivity|].
    rewrite forallb_forall. intros a Ha.
    pose proof (H a (or_intror Ha)) as Hx. rewrite forallb_forall in Hx.
    rewrite forallb_forall. intros b Hb. apply Hx. right. exact Hb.
Qed.

(** *** The calls for runs *)

Lemma drawRuns_text rs : forall row col,
  flat_map textOf (drawRuns row col rs) = flat_map shown (List.concat rs).
Proof.
  induction rs as [|r rs IH]; intros row col; cbn [drawRuns flat_map List.concat].
  - reflexivity.
  - rewrite flat_map_app, IH. f_equal.
    unfold drawRun. destruct (styleOf r) as [[d b] fg]. reflexivity.
Qed.

Lemma drawRuns_length rs row col :
  List.length (drawRuns row col rs) = List.length rs.
Proof.
  revert col. induction rs as [|r rs IH]; intros col; cbn; [|rewrite IH];
    reflexivity.
Qed.

Lemma drawRun_row row col r : rowOf (drawRun row col r) = row.
Proof. unfold drawRun. destruct (styleOf r) as [[d b] fg]. reflexivity. Qed.

Lemma drawRuns_on_row rs : forall row col,
  filter (onRow row) (drawRuns row col rs) = drawRuns row col rs.
Proof.
  induction rs as [|r rs IH]; intros row col; cbn [drawRuns filter].
  - reflexivity.
  - unfold onRow at 1. rewrite drawRun_row, Z.eqb_refl, IH. reflexivity.
Qed.

Lemma drawRuns_off_row rs : forall r row col,
  r <> row -> filter (onRow r) (drawRuns row col rs) = [].
Proof.
  induction rs as [|run rs IH]; intros r row col H; cbn [drawRuns filter].
  - reflexivity.
  - unfold onRow at 1. rewrite drawRun_row.
    destruct (Z.eqb_spec row r); [congruence|]. apply IH. exact H.
Qed.

Lemma drawLines_before n lines : forall r row,
  r < row -> filter (onRow r) (drawLines ColoursEqual n row lines) = [].
Proof.
  induction lines as [|cells rest IH]; intros r row H; cbn [drawLines].
  - reflexivity.
  - rewrite filter_app, drawRuns_off_row by lia. rewrite IH by lia. reflexivity.
Qed.

Lemma drawLines_row n lines : forall i row,
  filter (onRow (row + Z.of_nat i)) (drawLines ColoursEqual n row lines)
  = drawRuns (row + Z.of_nat i) 0
      (runs ColoursEqual (firstn n (nth i lines []))).
Proof.
  induction lines as [|cells rest IH]; intros i row; cbn [drawLines].
  - destruct i; cbn [nth]; rewrite firstn_nil; reflexivity.
  - rewrite filter_app. destruct i as [|i].
    + cbn [nth Z.of_nat]. rewrite Z.add_0_r.
      rewrite drawRuns_on_row, drawLines_before by lia.
      rewrite app_nil_r. reflexivity.
    + cbn [nth]. rewrite drawRuns_off_row by lia. cbn [app].
      replace (row + Z.of_nat (S i)) with (row + 1 + Z.of_nat i) by lia.
      apply IH.
Qed.

Lemma drawRuns_styled rs : forall row col,
  Forall styled rs -> Forall drawsStyled (drawRuns row col rs).
Proof.
  induction rs as [|r rs IH]; intros row col H; cbn [drawRuns].
  - constructor.
  - inversion H as [|? ? Hr Hrs]; subst. constructor.
    + destruct Hr as (init & l & -> & Hi). exists init, l, col, row.
      split; [|exact Hi]. unfold drawRun. rewrite styleOf_last. reflexivity.
    + apply IH. exact Hrs.
Qed.

Lemma drawLines_styled n lines : forall row,
  Forall drawsStyled (drawLines ColoursEqual n row lines).
Proof.
  induction lines as [|cells rest IH]; intros row; cbn [drawLines].
  - constructor.
  - apply Forall_app. split; [|apply IH].
    apply drawRuns_styled, runs_styled.
Qed.

Lemma runsFrom_nonempty rest : forall cur l,
  cur <> [] -> Forall (fun r => r <> []) (runsFrom ColoursEqual cur l rest).
Proof.
  induction rest as [|c rest IH]; intros cur l H; cbn [runsFrom].
  - constructor; [exact H | constructor].
  - destruct (sameStyle ColoursEqual l c).
    + apply IH. destruct cur; discriminate.
    + constructor; [exact H|]. apply IH. discriminate.
Qed.

Lemma runs_nonempty cells : Forall (fun r => r <> []) (runs ColoursEqual cells).
Proof.
  destruct cells as [|c rest]; [constructor|].
  apply runsFrom_nonempty. discriminate.
Qed.

Lemma concat_length_nonempty (rs : list (list Cell)) :
  Forall (fun r => r <> []) rs ->
  (List.length rs <= List.length (List.concat rs))%nat.
Proof.
  induction 1 as [|r rs Hr _ IH]; cbn [List.concat List.length]; [lia|].
  rewrite length_app. destruct r; [congruence|]. cbn [List.length]. lia.
Qed.

(** *** The calls to the fonts *)

Lemma perform_text m cs : perform m cs = perform m (textCalls cs).
Proof.
  induction cs as [|c cs IH]; [reflexivity|].
  destruct c as [cell col row color | text scale col row al color b].
  - cbn [perform textCalls filter isText]. fold (textCalls cs).
    rewrite IH. unfold drawCellBg. cbn [app].
    destruct (perform m (textCalls cs)); reflexivity.
  - cbn [perform textCalls filter isText]. fold (textCalls cs).
    rewrite IH. reflexivity.
Qed.

Lemma perform_styled m cs :
  fontMapSet m = true ->
  Forall drawsStyled cs ->
  exists t, perform m cs = Some t
    /\ List.length t = (2 * List.length cs)%nat.
Proof.
  intros Hm. induction 1 as [|c cs Hc _ IH].
  - exists []. split; reflexivity.
  - destruct IH as (t & Ht & Hl).
    destruct Hc as (init & l & col & row & -> & _).
    cbn [perform]. unfold drawCellText. rewrite Hm. cbn [negb]. rewrite Ht.
    eexists. split; [reflexivity|]. cbn [List.length app]. lia.
Qed.

Lemma renderText_runs view m :
  textCalls (renderText ColoursEqual view m)
  = if fontMapSet m
    then drawLines ColoursEqual (Z.to_nat (viewWidth view)) 0 (getLines view)
    else [].
Proof.
  unfold renderText. destruct (fontMapSet m); cbn [negb].
  - apply renderRows_runs.
  - reflexivity.
Qed.

(** X20.  The calls of [renderText] that draw text are those of the longest
    runs of cells of one style, line after line: of every line the first
    [ViewWidth] cells are split where the [Dim], the [Bold] or (by
    [config.ColoursEqual]) the foreground of a cell differs from the cell
    before it, and every run is drawn by one call, at the column of its first
    cell, with the style of its last cell and the scale 0.3.  Without a font
    map nothing is drawn. *)
Theorem renderText_draws_runs view m :
  textCalls (renderText ColoursEqual view m)
  = if fontMapSet m
    then drawLines ColoursEqual (Z.to_nat (viewWidth view)) 0 (getLines view)
    else [].
Proof. apply renderText_runs. Qed.

(** X21.  Every cell in view is drawn exactly once: the text calls for the
    line [i] draw consecutive runs of cells, none of them empty, which put
    together are the first [ViewWidth] cells of the line; the texts put
    together are the UTF-8 encodings of their runes, a space for the rune 0;
    and there are no more calls than cells. *)
Theorem every_cell_is_drawn_once view m i :
  let n := Z.to_nat (viewWidth view) in
  let cells := firstn n (nth i (getLines view) []) in
  let drawn := filter (onRow (Z.of_nat i))
                 (textCalls (renderText ColoursEqual view m)) in
  exists rs,
    drawn = (if fontMapSet m then drawRuns (Z.of_nat i) 0 rs else [])
    /\ List.concat rs = cells
    /\ Forall (fun r => r <> []) rs
    /\ flat_map textOf drawn
       = (if fontMapSet m then flat_map shown cells else [])
    /\ (List.length drawn <= List.length cells)%nat.
Proof.
  intros n cells drawn.
  exists (runs ColoursEqual cells).
  assert (Hd : drawn = if fontMapSet m
                       then drawRuns (Z.of_nat i) 0 (runs ColoursEqual cells)
                       else []).
  { unfold drawn. rewrite renderText_runs. destruct (fontMapSet m).
    - apply (drawLines_row n (getLines view) i 0).
    - reflexivity. }
  split; [exact Hd|]. split; [apply runs_concat|].
  split; [apply runs_nonempty|].
  rewrite Hd. destruct (fontMapSet m).
  - split.
    + rewrite drawRuns_text, runs_concat. reflexivity.
    + rewrite drawRuns_length.
      rewrite <- (runs_concat cells) at 2.
      apply concat_length_nonempty, runs_nonempty.
  - split; [reflexivity | cbn; lia].
Qed.

Lemma drawRuns_of_cells cells row rs : forall before after,
  Forall styled rs ->
  cells = before ++ List.concat rs ++ after ->
  Forall (drawsRunOf cells row)
    (drawRuns row (Z.of_nat (List.length before)) rs).
Proof.
  induction rs as [|r rs IH]; intros before after Hs Hc; cbn [drawRuns].
  - constructor.
  - pose proof (Forall_inv Hs) as Hr. pose proof (Forall_inv_tail Hs) as Hrs.
    constructor.
    + destruct Hr as (init & l & -> & Hi).
      exists before, init, l, (List.concat rs ++ after).
      split.
      { rewrite Hc. cbn [List.concat]. rewrite <- !app_assoc. reflexivity. }
      split.
      { unfold drawRun. rewrite styleOf_last. reflexivity. }
      split; [exact Hi |]. unfold drawRun. rewrite styleOf_last.
      cbn [textOf]. apply flat_shown_nonempty.
    + replace (Z.of_nat (List.length before) + Z.of_nat (List.length r))
        with (Z.of_nat (List.length (before ++ r)))
        by (rewrite length_app; lia).
      apply (IH (before ++ r) after Hrs).
      rewrite Hc. cbn [List.concat]. rewrite <- !app_assoc. reflexivity.
Qed.

Lemma drawLines_rows n lines : forall row,
  Forall (fun call =>
            exists i, (i < List.length lines)%nat
                      /\ rowOf call = row + Z.of_nat i)
    (drawLines ColoursEqual n row lines).
Proof.
  induction lines as [|cells rest IH]; intros row; cbn [drawLines].
  - constructor.
  - apply Forall_app. split.
    + apply Forall_forall. intros call Hin. exists 0%nat.
      split; [cbn; lia |].
      assert (H : In call (filter (onRow row)
                             (drawRuns row 0 (runs ColoursEqual (firstn n cells)))))
        by (rewrite drawRuns_on_row; exact Hin).
      apply filter_In in H. destruct H as [_ H]. unfold onRow in H.
      apply Z.eqb_eq in H. cbn. lia.
    + eapply Forall_impl; [| apply (IH (row + 1))].
      intros call (i & Hi & Hrow). exists (S i).
      split; [cbn; lia |]. rewrite Hrow. lia.
Qed.

(** X22.  Every text drawn has one style: each call to [drawCellText] is
    for one line in view, and what it draws for the line [i] is a run of
    consecutive cells among the first [ViewWidth] cells of that line, at
    the column where the run starts.  The cells of the run all have the
    [Dim] and the [Bold] of its last cell; the call is made with that
    [Bold], with the foreground of the last cell, with the alpha 0.5 if the
    cells are dim and 1.0 if not, with the scale 0.3 and with the encoded
    runes of the cells of the run, which is not empty, as its text. *)
Theorem drawn_text_has_one_style view m i :
  let n := Z.to_nat (viewWidth view) in
  let cells := firstn n (nth i (getLines view) []) in
  Forall (drawsRunOf cells (Z.of_nat i))
    (filter (onRow (Z.of_nat i))
       (textCalls (renderText ColoursEqual view m)))
  /\ Forall (fun call =>
               exists j, (j < List.length (getLines view))%nat
                         /\ rowOf call = Z.of_nat j)
       (textCalls (renderText ColoursEqual view m)).
Proof.
  intros n cells. subst cells n. rewrite renderText_runs.
  set (n := Z.to_nat (viewWidth view)).
  set (cells := firstn n (nth i (getLines view) [])).
  destruct (fontMapSet m); [| split; constructor].
  split.
  - pose proof (drawLines_row n (getLines view) i 0) as H.
    rewrite Z.add_0_l in H. rewrite H. fold cells.
    apply (drawRuns_of_cells cells (Z.of_nat i) (runs ColoursEqual cells)
             [] []).
    + apply runs_styled.
    + rewrite app_nil_r, runs_concat. reflexivity.
  - eapply Forall_impl; [| apply (drawLines_rows n (getLines view) 0)].
    intros call (j & Hj & Hrow). exists j. split; [exact Hj | exact Hrow].
Qed.

(** X23.  [renderText] never makes [drawCellText] dereference nil: it calls
    it only when there is a font map, and never with a nil colour.  All its
    calls run to the end, and they make two calls to a font, [SetColor] and
    [PrintScaled], for each text drawn and none for the backgrounds. *)
Theorem renderText_never_dereferences_nil view m :
  exists t,
    perform m (renderText ColoursEqual view m) = Some t
    /\ List.length t
       = (2 * List.length (textCalls (renderText ColoursEqual view m)))%nat.
Proof.
  rewrite perform_text. rewrite renderText_runs.
  destruct (fontMapSet m) eqn:Hm.
  - apply perform_styled; [exact Hm | apply drawLines_styled].
  - exists []. split; reflexivity.
Qed.

(** X24.  The selection does not show in the minimap: the calls to the
    fonts and the texts drawn are the same whatever cells are selected,
    whatever the colour of the selection and whatever the default cell. *)
Theorem selection_does_not_show lines w m sel1 colour1 dflt1 sel2 colour2 dflt2 :
  let v1 := viewOf lines w sel1 colour1 dflt1 in
  let v2 := viewOf lines w sel2 colour2 dflt2 in
  perform m (renderText ColoursEqual v1 m)
  = perform m (renderText ColoursEqual v2 m)
  /\ textCalls (renderText ColoursEqual v1 m)
     = textCalls (renderText ColoursEqual v2 m).
Proof.
  intros v1 v2.
  assert (H : textCalls (renderText ColoursEqual v1 m)
              = textCalls (renderText ColoursEqual v2 m)).
  { rewrite !renderText_runs. reflexivity. }
  split; [|exact H].
  rewrite (perform_text m (renderText ColoursEqual v1 m)), H.
  symmetry. apply perform_text.
Qed.

(** X25.  A line of one style is drawn with one call: when every cell of a
    line continues every other and the view is at least one column wide,
    the body of the loop over the lines makes one call to [drawCellText],
    with the text of all the cells in view, at the column 0. *)
Theorem one_style_one_call view row c rest :
  oneStyle ColoursEqual (c :: rest) = true ->
  0 < viewWidth view ->
  textCalls (renderRow ColoursEqual view row (c :: rest))
  = [drawRun row 0 (firstn (Z.to_nat (viewWidth view)) (c :: rest))].
Proof.
  intros Hone Hw. rewrite renderRow_runs.
  destruct (Z.to_nat (viewWidth view)) as [|n] eqn:Hn; [lia|].
  cbn [firstn runs]. rewrite runsFrom_one; [reflexivity|].
  unfold oneStyle in Hone. rewrite forallb_forall in Hone.
  rewrite forallb_forall. intros a Ha.
  assert (Hin : forall x, In x (c :: firstn n rest) -> In x (c :: rest)).
  { intros x [-> | Hx]; [left; reflexivity | right].
    rewrite <- (firstn_skipn n rest). apply in_or_app. left. exact Hx. }
  specialize (Hone a (Hin a Ha)). rewrite forallb_forall in Hone.
  rewrite forallb_forall. intros b Hb. apply Hone, Hin, Hb.
Qed.

End RunFacts.

Lemma one_style_one_call_witness :
  textCalls (renderRow sameColour plainView 0 (plainCell 108 :: [plainCell 115]))
  = [drawRun 0 0
       (firstn (Z.to_nat (viewWidth plainView))
          (plainCell 108 :: [plainCell 115]))].
Proof.
  apply (one_style_one_call sameColour plainView 0 (plainCell 108)
           [plainCell 115]).
  - vm_compute. reflexivity.
  - reflexivity.
Defined.

End MiniMapFacts.

(** ** Moves of the pointer *)

Module PointerFacts.

Import Float Trace Mouse Samples DispatchRuns PointerRuns.

Lemma set_cursors_same g : set_cursors g (handCursor g) (arrowCursor g) = g.
Proof. destruct g. reflexivity. Qed.

(** One move of a drag. *)
Lemma dispatch_drag g ev hc ac :
  catchedMouseHandler g = Some HViewport ->
  mouseDown g = true ->
  isMove ev = true ->
  dispatch (set_cursors g hc ac) ev
  = (set_cursors g (hc || overLink ev) (ac || negb (overLink ev)),
     dragEffects hc ac [ev], Returned).
Proof.
  intros Hc Hd Hm. destruct ev as [env [px py | b a m]]; [|discriminate].
  unfold dispatch, dragEffects, overLink, cellOf, pointerOf.
  cbn [fst snd]. unfold globalMouseMoveCallback.
  destruct (scaleMouseCoordinates env px py) as [sx sy] eqn:Hs.
  cbn [set_cursors set_arrowCursor set_handCursor catchedMouseHandler
       fst snd].
  rewrite Hc. unfold callMove, mouseMoveCallback.
  destruct (convertMouseCoordinates env sx sy) as [x y].
  cbn [mouseDown set_cursors set_arrowCursor set_handCursor fst snd].
  rewrite Hd. unfold getHandCursor, getArrowCursor.
  cbn [handCursor arrowCursor].
  destruct (negb (String.eqb (getURLAtPosition env x y) EmptyString)),
    hc, ac; reflexivity.
Qed.

Lemma dragEffects_created evs :
  dragEffects true true evs = flat_map dragMove evs.
Proof.
  induction evs as [|ev evs IH]; [reflexivity|].
  cbn [dragEffects flat_map orb]. rewrite IH. unfold dragMove.
  destruct (overLink ev); reflexivity.
Qed.

Lemma run_drag evs : forall g hc ac,
  catchedMouseHandler g = Some HViewport ->
  mouseDown g = true ->
  forallb isMove evs = true ->
  run (set_cursors g hc ac) evs
  = (set_cursors g (hc || existsb overLink evs)
       (ac || existsb (fun ev => negb (overLink ev)) evs),
     dragEffects hc ac evs, Returned).
Proof.
  induction evs as [|ev evs IH]; intros g hc ac Hc Hd Hm.
  - cbn [run existsb dragEffects]. rewrite !orb_false_r. reflexivity.
  - cbn [forallb] in Hm. apply andb_prop in Hm as [Hm1 Hm2].
    cbn [run]. rewrite (dispatch_drag g ev hc ac Hc Hd Hm1).
    rewrite (IH g _ _ Hc Hd Hm2).
    cbn [existsb dragEffects]. rewrite !orb_assoc, app_nil_r.
    rewrite <- !app_assoc. reflexivity.
Qed.

(** X26.  The selection follows the pointer: while the viewport has the
    capture and a button is down on it, every move of the pointer, inside
    the viewport or not, is handled by the viewport, extends the selection
    to the cell under the pointer and sets the cursor, a hand over a link
    and an arrow elsewhere, after creating that cursor if no earlier move
    has.  It makes no other call and changes nothing in the state but the
    two cursors kept there; once both exist the state stays as it is. *)
Theorem selection_follows_the_pointer g evs :
  catchedMouseHandler g = Some HViewport ->
  mouseDown g = true ->
  forallb isMove evs = true ->
  run g evs
  = (set_cursors g (handCursor g || existsb overLink evs)
       (arrowCursor g || existsb (fun ev => negb (overLink ev)) evs),
     dragEffects (handCursor g) (arrowCursor g) evs, Returned)
  /\ (handCursor g = true -> arrowCursor g = true ->
      run g evs = (g, flat_map dragMove evs, Returned)).
Proof.
  intros Hc Hd Hm.
  pose proof (run_drag evs g (handCursor g) (arrowCursor g) Hc Hd Hm) as H.
  rewrite set_cursors_same in H. split; [exact H |].
  intros Hh Ha. rewrite H, Hh, Ha. cbn [orb].
  rewrite dragEffects_created.
  rewrite <- Hh at 1. rewrite <- Ha at 1. rewrite set_cursors_same.
  reflexivity.
Qed.

Lemma selection_follows_the_pointer_witness :
  snd (fst (run pressedGUI sampleMoves))
  = [CallMove HViewport; ExtendSelection 25 2 false;
     CreateStandardCursor false; SetCursor false;
     CallMove HViewport; ExtendSelection 65535 2 false; SetCursor false].
Proof.
  rewrite (proj1 (selection_follows_the_pointer pressedGUI sampleMoves
                    eq_refl eq_refl eq_refl)).
  vm_compute. reflexivity.
Defined.

Lemma scrollbar_move_quiet sb px py :
  let t := snd (Scrollbar.mouseMoveCallback sb px py) in
  writes t = [] /\ existsb isPaste t = false
  /\ existsb isClipboardCopy t = false /\ existsb isLaunch t = false
  /\ existsb isSelectionStart t = false.
Proof.
  unfold Scrollbar.mouseMoveCallback.
  repeat (match goal with |- context [if ?b then _ else _] =>
            destruct b end); repeat split.
Qed.

(** X27.  The motion of the pointer is never reported: whatever the mouse
    mode, the handler that has the capture and the place of the pointer, a
    move writes nothing to the terminal, pastes nothing, copies nothing,
    opens no link and starts no selection, and it leaves the button state
    and the click count as they are. *)
Theorem pointer_motion_is_never_reported g env px py :
  let r := dispatch g (env, EvMove px py) in
  let t := snd (fst r) in
  writes t = [] /\ existsb isPaste t = false
  /\ existsb isClipboardCopy t = false /\ existsb isLaunch t = false
  /\ existsb isSelectionStart t = false
  /\ mouseDown (fst (fst r)) = mouseDown g
  /\ leftClickCount (fst (fst r)) = leftClickCount g
  /\ catchedMouseHandler (fst (fst r)) = catchedMouseHandler g.
Proof.
  unfold dispatch. cbn [fst snd]. unfold globalMouseMoveCallback.
  destruct (scaleMouseCoordinates env px py) as [sx sy].
  assert (Hv : let r := callMove g env HViewport sx sy in
               let t := snd (fst r) in
               writes t = [] /\ existsb isPaste t = false
               /\ existsb isClipboardCopy t = false
               /\ existsb isLaunch t = false
               /\ existsb isSelectionStart t = false
               /\ mouseDown (fst (fst r)) = mouseDown g
               /\ leftClickCount (fst (fst r)) = leftClickCount g
               /\ catchedMouseHandler (fst (fst r)) = catchedMouseHandler g).
  { unfold callMove, mouseMoveCallback, getHandCursor, getArrowCursor.
    destruct (convertMouseCoordinates env sx sy) as [x y].
    destruct (mouseDown g) eqn:Hd, (negb (String.eqb _ _)); cbn;
      destruct (handCursor g), (arrowCursor g); cbn; rewrite ?Hd;
      repeat split. }
  assert (Hs : let r := callMove g env HScrollbar sx sy in
               let t := snd (fst r) in
               writes t = [] /\ existsb isPaste t = false
               /\ existsb isClipboardCopy t = false
               /\ existsb isLaunch t = false
               /\ existsb isSelectionStart t = false
               /\ mouseDown (fst (fst r)) = mouseDown g
               /\ leftClickCount (fst (fst r)) = leftClickCount g
               /\ catchedMouseHandler (fst (fst r)) = catchedMouseHandler g).
  { unfold callMove. destruct (vScrollbar g) as [sb|]; [|cbn; repeat split].
    pose proof (scrollbar_move_quiet sb sx sy) as H. cbn zeta in H.
    destruct (Scrollbar.mouseMoveCallback sb sx sy) as [sb1 t].
    cbn [fst snd] in *. destruct H as (H1 & H2 & H3 & H4 & H5).
    cbn [writes existsb isPaste isClipboardCopy isLaunch isSelectionStart orb].
    repeat split; assumption. }
  destruct (catchedMouseHandler g) as [[|]|] eqn:Hc.
  - exact Hv.
  - exact Hs.
  - destruct (isMouseInside env sx sy); [exact Hv|].
    destruct (scrollbarIsInside g sx sy); [exact Hs|].
    cbn. rewrite Hc. repeat split.
Qed.

End PointerFacts.

(** ** Reading a mouse report back *)

Module DecodingFacts.

Import Float Trace Mouse Samples Decoding BaseFacts ReportFacts.

Lemma land_high_low k a x :
  0 <= k -> 0 <= x < 2 ^ k -> Z.land (a * 2 ^ k) x = 0.
Proof.
  intros Hk Hx. apply Z.bits_inj'. intros n Hn.
  rewrite Z.land_spec, Z.bits_0.
  destruct (Z.lt_ge_cases n k) as [Hlt | Hge].
  - rewrite Z.mul_pow2_bits_low by exact Hlt. reflexivity.
  - assert (Hb : Z.testbit x n = false).
    { destruct (Z.eq_dec x 0) as [-> | Hnz]; [apply Z.bits_0|].
      apply Z.bits_above_log2; [lia|].
      assert (Z.log2 x < k) by (apply Z.log2_lt_pow2; lia). lia. }
    rewrite Hb. apply andb_false_r.
Qed.

Lemma lor_high_low k a x :
  0 <= k -> 0 <= x < 2 ^ k -> Z.lor (a * 2 ^ k) x = a * 2 ^ k + x.
Proof.
  intros Hk Hx. pose proof (land_high_low k a x Hk Hx) as H.
  rewrite <- Z.lxor_lor by exact H. symmetry.
  apply Z.add_nocarry_lxor. exact H.
Qed.

Lemma lor_lead (lead x : Z) k a :
  lead = a * 2 ^ k -> 0 <= k -> 0 <= x < 2 ^ k -> Z.lor lead x = lead + x.
Proof. intros -> Hk Hx. apply lor_high_low; assumption. Qed.

Lemma low6 r : Z.land r 63 = r mod 64.
Proof. change 63 with (Z.ones 6). rewrite Z.land_ones by lia. reflexivity. Qed.

Lemma cont_byte r : 0 <= r -> Z.lor 128 (Z.land r 63) = 128 + r mod 64.
Proof.
  intros H. rewrite low6.
  apply (lor_lead 128 (r mod 64) 7 1); [reflexivity | lia |].
  pose proof (Z.mod_pos_bound r 64). change (2 ^ 7) with 128. lia.
Qed.

Lemma shiftr_div r k : 0 <= k -> Z.shiftr r k = r / 2 ^ k.
Proof. intros H. apply Z.shiftr_div_pow2. exact H. Qed.

(** The bytes of the encodings, by arithmetic. *)
Lemma encodeRune_two r :
  128 <= r <= 2047 ->
  Utf8.encodeRune r = [192 + r / 64; 128 + r mod 64].
Proof.
  intros H. unfold Utf8.encodeRune.
  replace ((0 <=? r) && (r <=? 127)) with false
    by (symmetry; apply andb_false_iff; right; apply Z.leb_gt; lia).
  replace ((0 <=? r) && (r <=? 2047)) with true
    by (symmetry; apply andb_true_iff; split; apply Z.leb_le; lia).
  rewrite cont_byte by lia. rewrite shiftr_div by lia. change (2 ^ 6) with 64.
  f_equal.
  apply (lor_lead 192 (r / 64) 6 3); [reflexivity | lia |].
  change (2 ^ 6) with 64. split; [apply Z.div_pos; lia|].
  apply Z.div_lt_upper_bound; lia.
Qed.

Lemma encodeRune_three r :
  2048 <= r <= 65535 -> r < 55296 \/ 57343 < r ->
  Utf8.encodeRune r
  = [224 + r / 4096; 128 + (r / 64) mod 64; 128 + r mod 64].
Proof.
  intros H Hs. unfold Utf8.encodeRune, Utf8.MaxRune.
  replace ((0 <=? r) && (r <=? 127)) with false
    by (symmetry; apply andb_false_iff; right; apply Z.leb_gt; lia).
  replace ((0 <=? r) && (r <=? 2047)) with false
    by (symmetry; apply andb_false_iff; right; apply Z.leb_gt; lia).
  replace ((r <? 0) || (1114111 <? r) || ((55296 <=? r) && (r <=? 57343)))
    with false.
  2:{ symmetry. apply orb_false_iff. split.
      - apply orb_false_iff. split; apply Z.ltb_ge; lia.
      - apply andb_false_iff.
        destruct Hs; [left | right]; apply Z.leb_gt; lia. }
  replace (r <=? 65535) with true by (symmetry; apply Z.leb_le; lia).
  rewrite !shiftr_div by lia.
  change (2 ^ 6) with 64. change (2 ^ 12) with 4096.
  rewrite !cont_byte by (try lia; apply Z.div_pos; lia).
  f_equal.
  apply (lor_lead 224 (r / 4096) 5 7); [reflexivity | lia |].
  change (2 ^ 5) with 32. split; [apply Z.div_pos; lia|].
  apply Z.div_lt_upper_bound; lia.
Qed.

Lemma encodeRune_four r :
  65536 <= r <= Utf8.MaxRune ->
  Utf8.encodeRune r
  = [240 + r / 262144; 128 + (r / 4096) mod 64; 128 + (r / 64) mod 64;
     128 + r mod 64].
Proof.
  unfold Utf8.MaxRune. intros H. unfold Utf8.encodeRune, Utf8.MaxRune.
  replace ((0 <=? r) && (r <=? 127)) with false
    by (symmetry; apply andb_false_iff; right; apply Z.leb_gt; lia).
  replace ((0 <=? r) && (r <=? 2047)) with false
    by (symmetry; apply andb_false_iff; right; apply Z.leb_gt; lia).
  replace ((r <? 0) || (1114111 <? r) || ((55296 <=? r) && (r <=? 57343)))
    with false.
  2:{ symmetry. apply orb_false_iff. split.
      - apply orb_false_iff. split; apply Z.ltb_ge; lia.
      - apply andb_false_iff. right. apply Z.leb_gt. lia. }
  replace (r <=? 65535) with false by (symmetry; apply Z.leb_gt; lia).
  rewrite !shiftr_div by lia.
  change (2 ^ 6) with 64. change (2 ^ 12) with 4096.
  change (2 ^ 18) with 262144.
  rewrite !cont_byte by (try lia; apply Z.div_pos; lia).
  f_equal.
  apply (lor_lead 240 (r / 262144) 4 15); [reflexivity | lia |].
  change (2 ^ 4) with 16. split; [apply Z.div_pos; lia|].
  apply Z.div_lt_upper_bound; lia.
Qed.

(** Decoding undoes encoding, whatever follows. *)
Lemma decode_encode r rest :
  encodable r ->
  decodeRune (Utf8.encodeRune r ++ rest) = Some (r, rest).
Proof.
  unfold encodable, Utf8.MaxRune. intros H.
  destruct (Z_le_gt_dec r 127) as [H1 | H1].
  - rewrite encodeRune_ascii by lia. cbn [app decodeRune].
    replace (r <? 128) with true by (symmetry; apply Z.ltb_lt; lia).
    reflexivity.
  - destruct (Z_le_gt_dec r 2047) as [H2 | H2].
    + rewrite encodeRune_two by lia. cbn [app decodeRune].
      assert (0 <= r / 64 < 32)
        by (split; [apply Z.div_pos; lia | apply Z.div_lt_upper_bound; lia]).
      replace (192 + r / 64 <? 128) with false by (symmetry; apply Z.ltb_ge; lia).
      replace (192 + r / 64 <? 192) with false by (symmetry; apply Z.ltb_ge; lia).
      replace (192 + r / 64 <? 224) with true by (symmetry; apply Z.ltb_lt; lia).
      f_equal. f_equal. pose proof (Z.div_mod r 64). lia.
    + destruct (Z_le_gt_dec r 65535) as [H3 | H3].
      * rewrite encodeRune_three by lia. cbn [app decodeRune].
        assert (0 <= r / 4096 < 16)
          by (split; [apply Z.div_pos; lia | apply Z.div_lt_upper_bound; lia]).
        replace (224 + r / 4096 <? 128) with false by (symmetry; apply Z.ltb_ge; lia).
        replace (224 + r / 4096 <? 192) with false by (symmetry; apply Z.ltb_ge; lia).
        replace (224 + r / 4096 <? 224) with false by (symmetry; apply Z.ltb_ge; lia).
        replace (224 + r / 4096 <? 240) with true by (symmetry; apply Z.ltb_lt; lia).
        f_equal. f_equal.
        pose proof (Z.div_mod r 64). pose proof (Z.div_mod (r / 64) 64).
        assert (r / 64 / 64 = r / 4096)
          by (rewrite Z.div_div by lia; reflexivity).
        lia.
      * rewrite encodeRune_four by (unfold Utf8.MaxRune; lia).
        cbn [app decodeRune].
        assert (0 <= r / 262144 < 8)
          by (split; [apply Z.div_pos; lia | apply Z.div_lt_upper_bound; lia]).
        replace (240 + r / 262144 <? 128) with false by (symmetry; apply Z.ltb_ge; lia).
        replace (240 + r / 262144 <? 192) with false by (symmetry; apply Z.ltb_ge; lia).
        replace (240 + r / 262144 <? 224) with false by (symmetry; apply Z.ltb_ge; lia).
        replace (240 + r / 262144 <? 240) with false by (symmetry; apply Z.ltb_ge; lia).
        f_equal. f_equal.
        pose proof (Z.div_mod r 64). pose proof (Z.div_mod (r / 64) 64).
        pose proof (Z.div_mod (r / 4096) 64).
        assert (r / 64 / 64 = r / 4096)
          by (rewrite Z.div_div by lia; reflexivity).
        assert (r / 4096 / 64 = r / 262144)
          by (rewrite Z.div_div by lia; reflexivity).
        lia.
Qed.

Lemma decode_packet c x y :
  encodable c -> encodable x -> encodable y ->
  decodePacket (Utf8.mousePacket c x y) = Some (c, x, y).
Proof.
  intros Hc Hx Hy. unfold Utf8.mousePacket, decodePacket. cbn [app].
  rewrite (decode_encode c _ Hc), (decode_encode x _ Hx).
  rewrite <- (app_nil_r (Utf8.encodeRune y)).
  rewrite (decode_encode y [] Hy). reflexivity.
Qed.

Lemma report_tells env button action mod_ cx cy :
  0 <= cx < 55263 -> 0 <= cy < 55263 ->
  forallb (tellsCell cx cy)
    (writes (fst (reportMouse env button action mod_ (cx + 1) (cy + 1))))
  = true.
Proof.
  intros Hx Hy. unfold reportMouse.
  assert (Htell : forall c, 32 <= c <= 63 ->
            tellsCell cx cy
              (Utf8.mousePacket c (GoInt.wrap32 (cx + 1 + 32))
                 (GoInt.wrap32 (cy + 1 + 32))) = true).
  { intros c Hc. rewrite !wrap32_small by lia. unfold tellsCell.
    rewrite decode_packet by (unfold encodable; lia).
    repeat (apply andb_true_iff; split);
      try (apply Z.leb_le; lia); apply Z.eqb_eq; lia. }
  assert (Hvt : forall b, 0 <= b <= 3 ->
            tellsCell cx cy
              (Utf8.mousePacket (GoInt.uint8 (withModifiers b mod_ + 32))
                 (GoInt.wrap32 (cx + 1 + 32))
                 (GoInt.wrap32 (cy + 1 + 32))) = true).
  { intros b Hb. pose proof (ViewportFacts.withModifiers_bound b mod_ Hb).
    apply Htell. unfold GoInt.uint8. rewrite Z.mod_small by lia. lia. }
  assert (Hx10 :
            tellsCell cx cy
              (Utf8.mousePacket
                 (GoInt.wrap32 (GoInt.wrap32 (Glfw.button_code button) + 32))
                 (GoInt.wrap32 (cx + 1 + 32))
                 (GoInt.wrap32 (cy + 1 + 32))) = true).
  { pose proof (button_code_range button) as Hb. apply Htell.
    rewrite (wrap32_small (Glfw.button_code button)) by lia.
    rewrite wrap32_small by lia. lia. }
  destruct (getMouseMode env), action; cbn [fst writes forallb];
    try reflexivity; rewrite ?Hx10, ?Hvt by lia; try reflexivity;
    destruct button; cbn [fst writes forallb]; rewrite ?Hvt by lia;
    reflexivity.
Qed.

(** X28.  A mouse report can be read back: when the cell under the pointer
    has both coordinates below 55263, every report that a button event on
    the viewport writes is ESC [ M and three UTF-8 characters of which the
    first is between 32 and 63 and the other two decode to the column plus
    33 and the row plus 33. *)
Theorem report_tells_the_cell g env button action mod_ mx my cx cy :
  overlay g = false ->
  convertMouseCoordinates env mx my = (cx, cy) ->
  cx < 55263 -> cy < 55263 ->
  forallb (tellsCell cx cy)
    (writes (snd (fst (mouseButtonCallback g env button action mod_ mx my))))
  = true.
Proof.
  intros Hov Hc Hx Hy.
  destruct (convert_range _ _ _ _ _ Hc) as [Hx0 Hy0].
  destruct (callback_writes g env button action mod_ mx my cx cy Hov Hc)
    as [Hw _].
  rewrite Hw. apply report_tells; lia.
Qed.

Lemma report_tells_the_cell_witness :
  forallb (tellsCell 96 0)
    (writes (snd (fst (mouseButtonCallback sampleGUI
                         (sampleEnv MouseModeVT200 (f64 770, f64 5))
                         Glfw.MouseButtonLeft Glfw.Press 0
                         (f64 770) (f64 5)))))
  = true.
Proof.
  apply (report_tells_the_cell sampleGUI
           (sampleEnv MouseModeVT200 (f64 770, f64 5))
           Glfw.MouseButtonLeft Glfw.Press 0 (f64 770) (f64 5) 96 0).
  - reflexivity.
  - vm_compute. reflexivity.
  - lia.
  - lia.
Defined.

End DecodingFacts.

(** ** Where the minimap prints *)

Module PositionFacts.

Import Float MiniMap MiniMapRuns MiniMapSamples MiniMapGeometry FloatFacts.

Local Open Scope Q_scope.

Lemma nonneg_key c :
  finite c = true -> fle (FZero false) c = true -> 0 <= key binary32 c.
Proof.
  destruct c as [| s | s | v]; cbn [finite key]; intros Hf H;
    try discriminate Hf.
  - lra.
  - cbn in H. apply Qle_bool_iff in H. exact H.
Qed.

(** A base plus a step times a count does not decrease with the count. *)
Lemma offset_monotone base step n1 n2 :
  finite base = true -> finite step = true ->
  fle (FZero false) step = true ->
  (0 <= n1)%Z -> (n1 <= n2)%Z -> (n2 <= GoInt.max_int)%Z ->
  fle (add binary32 base (mul binary32 step (f32 n1)))
      (add binary32 base (mul binary32 step (f32 n2))) = true.
Proof.
  intros Hb Hs Hpos H1 H12 H2.
  pose proof (nonneg_key step Hs Hpos) as Hk.
  destruct (ThumbFacts.f32_int n1) as (Hf1 & _ & Hk1 & Hn1); [lia |].
  destruct (ThumbFacts.f32_int n2) as (Hf2 & _ & Hk2 & Hn2); [lia |].
  destruct (key_mul binary32 ThumbFacts.prec32 step (f32 n1) Hs Hf1)
    as [Hm1 Wm1].
  destruct (key_mul binary32 ThumbFacts.prec32 step (f32 n2) Hs Hf2)
    as [Hm2 Wm2].
  set (m1 := mul binary32 step (f32 n1)) in *.
  set (m2 := mul binary32 step (f32 n2)) in *.
  assert (Hkk : key binary32 (f32 n1) <= key binary32 (f32 n2)).
  { rewrite Hk1, Hk2. apply rk_mono; [exact ThumbFacts.prec32 |].
    rewrite <- Zle_Qle. exact H12. }
  assert (Hmm : key binary32 m1 <= key binary32 m2).
  { rewrite Hm1, Hm2. apply rk_mono; [exact ThumbFacts.prec32 |].
    rewrite (Qmult_comm _ (key binary32 (f32 n1))).
    rewrite (Qmult_comm _ (key binary32 (f32 n2))).
    apply Qmult_le_compat_r; assumption. }
  assert (Hmn : 0 <= key binary32 m1).
  { rewrite Hm1. apply rk_nonneg. apply Qmult_le_0_compat; assumption. }
  assert (Hmn2 : 0 <= key binary32 m2) by lra.
  destruct (key_add binary32 ThumbFacts.prec32 base m1 Hb Wm1 Hmn)
    as [Ha1 Wa1].
  destruct (key_add binary32 ThumbFacts.prec32 base m2 Hb Wm2 Hmn2)
    as [Ha2 Wa2].
  apply (fle_of_key binary32); try assumption.
  rewrite Ha1, Ha2. apply key_add_mono; [exact ThumbFacts.prec32 | exact Hmm].
Qed.

Local Close Scope Q_scope.

(** X29.  Text is drawn in reading order: with a font map, a finite origin
    and finite font metrics that are not negative, [drawCellText] prints the text of a
    later column at an x that is not less than that of an earlier column,
    and the text of a later line at a y that is not less than that of an
    earlier line, where x = left + cellWidth * col and y = top + lineHeight
    * scale * row in [float32]. *)
Theorem text_is_drawn_in_reading_order m scale
  text1 col1 row1 alpha1 color1 bold1 text2 col2 row2 alpha2 color2 bold2 :
  fontMapSet m = true ->
  finite (left m) = true -> finite (top m) = true ->
  finite (cellWidth m) = true -> fle (FZero false) (cellWidth m) = true ->
  finite (mul binary32 (lineHeight m) scale) = true ->
  fle (FZero false) (mul binary32 (lineHeight m) scale) = true ->
  0 <= col1 -> col1 <= col2 -> col2 <= GoInt.max_int ->
  0 <= row1 -> row1 <= row2 -> row2 <= GoInt.max_int ->
  exists x1 y1 x2 y2,
    drawCellText m text1 scale col1 row1 alpha1 (Some color1) bold1
    = Some [SetColor bold1 (red color1) (green color1) (blue color1) alpha1;
            PrintScaled bold1 scale x1 y1 text1]
    /\ drawCellText m text2 scale col2 row2 alpha2 (Some color2) bold2
       = Some [SetColor bold2 (red color2) (green color2) (blue color2) alpha2;
               PrintScaled bold2 scale x2 y2 text2]
    /\ fle x1 x2 = true /\ fle y1 y2 = true.
Proof.
  intros Hm Hl Ht Hcw Hcw0 Hlh Hlh0 Hc1 Hc12 Hc2 Hr1 Hr12 Hr2.
  unfold drawCellText. rewrite Hm. cbn [negb].
  do 4 eexists. split; [reflexivity|]. split; [reflexivity|]. split.
  - apply offset_monotone; assumption.
  - apply offset_monotone; assumption.
Qed.

Lemma text_is_drawn_in_reading_order_witness :
  exists x1 y1 x2 y2,
    drawCellText sampleMiniMap [108] scale03 3 2 one (Some white) false
    = Some [SetColor false (red white) (green white) (blue white) one;
            PrintScaled false scale03 x1 y1 [108]]
    /\ drawCellText sampleMiniMap [115] scale03 10 5 half (Some black) true
       = Some [SetColor true (red black) (green black) (blue black) half;
               PrintScaled true scale03 x2 y2 [115]]
    /\ fle x1 x2 = true /\ fle y1 y2 = true.
Proof.
  apply (text_is_drawn_in_reading_order sampleMiniMap scale03
           [108] 3 2 one white false [115] 10 5 half black true);
    try (vm_compute; reflexivity); try (vm_compute; discriminate).
Defined.

End PositionFacts.

(** ** The wheel *)

Module WheelFacts.

Import Float Trace ScrollbarRuns.

(** X30.  A turn of the wheel scrolls by one line, whatever its size: up
    when the vertical offset is greater than zero, down in every other
    case, which includes an offset of zero (a horizontal scroll) and a NaN;
    the horizontal offset is not looked at. *)
Theorem wheel_scrolls_one_line xoff yoff :
  (glfwScrollCallback xoff yoff = [ScreenScrollUp 1]
   \/ glfwScrollCallback xoff yoff = [ScreenScrollDown 1])
  /\ (glfwScrollCallback xoff yoff = [ScreenScrollUp 1]
      <-> flt (FZero false) yoff = true)
  /\ (forall xoff', glfwScrollCallback xoff' yoff = glfwScrollCallback xoff yoff)
  /\ (forall s, glfwScrollCallback xoff (FZero s) = [ScreenScrollDown 1])
  /\ glfwScrollCallback xoff FNaN = [ScreenScrollDown 1]
  /\ (forall s, glfwScrollCallback xoff (FInf s)
                = if s then [ScreenScrollDown 1] else [ScreenScrollUp 1])
  /\ Z.abs (netScroll (glfwScrollCallback xoff yoff)) = 1.
Proof.
  unfold glfwScrollCallback, fgt.
  split; [destruct (flt (FZero false) yoff); [left | right]; reflexivity|].
  split.
  { destruct (flt (FZero false) yoff); split; intros H;
      try reflexivity; discriminate H. }
  split; [reflexivity|].
  split; [intros s; reflexivity|].
  split; [reflexivity|].
  split; [intros [|]; reflexivity|].
  destruct (flt (FZero false) yoff); reflexivity.
Qed.

End WheelFacts.
